(** * scripts/render.py: from service descriptors to nginx and systemd text

    A shallow embedding of [scripts/render.py].  Python values loaded from
    YAML are an inductive type, [str] is [string] read as a sequence of code
    points below 256 (one [ascii] per code point), dictionaries whose order
    matters are association lists, the file system is a finite map from path
    text to file content, and functions that print, write files or raise
    run in a small state-and-exception monad. *)

From Stdlib Require Import ZArith Ascii DecimalString Lia.
From stdpp Require Import base option list gmap strings sorting.

Local Open Scope Z_scope.
Local Open Scope stdpp_scope.

(** ** Python [str] methods used by the script *)

Module Str.

Definition nl : string := String "010"%char "".
Definition dq : string := String "034"%char "".
Definition sq : string := String "039"%char "".
Definition bs : string := String "092"%char "".

(** [bool(s)] for a string: non-empty. *)
Definition nonempty (s : string) : bool :=
  match s with "" => false | String _ _ => true end.

(** [c.isspace()] for a code point below 256. *)
Definition isspace (c : ascii) : bool :=
  match c with
  | "009" | "010" | "011" | "012" | "013"
  | "028" | "029" | "030" | "031" | " " | "133" | "160" => true
  | _ => false
  end%char.

(** The code points at which [str.splitlines] breaks a line. *)
Definition isbreak (c : ascii) : bool :=
  match c with
  | "010" | "011" | "012" | "013" | "028" | "029" | "030" | "133" => true
  | _ => false
  end%char.

Fixpoint lstrip (s : string) : string :=
  match s with
  | "" => ""
  | String c s' => if isspace c then lstrip s' else s
  end.

Fixpoint rstrip (s : string) : string :=
  match s with
  | "" => ""
  | String c s' =>
      match rstrip s' with
      | "" => if isspace c then "" else String c ""
      | r => String c r
      end
  end.

Definition strip (s : string) : string := lstrip (rstrip s).

(** [c.lower()] for a code point below 256: A-Z and the upper-case
    letters of Latin-1 (0xC0-0xDE without the multiplication sign). *)
Definition lower_char (c : ascii) : ascii :=
  let n := nat_of_ascii c in
  if ((65 <=? n)%nat && (n <=? 90)%nat)
     || ((192 <=? n)%nat && (n <=? 222)%nat && negb (n =? 215)%nat)
  then ascii_of_nat (n + 32) else c.

Fixpoint lower (s : string) : string :=
  match s with
  | "" => ""
  | String c s' => String (lower_char c) (lower s')
  end.

(** [s.startswith(p)] *)
Fixpoint startswith (p s : string) : bool :=
  match p, s with
  | "", _ => true
  | String a p', String b s' => if decide (a = b) then startswith p' s' else false
  | String _ _, "" => false
  end.

(** [sub in s] *)
Fixpoint contains (sub s : string) : bool :=
  startswith sub s ||
  match s with
  | "" => false
  | String _ s' => contains sub s'
  end.

(** The last code point, if any; [s.endswith(c)] for a single [c]. *)
Fixpoint last (s : string) : option ascii :=
  match s with
  | "" => None
  | String c "" => Some c
  | String _ s' => last s'
  end.

Definition endswith_char (c : ascii) (s : string) : bool :=
  bool_decide (last s = Some c).

(** [s[n:]] *)
Fixpoint drop (n : nat) (s : string) : string :=
  match n, s with
  | O, _ => s
  | S n', String _ s' => drop n' s'
  | S _, "" => ""
  end.

(** [sep.join(parts)] *)
Fixpoint join (sep : string) (parts : list string) : string :=
  match parts with
  | [] => ""
  | [p] => p
  | p :: rest => p +:+ sep +:+ join sep rest
  end.

(** What follows a line break [c]: a line feed right after a carriage
    return belongs to the same break. *)
Definition after_break (c : ascii) (s : string) : string :=
  match s with
  | String d s' =>
      if decide (c = "013"%char) then if decide (d = "010"%char) then s' else s else s
  | "" => s
  end.

(** [s.splitlines()]: [cur] is the line being read, in reverse. *)
Fixpoint splitlines_go (cur : string) (s : string) : list string :=
  match s with
  | "" => if nonempty cur then [String.rev cur] else []
  | String c s' =>
      if isbreak c then String.rev cur :: splitlines_go "" (after_break c s')
      else splitlines_go (String c cur) s'
  end.

Definition splitlines (s : string) : list string := splitlines_go "" s.

(** What reading a file in text mode makes of its line breaks (universal
    newlines): a carriage return, with the line feed right after it if
    there is one, is read as one line feed. *)
Fixpoint universal_newlines (s : string) : string :=
  match s with
  | "" => ""
  | String c s' =>
      if decide (c = "013"%char)
      then String "010"%char (universal_newlines (after_break c s'))
      else String c (universal_newlines s')
  end.

(** [s.replace(old, new)] for a non-empty [old]: the occurrences are taken
    from the left and do not overlap; [skip] counts the code points of an
    occurrence still to be passed over. *)
Fixpoint replace_go (old new : string) (skip : nat) (s : string) : string :=
  match s with
  | "" => ""
  | String c s' =>
      match skip with
      | S k => replace_go old new k s'
      | O =>
          if startswith old s
          then new +:+ replace_go old new (String.length old - 1) s'
          else String c (replace_go old new O s')
      end
  end.

(** With an empty [old] Python puts [new] before every code point and at
    the end. *)
Fixpoint intersperse (new s : string) : string :=
  match s with
  | "" => new
  | String c s' => new +:+ String c (intersperse new s')
  end.

Definition replace (old new s : string) : string :=
  match old with
  | "" => intersperse new s
  | String _ _ => replace_go old new O s
  end.

(** The pieces of an f-string or of adjacent literals, put together. *)
Definition cat (pieces : list string) : string := foldr String.app "" pieces.

(** [s.endswith(suffix)] *)
Definition endswith (suffix s : string) : bool :=
  startswith (String.rev suffix) (String.rev s).

(** The text after the last slash: [Path(s).name] for a path that does
    not end in a slash. *)
Fixpoint basename_go (cur : string) (s : string) : string :=
  match s with
  | "" => String.rev cur
  | String c s' =>
      if decide (c = "/"%char) then basename_go "" s' else basename_go (String c cur) s'
  end.

Definition basename (s : string) : string := basename_go "" s.

End Str.


(** ** Values loaded from YAML *)

#[local] Set Warnings "-register-all".

(** What [yaml.safe_load] returns, for documents built from null, booleans,
    integers, strings, sequences and mappings; a mapping is restricted to
    its string keys, the only ones the script looks up. *)
Inductive yval : Type :=
  | YNull
  | YBool (b : bool)
  | YInt (z : Z)
  | YStr (s : string)
  | YList (l : list yval)
  | YDict (kvs : list (string * yval)).

Module Py.

(** [bool(v)] *)
Definition truthy (v : yval) : bool :=
  match v with
  | YNull => false
  | YBool b => b
  | YInt z => negb (z =? 0)
  | YStr s => Str.nonempty s
  | YList l => match l with [] => false | _ => true end
  | YDict kvs => match kvs with [] => false | _ => true end
  end.

(** [a or b] *)
Definition or (a b : yval) : yval := if truthy a then a else b.

(** [d.get(key)] on the items of a dictionary; [None] is [YNull]. *)
Fixpoint get (key : string) (kvs : list (string * yval)) : yval :=
  match kvs with
  | [] => YNull
  | (k, v) :: rest => if decide (k = key) then v else get key rest
  end.

(** [d.get(key, default)] *)
Fixpoint get_default (key : string) (default : yval) (kvs : list (string * yval)) : yval :=
  match kvs with
  | [] => default
  | (k, v) :: rest => if decide (k = key) then v else get_default key default rest
  end.

Definition hex_digit (n : nat) : ascii :=
  ascii_of_nat (if (n <? 10)%nat then 48 + n else 87 + n).

(** [repr(s)] of a string: quoted with an apostrophe unless it holds one
    and no double quote; control and non-printable code points escaped. *)
Definition printable (n : nat) : bool :=
  if (n <? 32)%nat then false
  else if (n <? 127)%nat then true
  else if (n <? 161)%nat then false
  else negb (n =? 173)%nat.

Definition repr_char (quote : ascii) (c : ascii) : string :=
  let n := nat_of_ascii c in
  if decide (c = quote) then Str.bs +:+ String c ""
  else if decide (c = "092"%char) then Str.bs +:+ Str.bs
  else if decide (c = "009"%char) then Str.bs +:+ "t"
  else if decide (c = "010"%char) then Str.bs +:+ "n"
  else if decide (c = "013"%char) then Str.bs +:+ "r"
  else if printable n then String c ""
  else Str.bs +:+ "x" +:+ String (hex_digit (n / 16)) (String (hex_digit (n mod 16)) "").

Fixpoint repr_chars (quote : ascii) (s : string) : string :=
  match s with
  | "" => ""
  | String c s' => repr_char quote c +:+ repr_chars quote s'
  end.

Definition repr_str (s : string) : string :=
  let quote :=
    if Str.contains Str.sq s && negb (Str.contains Str.dq s)
    then "034"%char else "039"%char in
  String quote (repr_chars quote s) +:+ String quote "".

Definition str_of_Z (z : Z) : string := NilZero.string_of_int (Z.to_int z).

(** [repr(v)] *)
Fixpoint repr (v : yval) : string :=
  match v with
  | YNull => "None"
  | YBool true => "True"
  | YBool false => "False"
  | YInt z => str_of_Z z
  | YStr s => repr_str s
  | YList l => "[" +:+ Str.join ", " (map repr l) +:+ "]"
  | YDict kvs =>
      "{" +:+ Str.join ", " (map (fun kv => repr_str (fst kv) +:+ ": " +:+ repr (snd kv)) kvs) +:+ "}"
  end.

(** [str(v)], which is also how an f-string formats [v]. *)
Definition str (v : yval) : string :=
  match v with
  | YStr s => s
  | _ => repr v
  end.

End Py.


(** ** Exceptions and results *)

(** The exceptions the script can end with: [SystemExit] raised by the
    script itself, and the built-in errors of calling a [str] method on a
    value that is not text or of reading a file that is not there. *)
Inductive exn : Type :=
  | SystemExit (msg : string)
  | AttributeError
  | TypeError
  | FileNotFoundError.

Inductive result (A : Type) : Type :=
  | Ok (a : A)
  | Raise (e : exn).
Arguments Ok {A} a.
Arguments Raise {A} e.

(** ** parse_locations *)

(** A normalized entry of [locations]: the dictionary with the keys
    [path], [proxy_pass] and [extra], all text. *)
Record rule : Type := Rule {
  path : string;
  proxy_pass : string;
  extra : string;
}.

(** [val.lower() in ("true", "yes", "1", "on")] *)
Definition is_true_word (s : string) : bool :=
  bool_decide (Str.lower s ∈ ["true"; "yes"; "1"; "on"]).

Definition default_proxy (upstream_host upstream_port : yval) : string :=
  "http://" +:+ Py.str upstream_host +:+ ":" +:+ Py.str upstream_port.

(** The body of the loop for an entry that is a mapping with a path. *)
Definition normalize_entry (entry : list (string * yval)) (path : yval)
    (default_proxy : string) : rule :=
  let proxy_pass_val := Py.get "proxy_pass" entry in
  let proxy_pass :=
    match proxy_pass_val with
    | YBool false => ""
    | _ => if Py.truthy proxy_pass_val
           then Str.strip (Py.str proxy_pass_val) else default_proxy
    end in
  let strip_prefix :=
    match Py.get "strip_prefix" entry with
    | YStr s => is_true_word s
    | v => Py.truthy v
    end in
  let proxy_pass :=
    if strip_prefix && Str.nonempty proxy_pass && negb (Str.endswith_char "/" proxy_pass)
    then proxy_pass +:+ "/" else proxy_pass in
  let extra := Py.or (Py.get "extra" entry) (YStr "") in
  {| path := Str.strip (Py.str path);
     proxy_pass := proxy_pass;
     extra := Str.rstrip (Py.str extra) |}.

(** The loop over [enumerate(raw_locations, 1)]: the normalized entries and
    the lines printed to stderr, both in order. *)
Fixpoint parse_locations_loop (idx : nat) (entries : list yval)
    (default_proxy : string) : list rule * list string :=
  match entries with
  | [] => ([], [])
  | entry :: rest =>
      let '(normalized, warnings) := parse_locations_loop (S idx) rest default_proxy in
      match entry with
      | YDict kvs =>
          let path := Py.get "path" kvs in
          if Py.truthy path
          then (normalize_entry kvs path default_proxy :: normalized, warnings)
          else (normalized,
                ("Ignoring locations[" +:+ Py.str_of_Z (Z.of_nat idx) +:+ "] (missing path)")
                  :: warnings)
      | _ =>
          (normalized,
           ("Ignoring locations[" +:+ Py.str_of_Z (Z.of_nat idx) +:+ "] (expected mapping)")
             :: warnings)
      end
  end.

Definition parse_locations (raw_locations upstream_host upstream_port : yval)
    : list rule * list string :=
  if negb (Py.truthy raw_locations) then ([], [])
  else
    match raw_locations with
    | YList entries =>
        parse_locations_loop 1 entries (default_proxy upstream_host upstream_port)
    | _ => ([], ["Ignoring locations because it is not a list"])
    end.

(** ** parse_service *)

(** The dictionary [parse_service] returns, one field per key. *)
Record service : Type := Service {
  NAME : yval;
  DOMAIN : yval;
  UPSTREAM_HOST : yval;
  UPSTREAM_PORT : string;
  WORKING_DIR : yval;
  USER : yval;
  START_CMD : yval;
  STOP_CMD : yval;
  TYPE : string;
  REMAIN_AFTER_EXIT : string;
  RESTART : string;
  HEALTH_PATH : yval;
  STATIC_ROOT : yval;
  MIGRATE_CMD : yval;
  ALLOW_PLAIN_HTTP : bool;
  LOCATIONS : list rule;
}.

(** [_get(key, default)] *)
Definition _get (data : list (string * yval)) (key : string) (default : yval) : yval :=
  match Py.get_default key default data with
  | YNull => default
  | val => val
  end.

Definition _normalize_bool (val : yval) : bool :=
  match val with
  | YBool b => b
  | YStr s => is_true_word s
  | _ => false
  end.

(** [type(data).__name__] *)
Definition type_name (v : yval) : string :=
  match v with
  | YNull => "NoneType"
  | YBool _ => "bool"
  | YInt _ => "int"
  | YStr _ => "str"
  | YList _ => "list"
  | YDict _ => "dict"
  end.

(** [v in (t1, t2, ...)] for a tuple of texts: equal to one of them. *)
Definition in_texts (v : yval) (texts : list string) : bool :=
  match v with
  | YStr s => bool_decide (s ∈ texts)
  | _ => false
  end.

(** The two quoted-empty texts, a pair of double quotes and a pair of
    apostrophes. *)
Definition quoted_empty : list string := [Str.dq +:+ Str.dq; Str.sq +:+ Str.sq].

Definition is_compose (start_cmd_lower : string) : bool :=
  Str.contains "docker compose" start_cmd_lower
  || Str.contains "docker-compose" start_cmd_lower.

(** [(start_cmd or "").lower()]: only text has the method. *)
Definition start_cmd_lower (start_cmd : yval) : result string :=
  match Py.or start_cmd (YStr "") with
  | YStr s => Ok (Str.lower s)
  | _ => Raise AttributeError
  end.

Definition required (name domain upstream_port start_cmd working_dir : yval)
    : list (string * yval) :=
  [("name", name); ("domain", domain); ("upstream_port", upstream_port);
   ("start_cmd", start_cmd); ("working_dir", working_dir)].

(** [[k for k, v in required if not v]] *)
Definition missing_of (required : list (string * yval)) : list string :=
  map fst (filter (fun kv => Py.truthy (snd kv) = false) required).

(** The pattern the function ends with three times: raise [SystemExit]
    with the message when strict, otherwise print it to stderr and return
    [None]. *)
Definition skip (strict : bool) (printed : list string) (msg : string)
    : list string * result (option service) :=
  if strict then (printed, Raise (SystemExit msg)) else (printed ++ [msg], Ok None).

(** The function from [def _get] on, for the mapping [data]: the lines
    printed to stderr and the result, [Ok None] for a skipped descriptor. *)
Definition parse_mapping (path_name : string) (data : list (string * yval))
    (strict : bool) : list string * result (option service) :=
  let name := _get data "name" (YStr "") in
  let domain := _get data "domain" (YStr "") in
  let upstream_host := Py.or (_get data "upstream_host" (YStr "")) (YStr "127.0.0.1") in
  let upstream_port := _get data "upstream_port" (YStr "") in
  let working_dir := _get data "working_dir" (YStr "") in
  let user := Py.or (_get data "user" (YStr "")) (YStr "www-data") in
  let start_cmd := _get data "start_cmd" (YStr "") in
  let stop_cmd := Py.or (_get data "stop_cmd" (YStr "")) (YStr "/bin/true") in
  let health_path := Py.or (_get data "health_path" (YStr "")) (YStr "/health") in
  let static_root := _get data "static_root" (YStr "") in
  let migrate_cmd := _get data "migrate_cmd" (YStr "") in
  let allow_plain_http := _normalize_bool (_get data "allow_plain_http" (YStr "")) in
  let '(locations, warnings) :=
    parse_locations (_get data "locations" (YList [])) upstream_host upstream_port in
  match start_cmd_lower start_cmd with
  | Raise e => (warnings, Raise e)
  | Ok lowered =>
      let compose := is_compose lowered in
      let svc_type := if compose then "oneshot" else "simple" in
      let remain_after_exit := if compose then "yes" else "no" in
      let restart := if compose then "no" else "always" in
      let static_root := if in_texts static_root quoted_empty then YStr "" else static_root in
      let migrate_cmd := if in_texts migrate_cmd quoted_empty then YStr "" else migrate_cmd in
      let stop_cmd :=
        if in_texts stop_cmd (quoted_empty ++ [""]) then YStr "/bin/true" else stop_cmd in
      let missing :=
        missing_of (required name domain upstream_port start_cmd working_dir) in
      match missing with
      | _ :: _ =>
          skip strict warnings
            ("Skipping " +:+ path_name +:+ ": missing " +:+ Str.join ", " missing)
      | [] =>
          (warnings,
           Ok (Some {|
             NAME := name;
             DOMAIN := domain;
             UPSTREAM_HOST := upstream_host;
             UPSTREAM_PORT := Py.str upstream_port;
             WORKING_DIR := working_dir;
             USER := user;
             START_CMD := start_cmd;
             STOP_CMD := stop_cmd;
             TYPE := svc_type;
             REMAIN_AFTER_EXIT := remain_after_exit;
             RESTART := restart;
             HEALTH_PATH := health_path;
             STATIC_ROOT := Py.or static_root (YStr "");
             MIGRATE_CMD := Py.or migrate_cmd (YStr "");
             ALLOW_PLAIN_HTTP := allow_plain_http;
             LOCATIONS := locations |}))
      end
  end.

(** What one call of [parse_service] does, beside reading the file.
    [loaded] is the outcome of the [try] block: the text of the exception,
    or the value [yaml.safe_load] returned. *)
Definition parse_loaded (path_str path_name : string) (loaded : string + yval)
    (strict : bool) : list string * result (option service) :=
  match loaded with
  | inl exc => skip strict [] ("Failed to parse " +:+ path_str +:+ ": " +:+ exc)
  | inr loaded_val =>
      match Py.or loaded_val (YDict []) with
      | YDict data => parse_mapping path_name data strict
      | other =>
          skip strict []
            ("Expected mapping in " +:+ path_str +:+ ", got " +:+ type_name other)
      end
  end.

(** ** build_nginx_blocks *)

(** The three fragments: [root_directive], [location_root] and
    [fallback_location]. *)
Definition build_nginx_blocks (static_root host : yval) (port : string)
    : string * string * string :=
  if Py.truthy static_root then
    let root_directive :=
      Str.cat ["    root "; Py.str static_root; ";"; Str.nl; "    index index.html;"] in
    let location_root :=
      Str.cat ["        try_files $uri $uri/ @app;"; Str.nl;
               "        add_header Cache-Control "; Str.dq; "no-cache, no-store"; Str.dq; ";"] in
    let fallback_location :=
      Str.cat ["    location @app {"; Str.nl;
               "        proxy_pass http://"; Py.str host; ":"; port; ";"; Str.nl;
               "        proxy_set_header Host $host;"; Str.nl;
               "        proxy_set_header X-Real-IP $remote_addr;"; Str.nl;
               "        proxy_set_header X-Forwarded-For $proxy_add_x_forwarded_for;"; Str.nl;
               "        proxy_set_header X-Forwarded-Proto $scheme;"; Str.nl;
               "    }"; Str.nl] in
    (root_directive, location_root, fallback_location)
  else
    let root_directive := "" in
    let location_root :=
      Str.cat ["        proxy_pass http://"; Py.str host; ":"; port; ";"; Str.nl;
               "        proxy_set_header Host $host;"; Str.nl;
               "        proxy_set_header X-Real-IP $remote_addr;"; Str.nl;
               "        proxy_set_header X-Forwarded-For $proxy_add_x_forwarded_for;"; Str.nl;
               "        proxy_set_header X-Forwarded-Proto $scheme;"] in
    let fallback_location := "" in
    (root_directive, location_root, fallback_location).

(** ** render_custom_locations *)

(** The lines the loop appends for the text of [extra]. *)
Definition extra_lines (extra : string) : list string :=
  map (fun raw =>
         let raw := Str.rstrip raw in
         if Str.nonempty raw then "        " +:+ raw else "        ")
      (Str.splitlines extra).

(** The five lines added for a proxy target. *)
Definition proxy_lines (proxy_pass : string) : list string :=
  ["        proxy_pass " +:+ proxy_pass +:+ ";";
   "        proxy_set_header Host $host;";
   "        proxy_set_header X-Real-IP $remote_addr;";
   "        proxy_set_header X-Forwarded-For $proxy_add_x_forwarded_for;";
   "        proxy_set_header X-Forwarded-Proto $scheme;"].

(** [lines] at the end of one turn of the loop over the locations. *)
Definition location_lines (loc : rule) : list string :=
  ["    location " +:+ path loc +:+ " {"]
  ++ (if Str.nonempty (proxy_pass loc) then proxy_lines (proxy_pass loc) else [])
  ++ (if Str.nonempty (extra loc) then extra_lines (extra loc) else [])
  ++ ["    }"].

Definition location_block (loc : rule) : string :=
  Str.join Str.nl (location_lines loc).

Definition render_custom_locations (locations : list rule) : string :=
  match locations with
  | [] => ""
  | _ => Str.join (Str.nl +:+ Str.nl) (map location_block locations) +:+ Str.nl +:+ Str.nl
  end.

(** ** build_server_blocks *)

Section server_blocks.
Variables (service : service).
Variables (root_directive location_root fallback_location extra_locations : string).

Let domain : string := Py.str (DOMAIN service).
Let health : string := Py.str (HEALTH_PATH service).
Let allow_plain_http : bool := ALLOW_PLAIN_HTTP service.

Definition health_stub : list string :=
  ["    # Health endpoint"; Str.nl;
   "    location "; health; " {"; Str.nl;
   "        access_log off;"; Str.nl;
   "        return 200 "; Str.dq; "healthy\n"; Str.dq; ";"; Str.nl;
   "        add_header Content-Type text/plain;"; Str.nl;
   "    }"; Str.nl;
   "}"; Str.nl].

Definition acme_passthrough : list string :=
  ["server {"; Str.nl;
   "    listen 80;"; Str.nl;
   "    server_name "; domain; ";"; Str.nl; Str.nl;
   "    # ACME challenge"; Str.nl;
   "    location /.well-known/acme-challenge/ {"; Str.nl;
   "        root /var/www/certbot;"; Str.nl;
   "    }"; Str.nl; Str.nl].

(** The first alternative of [server_body]: the application served on
    port 80. *)
Definition plain_app_body : string :=
  Str.cat (acme_passthrough ++
    ["    # Main location"; Str.nl;
     "    location / {"; Str.nl;
     location_root; Str.nl;
     "    }"; Str.nl; Str.nl;
     fallback_location;
     extra_locations] ++ health_stub).

(** The second alternative: the challenge passthrough and a redirect. *)
Definition plain_redirect_body : string :=
  Str.cat (acme_passthrough ++
    ["    # Redirect HTTP to HTTPS"; Str.nl;
     "    return 301 https://$host$request_uri;"; Str.nl;
     "}"; Str.nl]).

Definition server_body (include_tls : bool) : string :=
  if allow_plain_http || negb include_tls then plain_app_body else plain_redirect_body.

Definition tls_body : string :=
  Str.cat (
    ["server {"; Str.nl;
     "    listen 443 ssl;"; Str.nl;
     "    listen [::]:443 ssl;"; Str.nl;
     "    server_name "; domain; ";"; Str.nl; Str.nl;
     "    # Certbot paths; adjust if you store certs elsewhere."; Str.nl;
     "    ssl_certificate /etc/letsencrypt/live/"; domain; "/fullchain.pem;"; Str.nl;
     "    ssl_certificate_key /etc/letsencrypt/live/"; domain; "/privkey.pem;"; Str.nl;
     "    include /etc/letsencrypt/options-ssl-nginx.conf;"; Str.nl; Str.nl;
     "    client_max_body_size 20m;"; Str.nl;
     "    add_header X-Frame-Options "; Str.dq; "SAMEORIGIN"; Str.dq; " always;"; Str.nl;
     "    add_header X-XSS-Protection "; Str.dq; "1; mode=block"; Str.dq; " always;"; Str.nl;
     "    add_header X-Content-Type-Options "; Str.dq; "nosniff"; Str.dq; " always;"; Str.nl;
     "    add_header Referrer-Policy "; Str.dq; "no-referrer-when-downgrade"; Str.dq;
       " always;"; Str.nl;
     "    add_header Strict-Transport-Security "; Str.dq;
       "max-age=31536000; includeSubDomains; preload"; Str.dq; " always;"; Str.nl; Str.nl;
     root_directive; Str.nl;
     "    # Main location: either proxies or falls back from static to proxy."; Str.nl;
     "    location / {"; Str.nl;
     location_root; Str.nl;
     "    }"; Str.nl; Str.nl;
     fallback_location;
     extra_locations] ++ health_stub).

(** [(http_block, https_block)] *)
Definition build_server_blocks : string * string :=
  let http_block := server_body false in
  let https_block := if negb allow_plain_http then tls_body else "" in
  (http_block, https_block).

End server_blocks.

(** ** render_template, on the text *)

Definition token (key : string) : string := "__" +:+ key +:+ "__".

(** The loop over [replacements.items()], in the order of the dictionary;
    [str.replace] refuses a replacement that is not text. *)
Fixpoint substitute (content : string) (replacements : list (string * yval))
    : result string :=
  match replacements with
  | [] => Ok content
  | (key, YStr val) :: rest => substitute (Str.replace (token key) val content) rest
  | (_, _) :: _ => Raise TypeError
  end.

(** ** The file system, the two output streams, and the monad *)

(** Files are addressed by the text of their path; directories and links
    are not modelled, so [mkdir(parents=True, exist_ok=True)] has nothing
    to do. *)
Record state : Type := State {
  fs : gmap string string;
  stdout : list string;
  stderr : list string;
}.

Definition M (A : Type) : Type := state → result A * state.

Definition raise {A} (e : exn) : M A := λ st, (Raise e, st).

#[global] Instance M_ret : MRet M := λ A a st, (Ok a, st).

#[global] Instance M_bind : MBind M := λ A B k m st,
  match m st with
  | (Ok a, st') => k a st'
  | (Raise e, st') => (Raise e, st')
  end.

Definition prints (lines : list string) : M unit :=
  λ st, (Ok tt, {| fs := fs st; stdout := stdout st ++ lines; stderr := stderr st |}).

Definition print (line : string) : M unit := prints [line].

(** The files as they are now; nothing is written between the queries of
    [path.exists()] in [load_services], so one reading serves them all. *)
Definition get_files : M (gmap string string) := λ st, (Ok (fs st), st).

(** [path.read_text(encoding="utf-8")]: the file is opened in text mode,
    so the text returned is the stored one with its line breaks read as
    line feeds. *)
Definition read_text (path : string) : M string :=
  λ st, match fs st !! path with
        | Some content => (Ok (Str.universal_newlines content), st)
        | None => (Raise FileNotFoundError, st)
        end.

(** [path.write_text(content, encoding="utf-8")] on a POSIX host, where a
    line feed is written as it is. *)
Definition write_text (path content : string) : M unit :=
  λ st, (Ok tt, {| fs := <[path := content]> (fs st); stdout := stdout st; stderr := stderr st |}).

(** [a / b] as the text of the joined path: an absolute [b] replaces [a].
    This is the path pathlib makes, and the key of the file in the store,
    when [b] is a single component, that is, holds no slash: the
    directory names of the script, and [<name>.yml], [<name>.conf] and
    [<name>.service] for a name without a slash.  For a [b] with a slash
    pathlib drops the components [.] and the empty ones, and the system
    resolves [..]; the statements that depend on which file such a path
    names are restricted to names without a slash. *)
Definition pjoin (a b : string) : string :=
  if Str.startswith "/" b then b else a +:+ "/" +:+ b.

Section script.
(** [ROOT] is where the repository is installed; [safe_load] is what
    [yaml.safe_load] makes of a file, given the text stored in it: the
    value, or the text of the exception it raises. *)
Variable ROOT : string.
Variable safe_load : string → string + yval.

Definition SERVICES_DIR : string := pjoin ROOT "services".
Definition TEMPLATE_DIR : string := pjoin ROOT "templates".
Definition OUT_DIR : string := pjoin ROOT "generated".
Definition NGINX_OUT : string := pjoin OUT_DIR "nginx".
Definition SYSTEMD_OUT : string := pjoin OUT_DIR "systemd".

(** *** load_services *)

(** The files [SERVICES_DIR.glob] finds for the pattern of the script:
    directly in the directory, with a name that ends in [.yml]. *)
Definition is_service_file (p : string) : bool :=
  let dir := SERVICES_DIR +:+ "/" in
  let name := Str.drop (String.length dir) p in
  Str.startswith dir p && negb (Str.contains "/" name) && Str.endswith ".yml" name.

Definition glob_services (files : gmap string string) : list string :=
  filter (λ p, is_service_file p = true) (map fst (map_to_list files)).

(** The first loop: [uniq], with [seen] the names met so far. *)
Fixpoint uniq_loop (seen : gset string) (selected : list string) : list string :=
  match selected with
  | [] => []
  | name :: rest =>
      if negb (Str.nonempty name) then uniq_loop seen rest
      else if decide (name ∈ seen) then uniq_loop seen rest
      else name :: uniq_loop ({[name]} ∪ seen) rest
  end.

(** The second loop: [(missing, services)]. *)
Fixpoint resolve_loop (files : gmap string string) (uniq : list string)
    : list string * list string :=
  match uniq with
  | [] => ([], [])
  | name :: rest =>
      let '(missing, services) := resolve_loop files rest in
      let path := pjoin SERVICES_DIR (name +:+ ".yml") in
      if bool_decide (is_Some (files !! path))
      then (missing, path :: services)
      else (name :: missing, services)
  end.

(** [selected] is [args.service]: [None] without the option, otherwise
    the names given. *)
Definition load_services (selected : option (list string)) : M (list string) :=
  match selected with
  | None | Some [] =>
      files ← get_files;
      let services := merge_sort String.le (glob_services files) in
      match services with
      | [] => print ("No service files found in " +:+ SERVICES_DIR);; mret []
      | _ => mret services
      end
  | Some selected =>
      let uniq := uniq_loop ∅ selected in
      files ← get_files;
      let '(missing, services) := resolve_loop files uniq in
      match missing with
      | _ :: _ =>
          raise (SystemExit ("Service file(s) not found in " +:+ SERVICES_DIR +:+ ": "
                             +:+ Str.join ", " missing))
      | [] => mret services
      end
  end.

(** *** parse_service *)

Definition parse_service (path : string) (strict : bool) : M (option service) :=
  λ st,
    let loaded :=
      match fs st !! path with
      | Some text => safe_load text
      | None => inl ("[Errno 2] No such file or directory: " +:+ Py.repr_str path)
      end in
    let '(printed, r) := parse_loaded path (Str.basename path) loaded strict in
    (r, {| fs := fs st; stdout := stdout st; stderr := stderr st ++ printed |}).

(** *** render_template and render_service *)

Definition render_template (template_path dest_path : string)
    (replacements : list (string * yval)) : M unit :=
  content ← read_text template_path;
  match substitute content replacements with
  | Ok content => write_text dest_path content
  | Raise e => raise e
  end.

Definition nginx_replacements (service : service) : list (string * yval) :=
  let '(root_directive, location_root, fallback_location) :=
    build_nginx_blocks (STATIC_ROOT service) (UPSTREAM_HOST service) (UPSTREAM_PORT service) in
  let extra_locations := render_custom_locations (LOCATIONS service) in
  let '(http_block, https_block) :=
    build_server_blocks service root_directive location_root fallback_location
      extra_locations in
  [("HTTP_BLOCK", YStr http_block); ("HTTPS_BLOCK", YStr https_block)].

Definition systemd_replacements (service : service) : list (string * yval) :=
  [("NAME", NAME service);
   ("WORKING_DIR", WORKING_DIR service);
   ("USER", USER service);
   ("START_CMD", START_CMD service);
   ("STOP_CMD", STOP_CMD service);
   ("TYPE", YStr (TYPE service));
   ("REMAIN_AFTER_EXIT", YStr (REMAIN_AFTER_EXIT service));
   ("RESTART", YStr (RESTART service))].

Definition nginx_conf (service : service) : string :=
  pjoin NGINX_OUT (Py.str (NAME service) +:+ ".conf").

Definition systemd_unit (service : service) : string :=
  pjoin SYSTEMD_OUT (Py.str (NAME service) +:+ ".service").

Definition render_service (service : service) : M unit :=
  render_template (pjoin TEMPLATE_DIR "nginx.conf.tmpl") (nginx_conf service)
    (nginx_replacements service);;
  render_template (pjoin TEMPLATE_DIR "systemd.service.tmpl") (systemd_unit service)
    (systemd_replacements service).

(** *** main *)

(** The loop of [main]; the result is [rendered]. *)
Fixpoint render_all (strict : bool) (svc_files : list string) : M (list yval) :=
  match svc_files with
  | [] => mret []
  | svc_file :: rest =>
      parsed ← parse_service svc_file strict;
      match parsed with
      | None => render_all strict rest
      | Some parsed =>
          render_service parsed;;
          print (Str.cat ["Rendered: "; NGINX_OUT; "/"; Py.str (NAME parsed); ".conf and ";
                          SYSTEMD_OUT; "/"; Py.str (NAME parsed); ".service"]);;
          rendered ← render_all strict rest;
          mret (NAME parsed :: rendered)
      end
  end.

Definition next_steps : list string :=
  [Str.nl +:+ "Next steps (manual on host):";
   "1) Copy nginx confs to /etc/nginx/sites-enabled/ and reload: nginx -t && systemctl reload nginx";
   "2) Copy systemd units to /etc/systemd/system/ and reload: systemctl daemon-reload";
   "3) Enable services: systemctl enable --now <service>"].

(** [bool(args.service)] *)
Definition strict_of (selected : option (list string)) : bool :=
  match selected with
  | None | Some [] => false
  | Some (_ :: _) => true
  end.

(** The value [main] returns is the exit status given to [sys.exit]. *)
Definition main (selected : option (list string)) : M Z :=
  let strict := strict_of selected in
  svc_files ← load_services selected;
  rendered ← render_all strict svc_files;
  match rendered with
  | [] => if strict then raise (SystemExit "No services rendered.") else mret 0
  | _ => prints next_steps;; mret 0
  end.

End script.

(** * Definitions used to state the properties *)

(** What the loop makes of one entry: a rule, or nothing. *)
Definition normalize_opt (default_proxy : string) (entry : yval) : option rule :=
  match entry with
  | YDict kvs =>
      let path := Py.get "path" kvs in
      if Py.truthy path then Some (normalize_entry kvs path default_proxy) else None
  | _ => None
  end.


(** The five required fields of a mapping as [parse_service] reads them. *)
Definition required_of (data : list (string * yval)) : list (string * yval) :=
  required (_get data "name" (YStr "")) (_get data "domain" (YStr ""))
    (_get data "upstream_port" (YStr "")) (_get data "start_cmd" (YStr ""))
    (_get data "working_dir" (YStr "")).

(** [(v or "").lower()] does not raise: [v] is text, or falsy. *)
Definition has_lower (v : yval) : bool :=
  match Py.or v (YStr "") with
  | YStr _ => true
  | _ => false
  end.

(** The reading under which a quoted-empty value of a required field
    would count as absent. *)
Definition absent_after_collapse (v : yval) : bool :=
  negb (Py.truthy v) || in_texts v quoted_empty.

Definition missing_after_collapse (data : list (string * yval)) : list string :=
  map fst (filter (λ kv, absent_after_collapse kv.2 = true) (required_of data)).

(** Names without repetition, each where it is first seen. *)
Fixpoint first_seen (names : list string) : list string :=
  match names with
  | [] => []
  | name :: rest => name :: filter (λ n, n ≠ name) (first_seen rest)
  end.

(** The text begins with a code point that is not white space. *)
Definition solid_head (s : string) : Prop :=
  match s with
  | "" => False
  | String c _ => Str.isspace c = false
  end.

(** A text made of white space only. *)
Definition blank (s : string) : Prop := Str.strip s = "".

(** Every replacement is a text. *)
Definition all_text (replacements : list (string * yval)) : Prop :=
  Forall (λ kv, ∃ val, kv.2 = YStr val) replacements.

(** The reading of the template contract as one pass over the template:
    at each place where the token of an entry begins, the entry's text is
    put out and the token passed over; nothing put out is read again. *)
Fixpoint single_pass_go (replacements : list (string * string)) (skip : nat)
    (s : string) : string :=
  match s with
  | "" => ""
  | String c s' =>
      match skip with
      | S k => single_pass_go replacements k s'
      | O =>
          match find (λ kv, Str.startswith (token kv.1) s) replacements with
          | Some (key, val) =>
              val +:+ single_pass_go replacements (String.length (token key) - 1) s'
          | None => String c (single_pass_go replacements O s')
          end
      end
  end.

Definition single_pass (content : string) (replacements : list (string * string)) : string :=
  single_pass_go replacements O content.

(** The token of [key] without its last underscore. *)
Definition token_open (key : string) : string := "__" +:+ key +:+ "_".

(** An exception that is not the script's own [SystemExit]. *)
Definition uncaught (e : exn) : Prop := ∀ msg, e ≠ SystemExit msg.

(** * Descriptors, files and states to evaluate the script on *)

Module Example.

Definition root : string := "/srv/orchestration".

(** The descriptor of the end-to-end scenario. *)
Definition api : list (string * yval) :=
  [("name", YStr "api"); ("domain", YStr "api.example.com"); ("upstream_port", YInt 8080);
   ("working_dir", YStr "/srv/api"); ("start_cmd", YStr "/usr/bin/api-server")].

Definition api_yml : string :=
  Str.cat ["name: api"; Str.nl; "domain: api.example.com"; Str.nl; "upstream_port: 8080"; Str.nl;
           "working_dir: /srv/api"; Str.nl; "start_cmd: /usr/bin/api-server"; Str.nl].

(** The same with a container start command. *)
Definition stack : list (string * yval) :=
  [("name", YStr "stack"); ("domain", YStr "api.example.com"); ("upstream_port", YInt 8080);
   ("working_dir", YStr "/srv/api"); ("start_cmd", YStr "docker compose -f compose.yml up")].

Definition stack_yml : string :=
  Str.cat ["name: stack"; Str.nl; "domain: api.example.com"; Str.nl; "upstream_port: 8080"; Str.nl;
           "working_dir: /srv/api"; Str.nl; "start_cmd: docker compose -f compose.yml up"; Str.nl].

(** A name that is the quoted-empty text, two double quotes. *)
Definition quoted : list (string * yval) :=
  [("name", YStr (Str.dq +:+ Str.dq)); ("domain", YStr "api.example.com");
   ("upstream_port", YInt 8080); ("working_dir", YStr "/srv/api");
   ("start_cmd", YStr "/usr/bin/api-server")].

Definition quoted_yml : string :=
  Str.cat ["name: "; Str.sq; Str.dq; Str.dq; Str.sq; Str.nl; "domain: api.example.com"; Str.nl;
           "upstream_port: 8080"; Str.nl; "working_dir: /srv/api"; Str.nl;
           "start_cmd: /usr/bin/api-server"; Str.nl].

(** No domain and no working directory. *)
Definition partial : list (string * yval) :=
  [("name", YStr "partial"); ("upstream_port", YInt 8080);
   ("start_cmd", YStr "/usr/bin/api-server")].

Definition partial_yml : string :=
  Str.cat ["name: partial"; Str.nl; "upstream_port: 8080"; Str.nl;
           "start_cmd: /usr/bin/api-server"; Str.nl].

(** Three entries of [locations]: proxying disabled with two lines of
    extra text, no path, and a target of one space. *)
Definition websocket : list (string * yval) :=
  [("path", YStr "/ws"); ("proxy_pass", YBool false);
   ("extra", YStr (Str.cat ["return 404;  "; Str.nl; Str.nl; "deny all;"; Str.nl]))].

Definition pathless : list (string * yval) := [("proxy_pass", YStr "http://10.0.0.1:9000")].

Definition spaced : list (string * yval) := [("path", YStr "/raw"); ("proxy_pass", YStr " ")].

Definition unset : list (string * yval) := [("path", YStr "/app"); ("proxy_pass", YStr "")].

Definition entries : list yval := [YDict websocket; YDict pathless; YDict spaced; YDict unset].

(** A descriptor with a static root and these locations. *)
Definition site : list (string * yval) :=
  [("name", YStr "site"); ("domain", YStr "www.example.com"); ("upstream_port", YInt 3000);
   ("working_dir", YStr "/srv/site"); ("start_cmd", YStr "/usr/bin/node server.js");
   ("static_root", YStr "/var/www/site"); ("locations", YList entries)].

(** The reading of the descriptor texts above; any other text is refused. *)
Definition yaml (text : string) : string + yval :=
  if decide (text = api_yml) then inr (YDict api)
  else if decide (text = stack_yml) then inr (YDict stack)
  else if decide (text = quoted_yml) then inr (YDict quoted)
  else if decide (text = partial_yml) then inr (YDict partial)
  else inl "could not determine a constructor".

Definition nginx_tmpl : string :=
  Str.cat ["__HTTP_BLOCK__"; Str.nl; "__HTTPS_BLOCK__"].

Definition systemd_tmpl : string :=
  Str.cat ["[Unit]"; Str.nl; "Description=__NAME__"; Str.nl; Str.nl;
           "[Service]"; Str.nl; "Type=__TYPE__"; Str.nl; "User=__USER__"; Str.nl;
           "WorkingDirectory=__WORKING_DIR__"; Str.nl; "ExecStart=__START_CMD__"; Str.nl;
           "ExecStop=__STOP_CMD__"; Str.nl; "RemainAfterExit=__REMAIN_AFTER_EXIT__"; Str.nl;
           "Restart=__RESTART__"; Str.nl].

Definition templates : gmap string string :=
  {[ "/srv/orchestration/templates/nginx.conf.tmpl" := nginx_tmpl;
     "/srv/orchestration/templates/systemd.service.tmpl" := systemd_tmpl ]}.

(** A store with the descriptors [api], [stack] and [quoted]. *)
Definition st0 : state :=
  {| fs := <["/srv/orchestration/services/api.yml" := api_yml]>
             (<["/srv/orchestration/services/stack.yml" := stack_yml]>
                (<["/srv/orchestration/services/quoted.yml" := quoted_yml]> templates));
     stdout := []; stderr := [] |}.

(** A store whose only descriptor is [partial]. *)
Definition st1 : state :=
  {| fs := <["/srv/orchestration/services/partial.yml" := partial_yml]> templates;
     stdout := []; stderr := [] |}.

(** The record [parse_service] makes of a mapping; the record of [partial],
    which has none, stands for a mapping without one. *)
Definition record_of (data : list (string * yval)) : service :=
  match parse_mapping "" data false with
  | (_, Ok (Some s)) => s
  | _ =>
      {| NAME := YNull; DOMAIN := YNull; UPSTREAM_HOST := YNull; UPSTREAM_PORT := "";
         WORKING_DIR := YNull; USER := YNull; START_CMD := YNull; STOP_CMD := YNull;
         TYPE := ""; REMAIN_AFTER_EXIT := ""; RESTART := ""; HEALTH_PATH := YNull;
         STATIC_ROOT := YNull; MIGRATE_CMD := YNull; ALLOW_PLAIN_HTTP := false;
         LOCATIONS := [] |}
  end.

End Example.

(** * Further definitions used to state properties of render.py *)

(** The flag [strip_prefix] as the loop of [parse_locations] computes it
    from an entry: a text counts when it is one of the four words, any
    other value by its truth. *)
Definition strip_prefix_of (entry : list (string * yval)) : bool :=
  match Py.get "strip_prefix" entry with
  | YStr s => is_true_word s
  | v => Py.truthy v
  end.

(** [isinstance(v, str)] *)
Definition is_text (v : yval) : bool :=
  match v with
  | YStr _ => true
  | _ => false
  end.

(** The line [main] prints for a rendered descriptor: the two directories
    and the name are formatted into the text, not joined as paths. *)
Definition rendered_line (ROOT : string) (name : yval) : string :=
  Str.cat ["Rendered: "; NGINX_OUT ROOT; "/"; Py.str name; ".conf and ";
           SYSTEMD_OUT ROOT; "/"; Py.str name; ".service"].

(** A start command that invokes the container tooling: it holds, in any
    letter case, the words [docker compose] or [docker-compose]. *)
Definition invokes_compose (cmd : string) : Prop :=
  ∃ before word after,
    cmd = before +:+ word +:+ after
    ∧ (Str.lower word = "docker compose" ∨ Str.lower word = "docker-compose").

(** The file [<name>.yml] directly in the services directory: what a
    selected name without a slash stands for. *)
Definition descriptor_file (ROOT : string) (name : string) : string :=
  SERVICES_DIR ROOT +:+ "/" +:+ name +:+ ".yml".

(** The two files of a descriptor, by its name. *)
Definition nginx_conf_path (ROOT : string) (name : yval) : string :=
  pjoin (NGINX_OUT ROOT) (Py.str name +:+ ".conf").

Definition systemd_unit_path (ROOT : string) (name : yval) : string :=
  pjoin (SYSTEMD_OUT ROOT) (Py.str name +:+ ".service").

(** How a call that skips a descriptor with [msg] ends: the strict call
    raises, the lenient one prints to stderr and returns [None]. *)
Definition skipped (strict : bool) (msg : string) (st : state)
    (run : result (option service) * state) : Prop :=
  if strict then run = (Raise (SystemExit msg), st)
  else run = (Ok None, {| fs := fs st; stdout := stdout st; stderr := stderr st ++ [msg] |}).

Module Example2.

(** A descriptor whose name YAML reads as a number. *)
Definition numbered : list (string * yval) :=
  [("name", YInt 123); ("domain", YStr "n.example.com"); ("upstream_port", YInt 8080);
   ("working_dir", YStr "/srv/n"); ("start_cmd", YStr "/usr/bin/n")].

(** An entry that strips the prefix, with a target given and without. *)
Definition stripped : list (string * yval) :=
  [("path", YStr " /v1/ "); ("proxy_pass", YStr "http://10.0.0.2:7000");
   ("strip_prefix", YStr "Yes"); ("extra", YStr (Str.cat ["gzip on;"; Str.nl; Str.nl]))].

(** A second entry, with a path only. *)
Definition bare : list (string * yval) := [("path", YStr "/api")].

(** An entry whose proxy target is null, with the prefix to strip. *)
Definition defaulted : list (string * yval) :=
  [("path", YStr "/v2"); ("proxy_pass", YNull); ("strip_prefix", YBool true)].

(** A descriptor that uses the optional fields: a stop command and a
    static root that are quoted-empty texts, the number 1 for
    [allow_plain_http], a health path left empty, and two locations. *)
Definition shop : list (string * yval) :=
  [("name", YStr "shop"); ("domain", YStr "shop.example.com"); ("upstream_port", YInt 9000);
   ("working_dir", YStr "/srv/shop"); ("start_cmd", YStr "/usr/bin/shop");
   ("user", YStr "shop"); ("stop_cmd", YStr (Str.dq +:+ Str.dq));
   ("static_root", YStr (Str.sq +:+ Str.sq)); ("allow_plain_http", YInt 1);
   ("health_path", YNull); ("locations", YList [YDict stripped; YDict bare])].

Definition shop_yml : string :=
  Str.cat ["name: shop"; Str.nl; "domain: shop.example.com"; Str.nl; "upstream_port: 9000"; Str.nl;
           "working_dir: /srv/shop"; Str.nl; "start_cmd: /usr/bin/shop"; Str.nl;
           "user: shop"; Str.nl;
           "stop_cmd: "; Str.sq; Str.dq; Str.dq; Str.sq; Str.nl;
           "static_root: "; Str.dq; Str.sq; Str.sq; Str.dq; Str.nl;
           "allow_plain_http: 1"; Str.nl;
           "health_path:"; Str.nl;
           "locations:"; Str.nl;
           "  - path: "; Str.dq; " /v1/ "; Str.dq; Str.nl;
           "    proxy_pass: http://10.0.0.2:7000"; Str.nl;
           "    strip_prefix: "; Str.dq; "Yes"; Str.dq; Str.nl;
           "    extra: "; Str.dq; "gzip on;"; Str.bs; "n"; Str.bs; "n"; Str.dq; Str.nl;
           "  - path: /api"; Str.nl].

(** The reading of [shop_yml], and otherwise that of the first examples. *)
Definition yaml (text : string) : string + yval :=
  if decide (text = shop_yml) then inr (YDict shop) else Example.yaml text.

(** The first store with the descriptor [shop] added. *)
Definition st2 : state :=
  {| fs := <["/srv/orchestration/services/shop.yml" := shop_yml]> (fs Example.st0);
     stdout := []; stderr := [] |}.

End Example2.

(** * The deployment scripts: deploy.py, cert_ensure.py, one_click.py and
      sync_and_deploy.py

    These scripts read the descriptors line by line instead of loading
    them as YAML, and act on the host through [subprocess.run]; what a
    process does is outside the scripts, so it is a parameter here. *)

Module Text.

(** The text before the first [sep] and the text after it. *)
Fixpoint split_at (sep : ascii) (s : string) : option (string * string) :=
  match s with
  | "" => None
  | String c s' =>
      if decide (c = sep) then Some ("", s')
      else match split_at sep s' with
           | Some (before, after) => Some (String c before, after)
           | None => None
           end
  end.

(** [s.split(sep, 1)] for a separator of one code point: two parts when
    the separator occurs, and otherwise the text alone. *)
Definition split1 (sep : ascii) (s : string) : list string :=
  match split_at sep s with
  | Some (before, after) => [before; after]
  | None => [s]
  end.

End Text.

Module Proc.

(** The first argument of [subprocess.run]: a text run by the shell, or a
    list of arguments. *)
Inductive command : Type :=
  | Shell (line : string)
  | Argv (args : list string).

(** One call of [subprocess.run]: the command and the text given to it as
    input. *)
Record process : Type := Process {
  command_of : command;
  input_of : option string;
}.

(** How a call ends: the process exits with a return code, or it cannot be
    started and [subprocess.run] raises an [OSError]. *)
Inductive started : Type :=
  | Exited (returncode : Z)
  | NotStarted (reason : string).

(** The exceptions these scripts end with. *)
Inductive error : Type :=
  | FileNotFoundError (msg : string)
  | ValueError (msg : string)
  | CalledProcessError (returncode : Z) (cmd : command)
  | OSError (msg : string).

Inductive outcome (A : Type) : Type :=
  | Return (a : A)
  | Raise (e : error).
Arguments Return {A} a.
Arguments Raise {A} e.

(** The files, the two output streams, and the processes run so far, in
    order.  What a process changes on the host is not modelled; the
    scripts modelled with this state read their files before they run
    the first process. *)
Record world : Type := World {
  files : gmap string string;
  stdout : list string;
  stderr : list string;
  runs : list process;
}.

Definition M (A : Type) : Type := world → outcome A * world.

Definition raise {A} (e : error) : M A := λ w, (Raise e, w).

#[global] Instance M_ret : MRet M := λ A a w, (Return a, w).

#[global] Instance M_bind : MBind M := λ A B k m w,
  match m w with
  | (Return a, w') => k a w'
  | (Raise e, w') => (Raise e, w')
  end.

Definition print (line : string) : M unit :=
  λ w, (Return tt, {| files := files w; stdout := stdout w ++ [line];
                      stderr := stderr w; runs := runs w |}).

Definition eprint (line : string) : M unit :=
  λ w, (Return tt, {| files := files w; stdout := stdout w;
                      stderr := stderr w ++ [line]; runs := runs w |}).

Definition get_files : M (gmap string string) := λ w, (Return (files w), w).

(** [path.read_text()]; the message is that of the operating system.
    The text is given as it is stored: the scripts split it at once with
    [splitlines], which gives the same lines for the stored text as for
    the text read in text mode. *)
Definition read_text (path : string) : M string :=
  λ w, match files w !! path with
       | Some content => (Return content, w)
       | None =>
           (Raise (FileNotFoundError
                     ("[Errno 2] No such file or directory: " +:+ Py.repr_str path)), w)
       end.

Section run.
(** What happens to a process on the host, given the processes run before
    it. *)
Variable spawn : list process → process → started.

(** [run(cmd, check=..., input_text=...)] of the scripts: the return code,
    unless [check] is set and the code is not 0. *)
Definition run (cmd : command) (check : bool) (input_text : option string) : M Z :=
  λ w,
    let p := {| command_of := cmd; input_of := input_text |} in
    match spawn (runs w) p with
    | NotStarted reason => (Raise (OSError reason), w)
    | Exited returncode =>
        let w' := {| files := files w; stdout := stdout w; stderr := stderr w;
                     runs := runs w ++ [p] |} in
        if check && negb (returncode =? 0)
        then (Raise (CalledProcessError returncode cmd), w')
        else (Return returncode, w')
    end.

End run.

(** The loop that both [deploy.py] and [sync_and_deploy.py] use to read a
    descriptor: every line that, stripped, is not empty, does not begin
    with [#] and holds a colon sets the key before the first colon to the
    text after it, both stripped. *)
Fixpoint read_lines (data : gmap string string) (lines : list string)
    : outcome (gmap string string) :=
  match lines with
  | [] => Return data
  | raw :: rest =>
      let line := Str.strip raw in
      if negb (Str.nonempty line) || Str.startswith "#" line || negb (Str.contains ":" line)
      then read_lines data rest
      else
        match Text.split1 ":" line with
        | [key; val] => read_lines (<[Str.strip key := Str.strip val]> data) rest
        | _ => Raise (ValueError "not enough values to unpack (expected 2, got 1)")
        end
  end.

(** [data.get(key, default)] with the empty text as default. *)
Definition get (data : gmap string string) (key : string) : string :=
  default "" (data !! key).

(** [val in (..., ...)] for the two quoted-empty texts. *)
Definition is_quoted_empty (val : string) : bool := bool_decide (val ∈ quoted_empty).

End Proc.

(** ** deploy.py *)

Module Deploy.
Import Proc.

(** The dictionary [parse_service] returns. *)
Record service : Type := Service {
  domain : string;
  migrate_cmd : string;
  health_path : string;
}.

Section script.
Variable ROOT : string.
Variable spawn : list process → process → started.

Definition SERVICES_DIR : string := pjoin ROOT "services".

Definition parse_service (service_name : string) : M service :=
  let svc_file := pjoin SERVICES_DIR (service_name +:+ ".yml") in
  present ← get_files;
  if negb (bool_decide (is_Some (present !! svc_file)))
  then raise (FileNotFoundError ("Service file not found: " +:+ svc_file))
  else
    text ← read_text svc_file;
    match read_lines ∅ (Str.splitlines text) with
    | Raise e => raise e
    | Return data =>
        let domain := get data "domain" in
        let migrate_cmd := get data "migrate_cmd" in
        let health_path := if Str.nonempty (get data "health_path")
                           then get data "health_path" else "/health" in
        let migrate_cmd := if is_quoted_empty migrate_cmd then "" else migrate_cmd in
        if negb (Str.nonempty domain)
        then raise (ValueError (Str.cat ["Service "; service_name; " missing "; Str.sq;
                                         "domain"; Str.sq]))
        else mret {| domain := domain; migrate_cmd := migrate_cmd;
                     health_path := health_path |}
    end.

(** The optional first step of [main]. *)
Definition migrate (service_name : string) (svc : service) : M unit :=
  if Str.nonempty (migrate_cmd svc)
  then print (Str.cat ["Running migrations for "; service_name; " ..."]);;
       run spawn (Shell (migrate_cmd svc)) true None;;
       mret tt
  else mret tt.

(** [main], with [sys.argv] as its argument. *)
Definition main (argv : list string) : M Z :=
  match argv with
  | [_; service_name] =>
      svc ← parse_service service_name;
      migrate service_name svc;;
      print "Reloading systemd manager ...";;
      run spawn (Argv ["systemctl"; "daemon-reload"]) true None;;
      print (Str.cat ["Restarting systemd unit "; service_name; " ..."]);;
      run spawn (Argv ["systemctl"; "restart"; service_name]) true None;;
      let url := Str.cat ["https://"; domain svc; health_path svc] in
      print (Str.cat ["Checking health at "; url; " ..."]);;
      run spawn (Argv ["curl"; "-fsS"; url]) true None;;
      print "";;
      print ("Deploy complete for " +:+ service_name);;
      mret 0
  | _ => print "Usage: deploy.py <service-name>";; mret 1
  end.

End script.
End Deploy.

(** ** cert_ensure.py *)

Module CertEnsure.
Import Proc.

Section script.
Variable spawn : list process → process → started.

Definition main (argv : list string) : M Z :=
  match argv with
  | [_; domain; email] =>
      print (Str.cat ["Requesting/renewing cert for "; domain; " ..."]);;
      run spawn (Argv ["certbot"; "--nginx"; "-d"; domain; "-m"; email; "--agree-tos";
                       "--redirect"; "--non-interactive"]) true None;;
      print "Testing nginx config and reloading...";;
      run spawn (Argv ["nginx"; "-t"]) true None;;
      run spawn (Argv ["systemctl"; "reload"; "nginx"]) true None;;
      print ("Cert check done for " +:+ domain);;
      mret 0
  | _ => print "Usage: cert_ensure.py <domain> <email>";; mret 1
  end.

End script.
End CertEnsure.

(** ** one_click.py *)

Module OneClick.
Import Proc.

Section script.
Variable ROOT : string.

Definition GENERATED : string := pjoin ROOT "generated".

(** The two loops are those of [load_services] in [render.py], on the
    same services directory; only the exception differs, and nothing is
    printed when no file is found. *)
Definition iter_service_files (selected : option (list string))
    (present : gmap string string) : outcome (list string) :=
  match selected with
  | None | Some [] => Return (merge_sort String.le (glob_services ROOT present))
  | Some selected =>
      let uniq := uniq_loop ∅ selected in
      let '(missing, paths) := resolve_loop ROOT present uniq in
      match missing with
      | _ :: _ =>
          Raise (FileNotFoundError
                   ("Service file(s) not found in " +:+ SERVICES_DIR ROOT +:+ ": "
                    +:+ Str.join ", " missing))
      | [] => Return paths
      end
  end.

(** The inner loop of [parse_domains] over the lines of one file: it
    stops at the first line that, stripped, begins with [domain:], and
    gives its value unless that is empty. *)
Fixpoint first_domain (lines : list string) : outcome (option string) :=
  match lines with
  | [] => Return None
  | raw :: rest =>
      let line := Str.strip raw in
      if negb (Str.startswith "domain:" line) then first_domain rest
      else
        match Text.split1 ":" line with
        | [_; val] =>
            let d := Str.strip val in
            Return (if Str.nonempty d then Some d else None)
        | _ => Raise (ValueError "not enough values to unpack (expected 2, got 1)")
        end
  end.

(** The outer loop, over the files. *)
Fixpoint domains_of (present : gmap string string) (svc_files : list string)
    : outcome (list string) :=
  match svc_files with
  | [] => Return []
  | svc_file :: rest =>
      match present !! svc_file with
      | None =>
          Raise (FileNotFoundError
                   ("[Errno 2] No such file or directory: " +:+ Py.repr_str svc_file))
      | Some text =>
          match first_domain (Str.splitlines text) with
          | Raise e => Raise e
          | Return found =>
              match domains_of present rest with
              | Raise e => Raise e
              | Return domains => Return (option_list found ++ domains)
              end
          end
      end
  end.

Definition parse_domains (selected : option (list string))
    (present : gmap string string) : outcome (list string) :=
  match iter_service_files selected present with
  | Raise e => Raise e
  | Return svc_files => domains_of present svc_files
  end.

(** The part of [main] that, for an explicit selection, names the
    generated files to copy and checks that each is there. *)
Definition nginx_files (uniq : list string) : list string :=
  map (λ name, pjoin (pjoin GENERATED "nginx") (name +:+ ".conf")) uniq.

Definition systemd_files (uniq : list string) : list string :=
  map (λ name, pjoin (pjoin GENERATED "systemd") (name +:+ ".service")) uniq.

Fixpoint check_rendered (present : gmap string string) (paths : list string) : outcome unit :=
  match paths with
  | [] => Return tt
  | p :: rest =>
      if negb (bool_decide (is_Some (present !! p)))
      then Raise (FileNotFoundError ("Rendered file missing: " +:+ p))
      else check_rendered present rest
  end.

Definition selected_files (service : list string) (present : gmap string string)
    : outcome (list string * list string) :=
  let uniq := uniq_loop ∅ service in
  match check_rendered present (nginx_files uniq ++ systemd_files uniq) with
  | Raise e => Raise e
  | Return _ => Return (nginx_files uniq, systemd_files uniq)
  end.

End script.
End OneClick.

(** ** sync_and_deploy.py: reading a descriptor *)

Module SyncAndDeploy.
Import Proc.

(** The dictionary [parse_service] returns. *)
Record service : Type := Service {
  name : string;
  domain : string;
  repo_url : string;
  repo_ref : string;
  working_dir : string;
  compose_file : string;
  build_cmd : string;
  start_cmd : string;
  migrate_cmd : string;
  health_path : string;
}.

(** [_clean]: a value read from a line is always a text. *)
Definition _clean (val : string) : string :=
  if is_quoted_empty val then "" else val.

(** [val or default] on texts. *)
Definition or_default (val default : string) : string :=
  if Str.nonempty val then val else default.

Definition parse_service (path : string) : M (option service) :=
  text ← read_text path;
  match read_lines ∅ (Str.splitlines text) with
  | Raise e => raise e
  | Return data =>
      let name := get data "name" in
      let domain := get data "domain" in
      let repo_url := get data "repo_url" in
      let repo_ref := or_default (get data "repo_ref") "main" in
      let working_dir := get data "working_dir" in
      let compose_file := _clean (get data "compose_file") in
      let build_cmd := _clean (get data "build_cmd") in
      let start_cmd := _clean (get data "start_cmd") in
      let migrate_cmd := _clean (get data "migrate_cmd") in
      let health_path := or_default (get data "health_path") "/health" in
      if negb (Str.nonempty name) || negb (Str.nonempty repo_url)
         || negb (Str.nonempty working_dir)
      then mret None
      else mret (Some {| name := name; domain := domain; repo_url := repo_url;
                         repo_ref := repo_ref; working_dir := working_dir;
                         compose_file := compose_file; build_cmd := build_cmd;
                         start_cmd := start_cmd; migrate_cmd := migrate_cmd;
                         health_path := health_path |})
  end.

End SyncAndDeploy.

(** * Definitions used to state the properties of the deployment scripts *)

(** Processes run one after the other, each checked, until one does not
    exit with 0 or cannot be started: the processes that ran, and the
    exception the sequence ends with, if any. *)
Fixpoint run_plan (spawn : list Proc.process → Proc.process → Proc.started)
    (history plan : list Proc.process) : list Proc.process * option Proc.error :=
  match plan with
  | [] => ([], None)
  | p :: rest =>
      match spawn history p with
      | Proc.NotStarted reason => ([], Some (Proc.OSError reason))
      | Proc.Exited returncode =>
          if returncode =? 0
          then let '(ran, failure) := run_plan spawn (history ++ [p]) rest in
               (p :: ran, failure)
          else ([p], Some (Proc.CalledProcessError returncode (Proc.command_of p)))
      end
  end.

(** A process given a list of arguments and no input. *)
Definition argv_process (args : list string) : Proc.process :=
  {| Proc.command_of := Proc.Argv args; Proc.input_of := None |}.


(** What a line of a descriptor defines for the line-by-line readers: the
    key and the value, or nothing when the line is passed over. *)
Definition entry_of (raw : string) : option (string * string) :=
  let line := Str.strip raw in
  if negb (Str.nonempty line) || Str.startswith "#" line then None
  else
    match Text.split_at ":" line with
    | Some (key, val) => Some (Str.strip key, Str.strip val)
    | None => None
    end.

(** The value of the last entry for [key]. *)
Definition last_value (key : string) (entries : list (string * string)) : option string :=
  snd <$> last (filter (λ kv, kv.1 = key) entries).

(** A text without a line break. *)
Fixpoint one_line (s : string) : bool :=
  match s with
  | "" => true
  | String c s' => negb (Str.isbreak c) && one_line s'
  end.

(** A text without white space at either end. *)
Definition trimmed (s : string) : bool :=
  bool_decide (Str.lstrip s = s) && bool_decide (Str.rstrip s = s).

(** A key that a descriptor line can carry: one line, trimmed, not empty,
    without a colon, and not beginning with [#]. *)
Definition plain_key (key : string) : bool :=
  one_line key && trimmed key && Str.nonempty key
  && negb (Str.contains ":" key) && negb (Str.startswith "#" key).

Definition plain_value (val : string) : bool := one_line val && trimmed val.

(** A descriptor written out, one [key: value] line per entry. *)
Definition write_lines (entries : list (string * string)) : string :=
  Str.cat (map (λ kv, kv.1 +:+ ": " +:+ kv.2 +:+ Str.nl) entries).

(** ** The library functions sync_and_deploy.py calls *)

Module Shlex.

(** The code points [shlex.quote] leaves bare: ASCII letters and digits,
    the underscore, and [@%+=:,./-]. *)
Definition safe (c : ascii) : bool :=
  let n := nat_of_ascii c in
  ((48 <=? n)%nat && (n <=? 57)%nat) || ((65 <=? n)%nat && (n <=? 90)%nat)
  || ((97 <=? n)%nat && (n <=? 122)%nat)
  || bool_decide (c ∈ ["_"; "@"; "%"; "+"; "="; ":"; ","; "."; "/"; "-"]%char).

Fixpoint all_safe (s : string) : bool :=
  match s with
  | "" => true
  | String c s' => safe c && all_safe s'
  end.

(** [shlex.quote(s)]: two apostrophes for the empty text, the text
    itself when it holds safe code points only, and otherwise the text
    between apostrophes, each apostrophe of it written as an apostrophe
    between double quotes outside them. *)
Definition quote (s : string) : string :=
  if negb (Str.nonempty s) then Str.sq +:+ Str.sq
  else if all_safe s then s
  else Str.sq +:+ Str.replace Str.sq (Str.cat [Str.sq; Str.dq; Str.sq; Str.dq; Str.sq]) s
       +:+ Str.sq.

End Shlex.

Module PurePath.

(** [s.split(sep)] for a separator of one code point; [cur] is the part
    being read, in reverse. *)
Fixpoint split_go (sep : ascii) (cur s : string) : list string :=
  match s with
  | "" => [String.rev cur]
  | String c s' =>
      if decide (c = sep) then String.rev cur :: split_go sep "" s'
      else split_go sep (String c cur) s'
  end.

(** The components of a POSIX path below its root: the parts between
    slashes, without the empty ones and the single dots. *)
Definition parts (s : string) : list string :=
  filter (λ p, p ≠ "" ∧ p ≠ ".") (split_go "/" "" s).

(** [Path(s).parent.name]: the component before the last one, or the
    empty text when there is none. *)
Definition parent_name (s : string) : string :=
  match reverse (parts s) with
  | _ :: p :: _ => p
  | _ => ""
  end.

(** [Path(s).stem] for a text [s] without slash: the name up to its
    last dot, when that dot is neither its first nor its last code
    point. *)
Definition stem (name : string) : string :=
  match Text.split_at "." (String.rev name) with
  | Some (rev_suffix, rev_rest) =>
      if Str.nonempty rev_suffix && Str.nonempty rev_rest then String.rev rev_rest else name
  | None => name
  end.

End PurePath.

(** ** sync_and_deploy.py: the remote script and main *)

Module Sync.
Import Proc SyncAndDeploy.

(** The lines of the script up to the optional steps. *)
Definition script_head (service_name wd repo ref : string) : list string :=
  [
    "set -euo pipefail";
    "set -x";
    Str.cat ["trap 'echo "; Str.dq; "[svc] failed at: $BASH_COMMAND"; Str.dq; " >&2' ERR"];
    Str.cat ["SERVICE_NAME="; service_name];
    Str.cat ["service_unit="; Str.dq; "/etc/systemd/system/${SERVICE_NAME}.service"; Str.dq];
    Str.cat ["echo "; Str.dq; "[svc] syncing $SERVICE_NAME"; Str.dq];
    Str.cat ["need() { command -v "; Str.dq; "$1"; Str.dq; " >/dev/null 2>&1; }"];
    "ensure_dir() {";
    Str.cat ["  local dir="; Str.dq; "$1"; Str.dq];
    Str.cat ["  if [ ! -d "; Str.dq; "$dir"; Str.dq; " ]; then"];
    Str.cat ["    if ! mkdir -p "; Str.dq; "$dir"; Str.dq; " 2>/dev/null; then"];
    "      if command -v sudo >/dev/null 2>&1; then";
    Str.cat ["        sudo mkdir -p "; Str.dq; "$dir"; Str.dq];
    "      else";
    Str.cat ["        echo "; Str.dq; "Cannot create directory $dir; missing permissions (tried without sudo)."; Str.dq; " >&2"];
    "        exit 1";
    "      fi";
    "    fi";
    "  fi";
    Str.cat ["  if [ ! -w "; Str.dq; "$dir"; Str.dq; " ] && command -v sudo >/dev/null 2>&1; then"];
    Str.cat ["    sudo chown "; Str.dq; "$(id -u):$(id -g)"; Str.dq; " "; Str.dq; "$dir"; Str.dq; " || true"];
    "  fi";
    "}";
    "if ! need git || ! need docker; then";
    "  if need apt-get; then";
    "    sudo apt-get update -y";
    "    sudo apt-get install -y git docker.io docker-compose-plugin";
    "  else";
    Str.cat ["    echo "; Str.dq; "git/docker required on host; install manually."; Str.dq];
    "    exit 1";
    "  fi";
    "fi";
    Str.cat ["echo "; Str.dq; "[svc] ensuring working_dir "; wd; Str.dq];
    Str.cat ["ensure_dir "; wd];
    Str.cat ["if [ ! -d "; wd; " ] || [ ! -d "; wd; "/.git ]; then"];
    Str.cat ["  echo "; Str.dq; "[svc] cloning "; repo; " into "; wd; Str.dq];
    Str.cat ["  if ! git clone "; repo; " "; wd; "; then"];
    Str.cat ["    echo "; Str.dq; "[svc] git clone failed (repo="; repo; ", dir="; wd; ")"; Str.dq; " >&2"];
    "    exit 1";
    "  fi";
    "fi";
    Str.cat ["cd "; wd];
    "if [ ! -d .git ]; then";
    Str.cat ["  echo "; Str.dq; "[svc] clone missing (.git not found in working_dir)"; Str.dq; " >&2"];
    "  exit 1";
    "fi";
    "git fetch --all --prune";
    Str.cat ["git checkout "; ref];
    Str.cat ["git pull origin "; ref];
    Str.cat ["git reset --hard origin/"; ref; " || git reset --hard "; ref];
    "load_systemd_env_dropin() {";
    Str.cat ["  local svc="; Str.dq; "$1"; Str.dq];
    Str.cat ["  local drop="; Str.dq; "/etc/systemd/system/${svc}.service.d/env.conf"; Str.dq];
    Str.cat ["  [ -r "; Str.dq; "$drop"; Str.dq; " ] || return 0"];
    "  while IFS= read -r line; do";
    Str.cat ["    case "; Str.dq; "$line"; Str.dq; " in"];
    "      Environment=*)";
    Str.cat ["        kv="; Str.dq; "${line#Environment=}"; Str.dq];
    Str.cat ["        if [[ "; Str.dq; "$kv"; Str.dq; " == "; Str.bs; Str.dq; "*"; Str.bs; Str.dq; " ]]; then"];
    Str.cat ["          kv="; Str.dq; "${kv#"; Str.bs; Str.dq; "}"; Str.dq];
    Str.cat ["          kv="; Str.dq; "${kv%"; Str.bs; Str.dq; "}"; Str.dq];
    Str.cat ["          kv="; Str.dq; "${kv//"; Str.bs; Str.bs; Str.bs; Str.dq; "/"; Str.bs; Str.dq; "}"; Str.dq];
    Str.cat ["        elif [[ "; Str.dq; "$kv"; Str.dq; " == "; Str.bs; "'*"; Str.bs; "' ]]; then"];
    Str.cat ["          kv="; Str.dq; "${kv#"; Str.bs; "'}"; Str.dq];
    Str.cat ["          kv="; Str.dq; "${kv%"; Str.bs; "'}"; Str.dq];
    Str.cat ["          kv="; Str.dq; "${kv//"; Str.bs; Str.bs; Str.bs; "'/"; Str.bs; "'}"; Str.dq];
    "        fi";
    Str.cat ["        if [[ "; Str.dq; "$kv"; Str.dq; " == *=* ]]; then"];
    Str.cat ["          export "; Str.dq; "$kv"; Str.dq];
    "        fi";
    "        ;;";
    "    esac";
    Str.cat ["  done < "; Str.dq; "$drop"; Str.dq];
    "}";
    Str.cat ["load_systemd_env_dropin "; Str.dq; "$SERVICE_NAME"; Str.dq];
    "use_fallback=1"
  ].

(** The lines that restart the unit through systemd. *)
Definition script_restart : list string :=
  [
    Str.cat ["if [ -f "; Str.dq; "$service_unit"; Str.dq; " ] && command -v systemctl >/dev/null 2>&1; then"];
    "  sudo systemctl daemon-reload";
    Str.cat ["  sudo systemctl reset-failed "; Str.dq; "$SERVICE_NAME"; Str.dq; " || true"];
    Str.cat ["  sudo systemctl enable "; Str.dq; "$SERVICE_NAME"; Str.dq; " || true"];
    Str.cat ["  echo "; Str.dq; "Restarting $SERVICE_NAME via systemd ..."; Str.dq];
    Str.cat ["  if sudo systemctl restart "; Str.dq; "$SERVICE_NAME"; Str.dq; "; then"];
    "    use_fallback=0";
    "  else";
    Str.cat ["    echo "; Str.dq; "systemd restart failed; will fall back to start_cmd."; Str.dq];
    "  fi";
    "else";
    Str.cat ["  echo "; Str.dq; "No systemd unit for $SERVICE_NAME; will use start_cmd."; Str.dq];
    "fi"
  ].

Definition render_remote_script (svc : service) : string :=
  let wd := Shlex.quote (working_dir svc) in
  let repo := Shlex.quote (repo_url svc) in
  let ref := Shlex.quote (repo_ref svc) in
  let compose_file :=
    if Str.nonempty (compose_file svc) then Shlex.quote (SyncAndDeploy.compose_file svc)
    else "" in
  let build_cmd := build_cmd svc in
  let start_cmd := start_cmd svc in
  let migrate_cmd := migrate_cmd svc in
  let domain := domain svc in
  let health_path := health_path svc in
  let service_name := Shlex.quote (name svc) in
  let pull_cmd :=
    if Str.nonempty compose_file then Str.cat ["docker compose -f "; compose_file; " pull"] else "" in
  let ensure_net :=
    if Str.nonempty compose_file then
      let project := PurePath.parent_name (SyncAndDeploy.compose_file svc) in
      let network := Str.cat [project; "_default"] in
      Str.cat ["docker network inspect "; Shlex.quote network; " >/dev/null 2>&1 || docker network create "; Shlex.quote network]
    else "" in
  let lines :=
    script_head service_name wd repo ref
    ++ (if Str.nonempty ensure_net then [ensure_net] else [])
    ++ (if Str.nonempty pull_cmd then [pull_cmd] else [])
    ++ (if Str.nonempty build_cmd then [build_cmd] else [])
    ++ script_restart
    ++ (if Str.nonempty start_cmd
        then [Str.cat ["if [ "; Str.dq; "$use_fallback"; Str.dq; " -eq 1 ]; then"];
              start_cmd;
              "fi"]
        else [])
    ++ (if Str.nonempty migrate_cmd then [migrate_cmd] else [])
    ++ (if Str.nonempty domain
        then let url := Str.cat ["http://"; domain; health_path] in
             [Str.cat ["curl -fsS --max-time 10 "; Str.dq; url; Str.dq; " || true"]]
        else []) in
  Str.join Str.nl lines.

Section script.
Variable ROOT : string.
Variable spawn : list process → process → started.

(** The loop of [main] over the names of a selection: the names without
    file, the names whose descriptor is skipped, and the records. *)
Fixpoint resolve (uniq : list string) : M (list string * list string * list service) :=
  match uniq with
  | [] => mret ([], [], [])
  | name :: rest =>
      let svc_file := pjoin (SERVICES_DIR ROOT) (name +:+ ".yml") in
      present ← get_files;
      if negb (bool_decide (is_Some (present !! svc_file)))
      then '(missing_files, invalid, services) ← resolve rest;
           mret (name :: missing_files, invalid, services)
      else
        svc ← parse_service svc_file;
        '(missing_files, invalid, services) ← resolve rest;
        match svc with
        | None => mret (missing_files, name :: invalid, services)
        | Some svc => mret (missing_files, invalid, svc :: services)
        end
  end.

(** The loop of [main] over all descriptors, without a selection. *)
Fixpoint read_all (svc_files : list string) : M (list service) :=
  match svc_files with
  | [] => mret []
  | svc_file :: rest =>
      svc ← parse_service svc_file;
      services ← read_all rest;
      mret (option_list svc ++ services)
  end.

(** The last loop of [main]: one remote shell for each service. *)
Fixpoint sync_all (ssh_host : string) (services : list service) : M unit :=
  match services with
  | [] => mret tt
  | svc :: rest =>
      print (Str.cat ["[remote:"; ssh_host; "] Syncing "; name svc; " ..."]);;
      let script := render_remote_script svc in
      run spawn (Argv ["ssh"; ssh_host; "bash"; "-s"]) true (Some script);;
      sync_all ssh_host rest
  end.

(** [sorted(p.stem for p in SERVICES_DIR.glob("*.yml"))] *)
Definition stems (present : gmap string string) : list string :=
  merge_sort String.le
    (map (λ p, PurePath.stem (Str.basename p)) (glob_services ROOT present)).

Definition available (present : gmap string string) : string :=
  if Str.nonempty (Str.join ", " (stems present)) then Str.join ", " (stems present)
  else "<none>".

(** What [main] does once the services are known. *)
Definition sync_services (ssh_host : string) (services : list service) : M Z :=
  match services with
  | [] => print "No services with repo_url/working_dir found.";; mret 0
  | _ =>
      sync_all ssh_host services;;
      print "Done.";;
      mret 0
  end.

(** [main], with [args.ssh_host] and [args.service] as its arguments. *)
Definition main (ssh_host : string) (service : option (list string)) : M Z :=
  match service with
  | Some ((_ :: _) as selected) =>
      let uniq := uniq_loop ∅ selected in
      '(missing_files, invalid, services) ← resolve uniq;
      match missing_files, invalid with
      | [], [] => sync_services ssh_host services
      | _, _ =>
          present ← get_files;
          (match missing_files with
           | [] => mret tt
           | _ => eprint ("Service file(s) not found: " +:+ Str.join ", " missing_files)
           end);;
          (match invalid with
           | [] => mret tt
           | _ =>
               eprint ("Invalid service definition(s) (missing name/repo_url/working_dir): "
                       +:+ Str.join ", " invalid)
           end);;
          eprint ("Available services: " +:+ available present);;
          mret 1
      end
  | _ =>
      present ← get_files;
      services ← read_all (merge_sort String.le (glob_services ROOT present));
      sync_services ssh_host services
  end.

End script.
End Sync.

(** The remote shell [sync_and_deploy.py] runs for a service. *)
Definition ssh_process (ssh_host : string) (svc : SyncAndDeploy.service) : Proc.process :=
  {| Proc.command_of := Proc.Argv ["ssh"; ssh_host; "bash"; "-s"];
     Proc.input_of := Some (Sync.render_remote_script svc) |}.

(** * Definitions used to state the properties of sync_and_deploy.py *)

(** The descriptor file a selected name stands for. *)
Definition descriptor_path (ROOT name : string) : string :=
  pjoin (SERVICES_DIR ROOT) (name +:+ ".yml").

(** The record [sync_and_deploy.py] reads from a file, when it reads
    one: nothing when the file is not there or its descriptor is
    skipped. *)
Definition record_at (w : Proc.world) (path : string) : option SyncAndDeploy.service :=
  match (SyncAndDeploy.parse_service path w).1 with
  | Proc.Return (Some svc) => Some svc
  | _ => None
  end.

(** The line printed before the remote shell of a service is run. *)
Definition syncing_line (ssh_host : string) (svc : SyncAndDeploy.service) : string :=
  Str.cat ["[remote:"; ssh_host; "] Syncing "; SyncAndDeploy.name svc; " ..."].

(** What [main] prints to stdout when every remote shell exits with 0. *)
Definition sync_report (ssh_host : string) (services : list SyncAndDeploy.service)
    : list string :=
  match services with
  | [] => ["No services with repo_url/working_dir found."]
  | _ => map (syncing_line ssh_host) services ++ ["Done."]
  end.

Module Example3.

(** A descriptor with a repository, and a compose file named without a
    directory. *)
Definition web_yml : string :=
  Str.cat ["# the web front"; Str.nl;
           "name: web"; Str.nl; "domain: web.example.com"; Str.nl;
           "repo_url: https://git.example.com/web.git"; Str.nl;
           "working_dir: /srv/web"; Str.nl;
           "compose_file: docker-compose.yml"; Str.nl;
           "migrate_cmd: "; Str.sq; Str.sq; Str.nl;
           "domain: www.example.com"; Str.nl].

(** The files of the first examples, with the descriptor [web] added. *)
Definition w0 : Proc.world :=
  {| Proc.files := <["/srv/orchestration/services/web.yml" := web_yml]> (fs Example.st0);
     Proc.stdout := []; Proc.stderr := []; Proc.runs := [] |}.

(** The record [sync_and_deploy.py] makes of it: the later line for
    [domain] counts, and the quoted-empty migrate command is none. *)
Definition web : SyncAndDeploy.service :=
  {| SyncAndDeploy.name := "web"; SyncAndDeploy.domain := "www.example.com";
     SyncAndDeploy.repo_url := "https://git.example.com/web.git";
     SyncAndDeploy.repo_ref := "main"; SyncAndDeploy.working_dir := "/srv/web";
     SyncAndDeploy.compose_file := "docker-compose.yml"; SyncAndDeploy.build_cmd := "";
     SyncAndDeploy.start_cmd := ""; SyncAndDeploy.migrate_cmd := "";
     SyncAndDeploy.health_path := "/health" |}.

(** A host where every process starts, and all but [curl] exit with 0. *)
Definition spawn (history : list Proc.process) (p : Proc.process) : Proc.started :=
  match Proc.command_of p with
  | Proc.Argv ("curl" :: _) => Proc.Exited 22
  | _ => Proc.Exited 0
  end.

(** Entries of a descriptor, the key [domain] given twice. *)
Definition entries : list (string * string) :=
  [("name", "web"); ("domain", "web.example.com"); ("start_cmd", "run --port 80: now");
   ("health_path", ""); ("domain", "www.example.com")].

End Example3.
(** * Properties *)

#[local] Set Warnings "-clear-no-such-hyp".

(** ** Lemmas on text *)

Module StrFacts.
Import Str.

Lemma app_cons (c : ascii) (s t : string) : String c s +:+ t = String c (s +:+ t).
Proof. reflexivity. Qed.

Lemma app_nil_l (s : string) : "" +:+ s = s.
Proof. reflexivity. Qed.

Lemma app_nil_r (s : string) : s +:+ "" = s.
Proof. induction s as [|c s IH]; [done|]. by rewrite app_cons, IH. Qed.

Lemma app_assoc (s t u : string) : (s +:+ t) +:+ u = s +:+ (t +:+ u).
Proof. induction s as [|c s IH]; [done|]. by rewrite !app_cons, IH. Qed.


Lemma startswith_app (p s : string) : startswith p (p +:+ s) = true.
Proof.
  induction p as [|c p IH]; [by destruct s|].
  rewrite app_cons. simpl. by rewrite decide_True.
Qed.

Lemma startswith_split (p s : string) :
  startswith p s = true → ∃ t, s = p +:+ t.
Proof.
  revert s. induction p as [|c p IH]; intros s H; [by exists s|].
  destruct s as [|d s]; [done|]. simpl in H.
  destruct (decide (c = d)) as [->|]; [|done].
  destruct (IH s H) as [t ->]. by exists t.
Qed.

Lemma contains_here (x s : string) : contains x (x +:+ s) = true.
Proof.
  destruct (x +:+ s) eqn:E; simpl; rewrite <- E, startswith_app; done.
Qed.

Lemma contains_app_r (x a s : string) :
  contains x s = true → contains x (a +:+ s) = true.
Proof.
  intros H. induction a as [|c a IH]; [done|].
  rewrite app_cons. simpl. rewrite IH. by rewrite orb_true_r.
Qed.

(** A text holds whatever stands between two of its parts. *)
Lemma contains_mid (pre x post : string) : contains x (pre +:+ x +:+ post) = true.
Proof. apply contains_app_r, contains_here. Qed.

Lemma contains_intro (pre post x s : string) :
  s = pre +:+ x +:+ post → contains x s = true.
Proof. intros ->. apply contains_mid. Qed.

Lemma startswith_intro (post p s : string) :
  s = p +:+ post → startswith p s = true.
Proof. intros ->. apply startswith_app. Qed.

Lemma contains_split (x s : string) :
  contains x s = true → ∃ a b, s = a +:+ x +:+ b.
Proof.
  induction s as [|c s IH]; simpl; intros H.
  - rewrite orb_false_r in H. apply startswith_split in H as [t ->]. by exists "", t.
  - apply orb_true_iff in H as [H|H].
    + apply startswith_split in H as [t ->]. by exists "", t.
    + destruct (IH H) as (a & b & ->). by exists (String c a), b.
Qed.

Lemma last_app_cons (a : string) (c : ascii) (b : string) :
  last (a +:+ String c b) = last (String c b).
Proof.
  induction a as [|d a IH]; [done|].
  rewrite app_cons. change (last (String d (a +:+ String c b)))
    with (match a +:+ String c b with "" => Some d | _ => last (a +:+ String c b) end).
  destruct (a +:+ String c b) eqn:E; [by destruct a|]. by rewrite <- IH.
Qed.

Lemma nonempty_true (s : string) : nonempty s = true ↔ s ≠ "".
Proof. by destruct s. Qed.

Lemma nonempty_false (s : string) : nonempty s = false ↔ s = "".
Proof. by destruct s. Qed.

Lemma length_app (s t : string) :
  String.length (s +:+ t) = (String.length s + String.length t)%nat.
Proof. induction s as [|c s IH]; [done|]. rewrite app_cons. simpl. by rewrite IH. Qed.

Lemma cat_app (l1 l2 : list string) : cat (l1 ++ l2) = cat l1 +:+ cat l2.
Proof.
  unfold cat. induction l1 as [|p l1 IH]; [done|].
  cbn [foldr app]. by rewrite IH, app_assoc.
Qed.

(** A text put together from pieces holds any run of its pieces. *)
Lemma contains_cat_slice (n m : nat) (pieces : list string) :
  contains (cat (firstn m (skipn n pieces))) (cat pieces) = true.
Proof.
  rewrite <- (firstn_skipn n pieces) at 2.
  rewrite <- (firstn_skipn m (skipn n pieces)) at 2.
  rewrite !cat_app. apply contains_mid.
Qed.

End StrFacts.

(** Brings a text built with [+:+] and [Str.cat] to its normal form, the
    literals spelled out and the appends nested to the right. *)
Ltac str_norm :=
  cbv [Str.cat foldr];
  rewrite ?StrFacts.app_assoc;
  repeat (rewrite ?StrFacts.app_cons, ?StrFacts.app_nil_l, ?StrFacts.app_nil_r).

(** Closes a goal that a text put together from pieces holds the [m]
    pieces after the first [n]. *)
Ltac cat_slice n m :=
  lazymatch goal with
  | |- Str.contains _ (Str.cat ?pieces) = true =>
      exact (StrFacts.contains_cat_slice n m pieces)
  end.

(** ** The static root decides the main route (claim C2) *)

(** C2. [build_nginx_blocks] on the fields of a descriptor: with a static
    root the main-route body is the try-files line followed by the
    cache-control line and proxies nothing itself, while the fallback
    fragment is the named route [@app] that proxies to the upstream;
    without one the main-route body begins with the proxy directive to
    [http://<host>:<port>] and both the fallback fragment and the root
    directive are empty. *)
Theorem build_nginx_blocks_bifurcates (s : service) :
  let '(root_directive, location_root, fallback_location) :=
    build_nginx_blocks (STATIC_ROOT s) (UPSTREAM_HOST s) (UPSTREAM_PORT s) in
  let upstream := "http://" +:+ Py.str (UPSTREAM_HOST s) +:+ ":" +:+ UPSTREAM_PORT s in
  (Py.truthy (STATIC_ROOT s) = true →
     Str.contains "try_files $uri $uri/ @app;" location_root = true
     ∧ Str.contains "add_header Cache-Control" location_root = true
     ∧ Str.contains "no-cache, no-store" location_root = true
     ∧ Str.contains "proxy_pass" location_root = false
     ∧ fallback_location ≠ ""
     ∧ Str.startswith "    location @app {" fallback_location = true
     ∧ Str.contains ("proxy_pass " +:+ upstream +:+ ";") fallback_location = true)
  ∧ (Py.truthy (STATIC_ROOT s) = false →
     Str.startswith ("        proxy_pass " +:+ upstream +:+ ";") location_root = true
     ∧ fallback_location = ""
     ∧ root_directive = "").
Proof.
  unfold build_nginx_blocks.
  destruct (Py.truthy (STATIC_ROOT s)); (split; [intros Hs|intros Hs]); try done.
  - repeat split; try reflexivity; try done.
    eapply (StrFacts.contains_intro ("    location @app {" +:+ Str.nl +:+ "        ")).
    str_norm. reflexivity.
  - repeat split; try reflexivity.
    eapply StrFacts.startswith_intro. str_norm. reflexivity.
Qed.

(** ** Lemmas on parse_locations *)

Lemma parse_locations_loop_rules (idx : nat) (entries : list yval) (dp : string) :
  (parse_locations_loop idx entries dp).1 = omap (normalize_opt dp) entries.
Proof.
  revert idx. induction entries as [|entry rest IH]; intros idx; [done|].
  simpl. specialize (IH (S idx)).
  destruct (parse_locations_loop (S idx) rest dp) as [normalized warnings].
  simpl in IH. subst normalized.
  destruct entry as [| | | | |kvs]; try done.
  simpl. by destruct (Py.truthy (Py.get "path" kvs)).
Qed.

Lemma parse_locations_rules (entries : list yval) (host port : yval) :
  (parse_locations (YList entries) host port).1
  = omap (normalize_opt (default_proxy host port)) entries.
Proof.
  unfold parse_locations. destruct entries as [|e rest]; [done|].
  cbn [Py.truthy negb]. apply parse_locations_loop_rules.
Qed.

Lemma parse_locations_loop_warns (idx i : nat) (entries : list yval) (dp : string)
    (kvs : list (string * yval)) :
  entries !! i = Some (YDict kvs) →
  Py.truthy (Py.get "path" kvs) = false →
  ("Ignoring locations[" +:+ Py.str_of_Z (Z.of_nat (idx + i)) +:+ "] (missing path)")
    ∈ (parse_locations_loop idx entries dp).2.
Proof.
  revert idx i. induction entries as [|entry rest IH]; intros idx i Hi Hp; [done|].
  simpl. destruct i as [|i]; simpl in Hi.
  - injection Hi as ->. rewrite Hp, Nat.add_0_r.
    destruct (parse_locations_loop (S idx) rest dp). simpl. left.
  - specialize (IH (S idx) i Hi Hp).
    replace (S idx + i)%nat with (idx + S i)%nat in IH by lia.
    destruct (parse_locations_loop (S idx) rest dp) as [normalized warnings].
    simpl in IH.
    destruct entry as [| | | | |kvs']; simpl; try (by right).
    destruct (Py.truthy (Py.get "path" kvs')); simpl; [done|by right].
Qed.

Lemma parse_locations_loop_warns_other (idx i : nat) (entries : list yval) (dp : string)
    (entry : yval) :
  entries !! i = Some entry →
  (∀ kvs, entry ≠ YDict kvs) →
  ("Ignoring locations[" +:+ Py.str_of_Z (Z.of_nat (idx + i)) +:+ "] (expected mapping)")
    ∈ (parse_locations_loop idx entries dp).2.
Proof.
  revert idx i. induction entries as [|e rest IH]; intros idx i Hi He; [done|].
  simpl. destruct i as [|i]; simpl in Hi.
  - injection Hi as ->. rewrite Nat.add_0_r.
    destruct (parse_locations_loop (S idx) rest dp).
    destruct entry as [| | | | |kvs]; simpl; try left. by destruct (He kvs).
  - specialize (IH (S idx) i Hi He).
    replace (S idx + i)%nat with (idx + S i)%nat in IH by lia.
    destruct (parse_locations_loop (S idx) rest dp) as [normalized warnings].
    simpl in IH.
    destruct e as [| | | | |kvs']; simpl; try (by right).
    destruct (Py.truthy (Py.get "path" kvs')); simpl; [done|by right].
Qed.

(** ** Lemmas on parse_service *)

Lemma missing_of_nil (required : list (string * yval)) :
  missing_of required = [] ↔ ∀ kv, kv ∈ required → Py.truthy kv.2 = true.
Proof.
  unfold missing_of. induction required as [|kv rest IH]; [set_solver|].
  rewrite filter_cons. destruct (decide (Py.truthy kv.2 = false)) as [Hf|Ht].
  - split; [done|]. intros H. specialize (H kv (list_elem_of_here _ _)). congruence.
  - rewrite IH. apply not_false_is_true in Ht. split.
    + intros H kv' [->|?]%elem_of_cons; auto.
    + intros H kv' ?. apply H. by right.
Qed.

Lemma elem_of_missing_of (required : list (string * yval)) (k : string) :
  k ∈ missing_of required ↔ ∃ v, (k, v) ∈ required ∧ Py.truthy v = false.
Proof.
  unfold missing_of. rewrite list_elem_of_fmap. split.
  - intros ([k' v] & -> & [H ?]%list_elem_of_filter). by exists v.
  - intros (v & ? & ?). exists (k, v). split; [done|]. by apply list_elem_of_filter.
Qed.

Lemma start_cmd_lower_ok (v : yval) (lowered : string) :
  start_cmd_lower v = Ok lowered → Py.truthy v = true →
  ∃ cmd, v = YStr cmd ∧ lowered = Str.lower cmd.
Proof.
  unfold start_cmd_lower, Py.or. intros H Ht. rewrite Ht in H.
  destruct v; try done. injection H as <-. eauto.
Qed.

Lemma start_cmd_lower_has_lower (v : yval) :
  has_lower v = true → ∃ lowered, start_cmd_lower v = Ok lowered.
Proof.
  unfold has_lower, start_cmd_lower. destruct (Py.or v (YStr "")); try done. eauto.
Qed.

(** A successful call read its five required fields as truthy values and
    derived the unit fields from the lowered start command. *)
Lemma parse_mapping_ok (path_name : string) (data : list (string * yval))
    (strict : bool) (printed : list string) (s : service) :
  parse_mapping path_name data strict = (printed, Ok (Some s)) →
  missing_of (required_of data) = []
  ∧ (∃ cmd, _get data "start_cmd" (YStr "") = YStr cmd
       ∧ TYPE s = (if is_compose (Str.lower cmd) then "oneshot" else "simple")
       ∧ REMAIN_AFTER_EXIT s = (if is_compose (Str.lower cmd) then "yes" else "no")
       ∧ RESTART s = (if is_compose (Str.lower cmd) then "no" else "always"))
  ∧ NAME s = _get data "name" (YStr "")
  ∧ DOMAIN s = _get data "domain" (YStr "")
  ∧ UPSTREAM_PORT s = Py.str (_get data "upstream_port" (YStr ""))
  ∧ START_CMD s = _get data "start_cmd" (YStr "")
  ∧ WORKING_DIR s = _get data "working_dir" (YStr "")
  ∧ (LOCATIONS s, printed)
    = parse_locations (_get data "locations" (YList []))
        (Py.or (_get data "upstream_host" (YStr "")) (YStr "127.0.0.1"))
        (_get data "upstream_port" (YStr "")).
Proof.
  unfold parse_mapping, required_of.
  destruct (parse_locations _ _ _) as [locations warnings].
  destruct (start_cmd_lower _) as [lowered|e] eqn:Hl; [|done].
  destruct (missing_of _) as [|k ks] eqn:Hm.
  - intros [= <- <-]. split; [done|].
    assert (Py.truthy (_get data "start_cmd" (YStr "")) = true) as Ht.
    { apply (proj1 (missing_of_nil _) Hm ("start_cmd", _)). unfold required. set_solver. }
    destruct (start_cmd_lower_ok _ _ Hl Ht) as (cmd & Hc & ->).
    split; [by exists cmd|]. done.
  - unfold skip. by destruct strict.
Qed.

Lemma parse_service_loaded (safe_load : string → string + yval) (path text : string)
    (strict : bool) (st : state) :
  fs st !! path = Some text →
  parse_service safe_load path strict st
  = ((parse_loaded path (Str.basename path) (safe_load text) strict).2,
     {| fs := fs st; stdout := stdout st;
        stderr := stderr st ++ (parse_loaded path (Str.basename path) (safe_load text) strict).1 |}).
Proof.
  intros Hf. unfold parse_service. rewrite Hf. by destruct (parse_loaded _ _ _ _).
Qed.

Lemma parse_service_state (safe_load : string → string + yval) (path : string)
    (strict : bool) (st : state) :
  fs (parse_service safe_load path strict st).2 = fs st
  ∧ stdout (parse_service safe_load path strict st).2 = stdout st.
Proof. unfold parse_service. by destruct (parse_loaded _ _ _ _). Qed.

(** A record comes from a mapping only. *)
Lemma parse_service_ok (safe_load : string → string + yval) (path : string)
    (strict : bool) (st st' : state) (s : service) :
  parse_service safe_load path strict st = (Ok (Some s), st') →
  ∃ data printed,
    parse_mapping (Str.basename path) data strict = (printed, Ok (Some s))
    ∧ st' = {| fs := fs st; stdout := stdout st; stderr := stderr st ++ printed |}.
Proof.
  unfold parse_service, parse_loaded.
  destruct (match fs st !! path with Some _ => _ | None => _ end) as [exc|v].
  { unfold skip. by destruct strict. }
  destruct (Py.or v (YDict [])) as [| | | | |data];
    try (unfold skip; by destruct strict).
  destruct (parse_mapping _ data strict) as [printed r] eqn:E.
  intros [= -> <-]. by exists data, printed.
Qed.

(** ** The unit fields follow the start command (claim C3) *)

Lemma lower_app (a b : string) : Str.lower (a +:+ b) = Str.lower a +:+ Str.lower b.
Proof.
  induction a as [|c a IH]; [by rewrite !StrFacts.app_nil_l|].
  rewrite StrFacts.app_cons. simpl. by rewrite IH, StrFacts.app_cons.
Qed.

(** Lowering works code point by code point: a lowered text splits where
    the text does. *)
Lemma lower_split (s a b : string) :
  Str.lower s = a +:+ b → ∃ s1 s2, s = s1 +:+ s2 ∧ Str.lower s1 = a ∧ Str.lower s2 = b.
Proof.
  revert s. induction a as [|c a IH]; intros s H.
  - exists "", s. by rewrite StrFacts.app_nil_l in *.
  - rewrite StrFacts.app_cons in H. destruct s as [|d s]; [done|].
    simpl in H. injection H as Hc Hs.
    destruct (IH s Hs) as (s1 & s2 & -> & H1 & H2).
    exists (String d s1), s2. simpl. by rewrite Hc, H1, StrFacts.app_cons.
Qed.

Lemma contains_lower_word (word cmd : string) :
  Str.contains word (Str.lower cmd) = true
  ↔ ∃ before w after, cmd = before +:+ w +:+ after ∧ Str.lower w = word.
Proof.
  split.
  - intros (a & b & H)%StrFacts.contains_split.
    apply lower_split in H as (before & rest & -> & _ & H).
    apply lower_split in H as (w & after & -> & Hw & _). by exists before, w, after.
  - intros (before & w & after & -> & <-). rewrite !lower_app.
    apply StrFacts.contains_mid.
Qed.

(** The test of the script is the test for the two words, in any letter
    case. *)
Lemma invokes_compose_iff (cmd : string) :
  invokes_compose cmd ↔ is_compose (Str.lower cmd) = true.
Proof.
  unfold invokes_compose, is_compose. rewrite orb_true_iff, !contains_lower_word.
  split.
  - intros (before & w & after & H & [Hw|Hw]); [left|right]; by exists before, w, after.
  - intros [(before & w & after & H & Hw)|(before & w & after & H & Hw)];
      exists before, w, after; auto.
Qed.

(** C3. Whenever [parse_service] returns a record, its start command is a
    text, and the unit fields depend on one thing only, whether that text
    invokes the container tooling, that is, holds [docker compose] or
    [docker-compose] in any letter case: when it does the unit is of type
    [oneshot], remains after exit and is not restarted; otherwise it is
    of type [simple], does not remain and is always restarted.  These are
    the texts [render_service] substitutes for the tokens [TYPE],
    [REMAIN_AFTER_EXIT] and [RESTART] of the unit. *)
Theorem unit_fields_follow_start_cmd (safe_load : string → string + yval) (path : string)
    (strict : bool) (st st' : state) (s : service) :
  parse_service safe_load path strict st = (Ok (Some s), st') →
  ∃ cmd, START_CMD s = YStr cmd
    ∧ (invokes_compose cmd →
         TYPE s = "oneshot" ∧ REMAIN_AFTER_EXIT s = "yes" ∧ RESTART s = "no")
    ∧ (¬ invokes_compose cmd →
         TYPE s = "simple" ∧ REMAIN_AFTER_EXIT s = "no" ∧ RESTART s = "always")
    ∧ Py.get "TYPE" (systemd_replacements s) = YStr (TYPE s)
    ∧ Py.get "REMAIN_AFTER_EXIT" (systemd_replacements s) = YStr (REMAIN_AFTER_EXIT s)
    ∧ Py.get "RESTART" (systemd_replacements s) = YStr (RESTART s).
Proof.
  intros (data & printed & H & _)%parse_service_ok.
  apply parse_mapping_ok in H as (_ & (cmd & Hc & Ht & Hr & Hs) & _ & _ & _ & Hsc & _).
  exists cmd. split; [by rewrite Hsc|]. rewrite Ht, Hr, Hs, invokes_compose_iff.
  split; [by intros ->|]. split; [by intros ->%not_true_is_false|].
  by rewrite <- Ht, <- Hr, <- Hs.
Qed.

(** ** Required fields (claim C4) *)

(** C4, as amended. For a mapping whose start command is a text or falsy,
    [parse_service] returns a record exactly when [name], [domain],
    [upstream_port], [start_cmd] and [working_dir] are all truthy as loaded
    (an absent key and null count as empty; no quoted-empty text is
    collapsed for these five fields, and the record carries them as
    loaded).  Otherwise the message names every falsy one of the five, in
    their fixed order: the lenient call prints it to stderr after the
    warnings on locations and returns the skip signal, the strict call
    raises [SystemExit] with it, which ends the loop of [main] at this
    descriptor.  The call leaves the files and stdout as they were. *)
Theorem parse_service_required (ROOT : string) (safe_load : string → string + yval)
    (path text : string) (strict : bool) (st : state) (v : yval)
    (data : list (string * yval)) :
  fs st !! path = Some text →
  safe_load text = inr v →
  Py.or v (YDict []) = YDict data →
  has_lower (_get data "start_cmd" (YStr "")) = true →
  let missing := missing_of (required_of data) in
  let msg := "Skipping " +:+ Str.basename path +:+ ": missing " +:+ Str.join ", " missing in
  let warnings :=
    (parse_locations (_get data "locations" (YList []))
       (Py.or (_get data "upstream_host" (YStr "")) (YStr "127.0.0.1"))
       (_get data "upstream_port" (YStr ""))).2 in
  let '(r, st') := parse_service safe_load path strict st in
  ((∃ s, r = Ok (Some s)) ↔ missing = [])
  ∧ (∀ k, k ∈ missing ↔ ∃ val, (k, val) ∈ required_of data ∧ Py.truthy val = false)
  ∧ (∀ s, r = Ok (Some s) →
       NAME s = _get data "name" (YStr "") ∧ DOMAIN s = _get data "domain" (YStr "")
       ∧ UPSTREAM_PORT s = Py.str (_get data "upstream_port" (YStr ""))
       ∧ START_CMD s = _get data "start_cmd" (YStr "")
       ∧ WORKING_DIR s = _get data "working_dir" (YStr "")
       ∧ stderr st' = stderr st ++ warnings)
  ∧ (missing ≠ [] →
       if strict then r = Raise (SystemExit msg) ∧ stderr st' = stderr st ++ warnings
       else r = Ok None ∧ stderr st' = stderr st ++ warnings ++ [msg])
  ∧ (missing ≠ [] → strict = true →
       ∀ rest, render_all ROOT safe_load true (path :: rest) st
               = (Raise (SystemExit msg), st'))
  ∧ fs st' = fs st ∧ stdout st' = stdout st.
Proof.
  intros Hf Hl Hv Hlow missing msg warnings.
  rewrite (parse_service_loaded _ _ _ _ _ Hf), Hl.
  unfold parse_loaded. rewrite Hv.
  destruct (start_cmd_lower_has_lower _ Hlow) as [lowered Hlowered].
  assert (parse_mapping (Str.basename path) data strict
          = match missing with
            | [] => (warnings, (parse_mapping (Str.basename path) data strict).2)
            | _ => skip strict warnings msg
            end
          ∧ (missing = [] → ∃ s, (parse_mapping (Str.basename path) data strict).2 = Ok (Some s)))
    as [Heq Hok].
  { subst missing msg warnings. unfold parse_mapping, required_of.
    destruct (parse_locations _ _ _) as [locations warnings].
    rewrite Hlowered. simpl.
    destruct (missing_of _); [eauto|]. split; [done|]. done. }
  split_and!; simpl.
  - split.
    + intros [s Hs]. destruct (parse_mapping _ _ _) as [printed r] eqn:E.
      simpl in Hs. subst r. by apply parse_mapping_ok in E as [? _].
    + apply Hok.
  - intros k. apply elem_of_missing_of.
  - intros s Hs. destruct (parse_mapping _ _ _) as [printed r] eqn:E.
    simpl in Hs. subst r.
    apply parse_mapping_ok in E as (_ & _ & ? & ? & ? & ? & ? & Hloc).
    split_and!; try done. simpl. subst warnings. by rewrite <- Hloc.
  - intros Hm. rewrite Heq. destruct missing; [done|]. unfold skip.
    destruct strict; simpl; [done|]. by rewrite app_assoc.
  - intros Hm -> rest. cbn [render_all]. unfold mbind, M_bind.
    rewrite (parse_service_loaded _ _ _ _ _ Hf), Hl. unfold parse_loaded.
    rewrite Hv, Heq. by destruct missing.
  - done.
  - done.
Qed.

(** ** Lemmas on stripping and on the text of a value *)

Module StripFacts.
Import Str.

Lemma rstrip_solid_head (s : string) : solid_head s → solid_head (rstrip s).
Proof.
  destruct s as [|c s]; [done|]. simpl. intros Hc.
  destruct (rstrip s); [by rewrite Hc|done].
Qed.

Lemma lstrip_solid_head (s : string) : solid_head s → lstrip s = s.
Proof. destruct s as [|c s]; [done|]. simpl. by intros ->. Qed.

Lemma strip_solid_head (s : string) : solid_head s → strip s ≠ "".
Proof.
  intros H%rstrip_solid_head. unfold strip. rewrite lstrip_solid_head by done.
  by destruct (rstrip s).
Qed.

Lemma str_of_Z_solid (z : Z) : solid_head (Py.str_of_Z z).
Proof.
  unfold Py.str_of_Z. destruct (Z.to_int z) as [d|d]; [|done].
  by destruct d.
Qed.

(** The text of a truthy value that is not itself a text does not strip
    to nothing. *)
Lemma str_solid (v : yval) :
  Py.truthy v = true → (∀ s, v ≠ YStr s) → solid_head (Py.str v).
Proof.
  intros Ht Hs. destruct v as [|[|]|z|s|l|kvs]; try done.
  - apply str_of_Z_solid.
  - by destruct (Hs s).
Qed.

Lemma nonempty_app_l (s t : string) : nonempty s = true → nonempty (s +:+ t) = true.
Proof. by destruct s. Qed.

End StripFacts.

(** ** Which values of proxy_pass disable proxying (claim C10) *)

Lemma normalize_entry_proxy_pass (entry : list (string * yval)) (path : yval) (dp : string) :
  let pp := Py.get "proxy_pass" entry in
  let target :=
    match pp with
    | YBool false => ""
    | _ => if Py.truthy pp then Str.strip (Py.str pp) else dp
    end in
  proxy_pass (normalize_entry entry path dp) = target
  ∨ (target ≠ "" ∧ proxy_pass (normalize_entry entry path dp) = target +:+ "/").
Proof.
  intros pp target. unfold normalize_entry. fold pp. fold target. simpl.
  destruct (_ && Str.nonempty target && _) eqn:E; [|by left].
  right. split; [|done].
  apply andb_true_iff in E as [[_ E]%andb_true_iff _].
  by apply StrFacts.nonempty_true.
Qed.

(** The target of an entry whose value under [proxy_pass] is falsy
    without being the boolean false. *)
Lemma normalize_entry_default (kvs : list (string * yval)) (path : yval) (dp : string) :
  Py.truthy (Py.get "proxy_pass" kvs) = false →
  Py.get "proxy_pass" kvs ≠ YBool false →
  dp ≠ "" →
  proxy_pass (normalize_entry kvs path dp)
  = if strip_prefix_of kvs && negb (Str.endswith_char "/" dp) then dp +:+ "/" else dp.
Proof.
  intros Hf Hnf Hdp%StrFacts.nonempty_true. unfold normalize_entry, strip_prefix_of.
  cbn [proxy_pass]. rewrite Hf.
  assert (match Py.get "proxy_pass" kvs with YBool false => "" | _ => dp end = dp) as ->.
  { by destruct (Py.get "proxy_pass" kvs) as [|[|]| | | |]. }
  rewrite Hdp, andb_true_r. done.
Qed.

(** C10, as amended. For an entry of [locations] that is a mapping with a
    truthy path, [parse_locations] keeps a rule.  When the value under
    [proxy_pass] is falsy without being the boolean false (the key absent,
    null, zero, an empty sequence or mapping), the proxy target of the
    rule is the default [http://<host>:<port>], with a slash added exactly
    when the prefix is to be stripped and the default does not end in one.
    The rule has no proxy target exactly when the value is the boolean
    false or a non-empty text of white space only, which is truthy and
    stripped to nothing.  The empty text is left out of the statement: the
    comment of the script says it disables the default, the code assigns
    the default to it. *)
Theorem falsy_proxy_pass_gets_default (entries : list yval) (host port : yval)
    (kvs : list (string * yval)) :
  YDict kvs ∈ entries →
  Py.truthy (Py.get "path" kvs) = true →
  Py.get "proxy_pass" kvs ≠ YStr "" →
  let pp := Py.get "proxy_pass" kvs in
  let dp := default_proxy host port in
  ∃ r, r ∈ (parse_locations (YList entries) host port).1
    ∧ path r = Str.strip (Py.str (Py.get "path" kvs))
    ∧ (Py.truthy pp = false → pp ≠ YBool false →
         proxy_pass r
         = if strip_prefix_of kvs && negb (Str.endswith_char "/" dp) then dp +:+ "/" else dp)
    ∧ (proxy_pass r = "" ↔ pp = YBool false ∨ ∃ s, pp = YStr s ∧ s ≠ "" ∧ blank s).
Proof.
  intros Hin Hpath Hsome pp dp.
  exists (normalize_entry kvs (Py.get "path" kvs) dp). split_and!.
  - rewrite parse_locations_rules. apply list_elem_of_omap.
    exists (YDict kvs). split; [done|]. simpl. by rewrite Hpath.
  - done.
  - intros Hf Hnf. by apply normalize_entry_default.
  - assert (dp ≠ "") as Hdp by done.
    destruct (normalize_entry_proxy_pass kvs (Py.get "path" kvs) dp) as [H|[Hne H]];
      [fold pp in H|fold pp in H, Hne]; rewrite H; clear H.
    + fold pp in Hsome. clearbody pp. split.
      * intros E.
        destruct pp as [|[|]|z|s|l|kvs'] eqn:Epp; try (by left); try done; right.
        -- exfalso. destruct (Py.truthy (YInt z)); [|done].
           by apply (StripFacts.strip_solid_head _ (StripFacts.str_of_Z_solid z)).
        -- exists s. split; [done|]. destruct s; [done|]. done.
        -- exfalso. destruct l as [|item l]; [done|].
           by apply (StripFacts.strip_solid_head (Py.str (YList (item :: l)))).
        -- exfalso. destruct kvs' as [|item kvs']; [done|].
           by apply (StripFacts.strip_solid_head (Py.str (YDict (item :: kvs')))).
      * intros [->|(s & -> & Hs & Hb)]; [done|].
        simpl. apply StrFacts.nonempty_true in Hs. by rewrite Hs.
    + split.
      * intros E. by destruct (match pp with YBool false => _ | _ => _ end).
      * intros [E|(s & E & Hs & Hb)]; exfalso; apply Hne; rewrite E; [done|].
        simpl. apply StrFacts.nonempty_true in Hs. by rewrite Hs.
Qed.

(** ** Lemmas on splitting into lines *)

Module LineFacts.
Import Str StrFacts.

Lemma isbreak_isspace (c : ascii) : isbreak c = true → isspace c = true.
Proof. destruct c as [[|] [|] [|] [|] [|] [|] [|] [|]]; done. Qed.

Lemma rev_app_app (s t : string) : String.rev_app s t = String.rev s +:+ t.
Proof.
  unfold String.rev. revert t. induction s as [|c s IH]; intros t; [done|].
  simpl. rewrite (IH (String c "")), IH, app_assoc. done.
Qed.

Lemma rev_cons (c : ascii) (s : string) : String.rev (String c s) = String.rev s +:+ String c "".
Proof. unfold String.rev at 1. simpl. apply rev_app_app. Qed.

Lemma rstrip_cons (c : ascii) (s : string) :
  rstrip (String c s) ≠ "" → rstrip (String c s) = String c (rstrip s).
Proof. simpl. destruct (rstrip s); [|done]. by destruct (isspace c). Qed.

Lemma rstrip_cons_nil (c : ascii) (s : string) :
  rstrip (String c s) = "" → isspace c = true ∧ rstrip s = "".
Proof. simpl. destruct (rstrip s); [|done]. by destruct (isspace c). Qed.

Lemma rstrip_snoc_space (s : string) (c : ascii) :
  isspace c = true → rstrip (s +:+ String c "") = rstrip s.
Proof.
  intros Hc. induction s as [|d s IH].
  - simpl. by rewrite Hc.
  - rewrite app_cons. simpl. by rewrite IH.
Qed.

Lemma after_break_lf (s : string) : after_break "010" s = s.
Proof. by destruct s. Qed.

(** The lines of [after_break c s] are lines of [s] read from a fresh
    start. *)
Lemma after_break_lines (c : ascii) (s : string) (line : string) :
  line ∈ splitlines_go "" (after_break c s) → line ∈ splitlines_go "" s.
Proof.
  destruct s as [|d s]; [done|]. unfold after_break.
  destruct (decide (c = "013"%char)); [|done].
  destruct (decide (d = "010"%char)) as [->|]; [|done].
  intros H. simpl. rewrite after_break_lf. by right.
Qed.

(** In a text of white space only every line strips to the stripped
    beginning, or to nothing. *)
Lemma splitlines_go_blank (w cur line : string) :
  rstrip w = "" → line ∈ splitlines_go cur w →
  rstrip line = rstrip (String.rev cur) ∨ rstrip line = "".
Proof.
  revert cur. induction w as [|c w IH]; intros cur Hw Hin.
  - simpl in Hin. destruct (nonempty cur); [|by apply elem_of_nil in Hin].
    apply list_elem_of_singleton in Hin as ->. by left.
  - apply rstrip_cons_nil in Hw as [Hc Hw]. simpl in Hin.
    destruct (isbreak c).
    + apply elem_of_cons in Hin as [->|Hin]; [by left|].
      apply after_break_lines in Hin. destruct (IH "" Hw Hin) as [H|H]; by right.
    + destruct (IH _ Hw Hin) as [H|H]; [left|by right].
      by rewrite H, rev_cons, rstrip_snoc_space.
Qed.

Lemma rstrip_head (s : string) :
  rstrip s ≠ "" → ∃ d t t', s = String d t ∧ rstrip s = String d t'.
Proof.
  destruct s as [|d t]; [done|]. intros H. rewrite (rstrip_cons _ _ H). eauto.
Qed.

(** Stripping the end of a text loses none of its lines that hold
    something: each is found, stripped, among the stripped lines of the
    stripped text. *)
Lemma splitlines_go_rstrip (s cur line : string) :
  line ∈ splitlines_go cur s → rstrip line ≠ "" →
  rstrip line ∈ map rstrip (splitlines_go cur (rstrip s)).
Proof.
  revert cur. induction s as [|c s IH]; intros cur Hin Hline.
  - simpl. by apply list_elem_of_fmap_2.
  - destruct (decide (rstrip (String c s) = "")) as [Hnil|Hne].
    + destruct (splitlines_go_blank _ _ _ Hnil Hin) as [H|H]; [|done].
      rewrite Hnil. simpl. destruct cur; [by rewrite H in Hline|].
      simpl. rewrite H. left.
    + rewrite (rstrip_cons _ _ Hne). simpl in Hin |- *.
      destruct (isbreak c) eqn:Hb; [|by apply IH].
      apply elem_of_cons in Hin as [->|Hin]; [left|]. right.
      assert (rstrip s ≠ "") as Hs.
      { intros Hs. apply Hne. simpl. rewrite Hs. by rewrite (isbreak_isspace _ Hb). }
      destruct (rstrip_head _ Hs) as (d & t & t' & -> & Ht').
      rewrite Ht'. unfold after_break in *.
      destruct (decide (c = "013"%char)); [|by rewrite <- Ht'; apply IH].
      destruct (decide (d = "010"%char)) as [->|]; [|by rewrite <- Ht'; apply IH].
      assert (line ∈ splitlines_go "" (String "010" t)) as Hin'.
      { simpl. rewrite after_break_lf. by right. }
      specialize (IH "" Hin' Hline). rewrite Ht' in IH. simpl in IH.
      rewrite after_break_lf in IH.
      apply elem_of_cons in IH as [IH|IH]; [done|done].
Qed.

Lemma splitlines_rstrip (s line : string) :
  line ∈ splitlines s → rstrip line ≠ "" →
  rstrip line ∈ map rstrip (splitlines (rstrip s)).
Proof. apply splitlines_go_rstrip. Qed.

End LineFacts.

(** ** Lemmas on texts put together *)

Module TextFacts.
Import Str StrFacts.

Lemma drop_app (a b : string) : Str.drop (String.length a) (a +:+ b) = b.
Proof. induction a as [|c a IH]; [by destruct b|]. by rewrite app_cons. Qed.

Lemma rstrip_idemp (s : string) : rstrip (rstrip s) = rstrip s.
Proof.
  induction s as [|c s IH]; [done|]. simpl.
  destruct (rstrip s) as [|d r] eqn:E.
  - destruct (isspace c) eqn:Hc; [done|]. simpl. by rewrite Hc.
  - change (rstrip (String c (String d r)))
      with (match rstrip (String d r) with
            | "" => if isspace c then "" else String c ""
            | r' => String c r'
            end).
    by rewrite IH.
Qed.

Lemma lstrip_idemp (s : string) : lstrip (lstrip s) = lstrip s.
Proof.
  induction s as [|c s IH]; [done|]. simpl.
  destruct (isspace c) eqn:Hc; [done|]. simpl. by rewrite Hc.
Qed.

(** What is left of a text stripped at the end, once stripped at the
    beginning, is still stripped at the end. *)
Lemma rstrip_lstrip (t : string) : rstrip t = t → rstrip (lstrip t) = lstrip t.
Proof.
  induction t as [|c t IH]; [done|]. intros H. simpl.
  destruct (isspace c) eqn:Hc; [|done].
  apply IH. simpl in H. destruct (rstrip t) as [|d r].
  - by rewrite Hc in H.
  - by injection H.
Qed.

Lemma strip_idemp (s : string) : strip (strip s) = strip s.
Proof.
  unfold strip. rewrite (rstrip_lstrip (rstrip s)) by apply rstrip_idemp.
  apply lstrip_idemp.
Qed.

Lemma last_snoc (s : string) (c : ascii) : last (s +:+ String c "") = Some c.
Proof. by rewrite last_app_cons. Qed.

(** [join] followed by the separator puts the separator after every
    part. *)
Lemma join_sep (sep : string) (parts : list string) :
  parts ≠ [] → join sep parts +:+ sep = cat (map (λ p, p +:+ sep) parts).
Proof.
  induction parts as [|p rest IH]; [done|]. intros _.
  destruct rest as [|q rest].
  - simpl. unfold cat. simpl. by rewrite app_nil_r.
  - change (join sep (p :: q :: rest)) with (p +:+ sep +:+ join sep (q :: rest)).
    change (cat (map (λ p, p +:+ sep) (p :: q :: rest)))
      with ((p +:+ sep) +:+ cat (map (λ p, p +:+ sep) (q :: rest))).
    rewrite <- IH by done. by rewrite !app_assoc.
Qed.

End TextFacts.

(** The text for a list of rules is the block of each rule followed by an
    empty line. *)
Lemma render_custom_locations_cat (locations : list rule) :
  render_custom_locations locations
  = Str.cat (map (λ loc, location_block loc +:+ Str.nl +:+ Str.nl) locations).
Proof.
  destruct locations as [|loc rest]; [done|].
  unfold render_custom_locations.
  rewrite (TextFacts.join_sep _ (map location_block (loc :: rest))) by done.
  by rewrite map_map.
Qed.

(** ** A disabled proxy target, and entries without a path (claim C7) *)

Lemma extra_lines_eq (extra : string) :
  extra_lines extra = map (λ raw, "        " +:+ Str.rstrip raw) (Str.splitlines extra).
Proof.
  unfold extra_lines. apply map_ext. intros raw. by destruct (Str.rstrip raw).
Qed.

Lemma location_lines_no_proxy (r : rule) :
  proxy_pass r = "" →
  location_lines r
  = ["    location " +:+ path r +:+ " {"]
    ++ map (λ raw, "        " +:+ Str.rstrip raw) (Str.splitlines (extra r))
    ++ ["    }"].
Proof.
  intros Hp. unfold location_lines. rewrite Hp. simpl.
  rewrite <- extra_lines_eq. by destruct (extra r).
Qed.

Lemma normalize_entry_disabled (kvs : list (string * yval)) (path : yval) (dp : string) :
  Py.get "proxy_pass" kvs = YBool false →
  proxy_pass (normalize_entry kvs path dp) = "".
Proof.
  intros Hp. unfold normalize_entry. rewrite Hp. simpl. by rewrite andb_false_r.
Qed.

Lemma normalize_entry_extra (kvs : list (string * yval)) (path : yval) (dp text : string) :
  Py.get "extra" kvs = YStr text →
  extra (normalize_entry kvs path dp) = Str.rstrip text.
Proof.
  intros He. unfold normalize_entry. rewrite He. simpl. by destruct text.
Qed.

(** With its required fields present and a start command that is a text,
    a mapping parses to a record whatever its locations hold, in strict
    mode too; the entries only decide the rules and the warnings. *)
Lemma parse_mapping_complete (path_name : string) (data : list (string * yval))
    (strict : bool) :
  missing_of (required_of data) = [] →
  has_lower (_get data "start_cmd" (YStr "")) = true →
  ∃ s, parse_mapping path_name data strict
       = ((parse_locations (_get data "locations" (YList []))
             (Py.or (_get data "upstream_host" (YStr "")) (YStr "127.0.0.1"))
             (_get data "upstream_port" (YStr ""))).2,
          Ok (Some s))
    ∧ LOCATIONS s
      = (parse_locations (_get data "locations" (YList []))
           (Py.or (_get data "upstream_host" (YStr "")) (YStr "127.0.0.1"))
           (_get data "upstream_port" (YStr ""))).1.
Proof.
  intros Hm [lowered Hl]%start_cmd_lower_has_lower.
  unfold parse_mapping. unfold required_of in Hm.
  destruct (parse_locations _ _ _) as [locations warnings].
  rewrite Hl. simpl. rewrite Hm. eauto.
Qed.

Lemma render_custom_locations_cons (loc : rule) (rest : list rule) :
  render_custom_locations (loc :: rest)
  = location_block loc +:+ Str.nl +:+ Str.nl +:+ render_custom_locations rest.
Proof.
  rewrite !render_custom_locations_cat. cbn [map]. unfold Str.cat. cbn [foldr].
  by rewrite !StrFacts.app_assoc.
Qed.

Lemma render_custom_locations_mid (before after : list rule) (loc : rule) :
  render_custom_locations (before ++ loc :: after)
  = render_custom_locations before
    +:+ location_block loc +:+ Str.nl +:+ Str.nl +:+ render_custom_locations after.
Proof.
  rewrite render_custom_locations_cat, map_app, StrFacts.cat_app.
  rewrite <- render_custom_locations_cat.
  change (Str.cat (map (λ loc0, location_block loc0 +:+ Str.nl +:+ Str.nl) (loc :: after)))
    with ((location_block loc +:+ Str.nl +:+ Str.nl)
          +:+ Str.cat (map (λ loc0, location_block loc0 +:+ Str.nl +:+ Str.nl) after)).
  by rewrite <- render_custom_locations_cat, !StrFacts.app_assoc.
Qed.

(** C7. An entry of [locations] that is a mapping with a truthy path and
    the boolean false under [proxy_pass] becomes a rule without proxy
    target, and the text [render_custom_locations] returns holds, at the
    place of the rule, its route block followed by an empty line: the
    opening line with the path, one indented line per line of its extra
    text, and the closing line, joined by line feeds, none of the five
    proxy directives being added.  Every line of a supplied extra text
    that holds more than white space is among the lines of the block,
    indented and stripped at the end.  An entry that is a mapping without
    a truthy path yields no rule, only the warning that names its
    position, and so does an entry that is no mapping; the text rendered
    is the one rendered without that entry.  Nothing here raises: with
    its required fields present a mapping parses to a record in strict
    mode as in lenient mode, its rules and warnings being those of
    [parse_locations]. *)
Theorem disabled_proxy_and_missing_path (entries : list yval) (host port : yval) :
  let dp := default_proxy host port in
  let rules := (parse_locations (YList entries) host port).1 in
  let warnings := (parse_locations (YList entries) host port).2 in
  (∀ kvs, YDict kvs ∈ entries →
     Py.truthy (Py.get "path" kvs) = true →
     Py.get "proxy_pass" kvs = YBool false →
     ∃ r before after,
       rules = before ++ r :: after
       ∧ path r = Str.strip (Py.str (Py.get "path" kvs))
       ∧ proxy_pass r = ""
       ∧ extra r = Str.rstrip (Py.str (Py.or (Py.get "extra" kvs) (YStr "")))
       ∧ location_lines r
         = ["    location " +:+ path r +:+ " {"]
           ++ map (λ raw, "        " +:+ Str.rstrip raw) (Str.splitlines (extra r))
           ++ ["    }"]
       ∧ render_custom_locations rules
         = render_custom_locations before
           +:+ Str.join Str.nl
                 (["    location " +:+ path r +:+ " {"]
                  ++ map (λ raw, "        " +:+ Str.rstrip raw) (Str.splitlines (extra r))
                  ++ ["    }"])
           +:+ Str.nl +:+ Str.nl
           +:+ render_custom_locations after
       ∧ (∀ text line, Py.get "extra" kvs = YStr text →
            line ∈ Str.splitlines text → Str.rstrip line ≠ "" →
            ("        " +:+ Str.rstrip line) ∈ location_lines r))
  ∧ (∀ i kvs, entries !! i = Some (YDict kvs) →
       Py.truthy (Py.get "path" kvs) = false →
       normalize_opt dp (YDict kvs) = None
       ∧ ("Ignoring locations[" +:+ Py.str_of_Z (Z.of_nat (S i)) +:+ "] (missing path)")
           ∈ warnings)
  ∧ (∀ i entry, entries !! i = Some entry →
       (∀ kvs, entry ≠ YDict kvs) →
       normalize_opt dp entry = None
       ∧ ("Ignoring locations[" +:+ Py.str_of_Z (Z.of_nat (S i)) +:+ "] (expected mapping)")
           ∈ warnings)
  ∧ rules = omap (normalize_opt dp) entries
  ∧ (∀ before entry after,
       entries = before ++ entry :: after →
       normalize_opt dp entry = None →
       rules = (parse_locations (YList (before ++ after)) host port).1
       ∧ render_custom_locations rules
         = render_custom_locations (parse_locations (YList (before ++ after)) host port).1)
  ∧ (∀ path_name data strict,
       _get data "locations" (YList []) = YList entries →
       Py.or (_get data "upstream_host" (YStr "")) (YStr "127.0.0.1") = host →
       _get data "upstream_port" (YStr "") = port →
       missing_of (required_of data) = [] →
       has_lower (_get data "start_cmd" (YStr "")) = true →
       ∃ s, parse_mapping path_name data strict = (warnings, Ok (Some s))
         ∧ LOCATIONS s = rules).
Proof.
  intros dp rules warnings. split_and!.
  - intros kvs Hin Hpath Hpp.
    set (r := normalize_entry kvs (Py.get "path" kvs) dp).
    assert (proxy_pass r = "") as Hr by by apply normalize_entry_disabled.
    apply list_elem_of_split in Hin as (l1 & l2 & Hsplit).
    assert (rules = omap (normalize_opt dp) l1 ++ r :: omap (normalize_opt dp) l2) as Hrules.
    { subst rules. rewrite parse_locations_rules, Hsplit, omap_app.
      cbn [omap list_omap normalize_opt]. by rewrite Hpath. }
    exists r, (omap (normalize_opt dp) l1), (omap (normalize_opt dp) l2).
    split_and!; [done|done|done|done|by apply location_lines_no_proxy| |].
    + rewrite Hrules, render_custom_locations_mid. unfold location_block.
      by rewrite (location_lines_no_proxy _ Hr).
    + intros text line He Hl Hs.
      rewrite (location_lines_no_proxy _ Hr). apply elem_of_app. right.
      apply elem_of_app. left.
      subst r. rewrite (normalize_entry_extra _ _ _ _ He).
      apply (LineFacts.splitlines_rstrip _ _ Hl) in Hs.
      apply list_elem_of_fmap in Hs as (raw & -> & Hraw).
      by apply (list_elem_of_fmap_2 (λ raw, "        " +:+ Str.rstrip raw)).
  - intros i kvs Hi Hpath. split; [simpl; by rewrite Hpath|].
    subst warnings. unfold parse_locations.
    destruct entries as [|e rest]; [done|]. cbn [Py.truthy negb].
    by apply (parse_locations_loop_warns 1 i (e :: rest) _ kvs).
  - intros i entry Hi He. split.
    { destruct entry as [| | | | |kvs]; try done. by destruct (He kvs). }
    subst warnings. unfold parse_locations.
    destruct entries as [|e rest]; [done|]. cbn [Py.truthy negb].
    by apply (parse_locations_loop_warns_other 1 i (e :: rest) _ entry).
  - apply parse_locations_rules.
  - intros before entry after -> Hnone.
    assert (rules = (parse_locations (YList (before ++ after)) host port).1) as Hrules.
    { subst rules. rewrite !parse_locations_rules, !omap_app.
      cbn [omap list_omap]. fold dp. by rewrite Hnone. }
    split; [done|]. by rewrite Hrules.
  - intros path_name data strict Hloc Hhost Hport Hm Hl.
    destruct (parse_mapping_complete path_name data strict Hm Hl) as (s & Hs & Hlocs).
    rewrite Hloc, Hhost, Hport in Hs, Hlocs. by exists s.
Qed.

(** ** The selection of descriptors (claim C6) *)

Lemma first_seen_elem_of (names : list string) (n : string) :
  n ∈ first_seen names ↔ n ∈ names.
Proof.
  induction names as [|m rest IH]; [done|]. simpl.
  rewrite !elem_of_cons, list_elem_of_filter, IH.
  destruct (decide (n = m)); naive_solver.
Qed.

Lemma first_seen_NoDup (names : list string) : NoDup (first_seen names).
Proof.
  induction names as [|m rest IH]; simpl; [constructor|].
  constructor; [|by apply NoDup_filter].
  rewrite list_elem_of_filter. naive_solver.
Qed.

(** The loop with its set of names seen is the first-seen list of the
    non-empty names, without those seen before. *)
Lemma uniq_loop_first_seen (seen : gset string) (selected : list string) :
  uniq_loop seen selected
  = filter (λ n, n ∉ seen) (first_seen (filter (λ n, n ≠ "") selected)).
Proof.
  revert seen. induction selected as [|name rest IH]; intros seen; [done|].
  simpl. destruct (Str.nonempty name) eqn:Hne; simpl.
  - apply StrFacts.nonempty_true in Hne.
    rewrite (filter_cons_True (λ n, n ≠ "")) by done. simpl.
    destruct (decide (name ∈ seen)) as [Hin|Hnin].
    + rewrite filter_cons_False by (intros H; by apply H).
      rewrite IH, list_filter_filter. apply list_filter_iff. intros n. set_solver.
    + rewrite filter_cons_True by done. f_equal.
      rewrite IH, list_filter_filter. apply list_filter_iff. intros n. set_solver.
  - apply StrFacts.nonempty_false in Hne.
    rewrite (filter_cons_False (λ n, n ≠ "")) by (intros H; by apply H). apply IH.
Qed.

Lemma resolve_loop_spec (ROOT : string) (files : gmap string string) (uniq : list string) :
  resolve_loop ROOT files uniq
  = (filter (λ n, files !! pjoin (SERVICES_DIR ROOT) (n +:+ ".yml") = None) uniq,
     map (λ n, pjoin (SERVICES_DIR ROOT) (n +:+ ".yml"))
       (filter (λ n, is_Some (files !! pjoin (SERVICES_DIR ROOT) (n +:+ ".yml"))) uniq)).
Proof.
  induction uniq as [|name rest IH]; [done|].
  simpl. rewrite IH. rewrite !filter_cons.
  destruct (files !! pjoin (SERVICES_DIR ROOT) (name +:+ ".yml")) as [content|] eqn:E.
  - rewrite bool_decide_true by eauto.
    rewrite decide_False by done. rewrite decide_True by eauto. done.
  - rewrite bool_decide_false by (by intros [? ?]).
    rewrite decide_True by done. rewrite decide_False by (by intros [? ?]). done.
Qed.

Lemma filter_none_nil {A B : Type} (f : A → option B) (l : list A) :
  filter (λ x, f x = None) l = [] → filter (λ x, is_Some (f x)) l = l.
Proof.
  induction l as [|x l IH]; [done|]. rewrite !filter_cons.
  destruct (f x) as [y|] eqn:E.
  - rewrite decide_False by done. rewrite decide_True by eauto. intros H. by rewrite IH.
  - by rewrite decide_True by done.
Qed.

(** [c in a + b] for one code point. *)
Lemma contains_char_app (c : ascii) (a b : string) :
  Str.contains (String c "") (a +:+ b)
  = Str.contains (String c "") a || Str.contains (String c "") b.
Proof.
  induction a as [|d a IH].
  - rewrite StrFacts.app_nil_l. simpl. done.
  - rewrite StrFacts.app_cons. cbn [Str.contains Str.startswith]. rewrite IH.
    destruct (decide (c = d)); [done|]. by destruct a, b.
Qed.

(** Joining a directory with a single component gives the directory, a
    slash and the component. *)
Lemma pjoin_plain (a b : string) :
  Str.contains "/" b = false → pjoin a b = a +:+ "/" +:+ b.
Proof.
  intros Hb. unfold pjoin.
  destruct b as [|c b]; [done|]. simpl in Hb. apply orb_false_iff in Hb as [Hb _].
  simpl. by rewrite Hb.
Qed.

Lemma descriptor_file_plain (ROOT name : string) :
  Str.contains "/" name = false →
  pjoin (SERVICES_DIR ROOT) (name +:+ ".yml") = descriptor_file ROOT name.
Proof.
  intros Hn. apply pjoin_plain. by rewrite contains_char_app, Hn.
Qed.

Lemma uniq_loop_Forall (P : string → Prop) (seen : gset string) (selected : list string) :
  Forall P selected → Forall P (uniq_loop seen selected).
Proof.
  intros H. revert seen. induction H as [|name rest Hn _ IH]; intros seen; [done|].
  simpl. destruct (negb (Str.nonempty name)); [apply IH|].
  destruct (decide (name ∈ seen)); [apply IH|]. constructor; [done|apply IH].
Qed.

(** The second loop over names without a slash, each standing for its
    file in the services directory. *)
Lemma resolve_loop_plain (ROOT : string) (files : gmap string string) (uniq : list string) :
  Forall (λ n, Str.contains "/" n = false) uniq →
  resolve_loop ROOT files uniq
  = (filter (λ n, files !! descriptor_file ROOT n = None) uniq,
     map (descriptor_file ROOT)
       (filter (λ n, is_Some (files !! descriptor_file ROOT n)) uniq)).
Proof.
  induction 1 as [|name rest Hn _ IH]; [done|].
  simpl. rewrite IH, (descriptor_file_plain _ _ Hn). rewrite !filter_cons.
  destruct (files !! descriptor_file ROOT name) as [content|] eqn:E.
  - rewrite bool_decide_true by eauto.
    rewrite decide_False by done. rewrite decide_True by eauto. done.
  - rewrite bool_decide_false by (by intros [? ?]).
    rewrite decide_True by done. rewrite decide_False by (by intros [? ?]). done.
Qed.

(** C6, as amended. For an explicit selection of names without a slash,
    each standing for the file [<name>.yml] directly in the services
    directory, [load_services] first reduces the requested names to the
    list [uniq]: the non-empty names, each once, in the order in which
    they are first seen; an empty name is passed over.  If the file of any
    name of [uniq] is missing the call raises [SystemExit] with one
    message that lists every missing name, and returns no path; otherwise
    it returns the path of each name of [uniq], in that order.  The state
    is left as it was. *)
Theorem load_services_selection (ROOT : string) (selected : list string) (st : state) :
  selected ≠ [] →
  Forall (λ n, Str.contains "/" n = false) selected →
  let uniq := uniq_loop ∅ selected in
  let path_of := descriptor_file ROOT in
  let missing := filter (λ n, fs st !! path_of n = None) uniq in
  uniq = first_seen (filter (λ n, n ≠ "") selected)
  ∧ NoDup uniq
  ∧ (∀ n, n ∈ uniq ↔ n ∈ selected ∧ n ≠ "")
  ∧ (∀ n, n ∈ missing ↔ n ∈ uniq ∧ fs st !! path_of n = None)
  ∧ (missing ≠ [] →
       load_services ROOT (Some selected) st
       = (Raise (SystemExit ("Service file(s) not found in " +:+ SERVICES_DIR ROOT +:+ ": "
                             +:+ Str.join ", " missing)), st))
  ∧ (missing = [] →
       load_services ROOT (Some selected) st = (Ok (map path_of uniq), st)).
Proof.
  intros Hsel Hplain uniq path_of missing.
  assert (uniq = first_seen (filter (λ n, n ≠ "") selected)) as Huniq.
  { subst uniq. rewrite uniq_loop_first_seen.
    induction (first_seen _) as [|x l IH]; [done|].
    rewrite filter_cons_True by set_solver. by rewrite IH. }
  pose proof (uniq_loop_Forall _ ∅ _ Hplain) as Hu. fold uniq in Hu.
  split_and!.
  - done.
  - rewrite Huniq. apply first_seen_NoDup.
  - intros n. rewrite Huniq, first_seen_elem_of, list_elem_of_filter. naive_solver.
  - intros n. subst missing. rewrite list_elem_of_filter. naive_solver.
  - intros Hm. destruct selected as [|name rest]; [done|].
    unfold load_services. fold uniq. unfold mbind, M_bind, get_files.
    rewrite (resolve_loop_plain _ _ _ Hu). subst missing path_of. cbv beta in *.
    by destruct (filter _ uniq).
  - intros Hm. destruct selected as [|name rest]; [done|].
    unfold load_services. fold uniq. unfold mbind, M_bind, get_files.
    rewrite (resolve_loop_plain _ _ _ Hu). subst missing path_of. cbv beta in *. rewrite Hm.
    unfold mret, M_ret. do 3 f_equal.
    by apply (filter_none_nil (λ n, fs st !! descriptor_file ROOT n)).
Qed.

(** ** Lemmas on str.replace *)

Module ReplaceFacts.
Import Str StrFacts.

Lemma startswith_short (x y z : string) :
  startswith x (y +:+ z) = true → (String.length x ≤ String.length y)%nat →
  startswith x y = true.
Proof.
  revert y. induction x as [|c x IH]; intros y H Hlen; [done|].
  destruct y as [|d y]; [simpl in Hlen; lia|].
  rewrite app_cons in H. simpl in H |- *.
  destruct (decide (c = d)); [|done]. apply IH; [done|]. simpl in Hlen. lia.
Qed.

Lemma contains_cons_false (x : string) (c : ascii) (s : string) :
  contains x (String c s) = false →
  startswith x (String c s) = false ∧ contains x s = false.
Proof. simpl. intros H. by apply orb_false_iff in H. Qed.

Lemma contains_startswith (x s : string) :
  contains x s = false → startswith x s = false.
Proof. destruct s; simpl; intros H; by apply orb_false_iff in H as [? _]. Qed.

Lemma replace_go_skip (old new s t : string) :
  replace_go old new (String.length s) (s +:+ t) = replace_go old new O t.
Proof.
  induction s as [|c s IH]; [by destruct t|]. rewrite app_cons. done.
Qed.

(** Where the text to replace does not occur, nothing changes. *)
Lemma replace_go_absent (old new s : string) :
  contains old s = false → replace_go old new O s = s.
Proof.
  induction s as [|c s IH]; [done|].
  intros [Hs Hc]%contains_cons_false. simpl in Hs |- *.
  destruct old as [|a old]; [done|]. rewrite Hs. by rewrite IH.
Qed.

(** The first occurrence: the text before it is kept, the replacement is
    put in its place, and the search goes on behind the occurrence, so
    what was put in is not read again. *)
Lemma replace_go_first (p : string) (c : ascii) (new a b : string) :
  let old := p +:+ String c "" in
  contains old (a +:+ p) = false →
  replace_go old new O (a +:+ old +:+ b) = a +:+ new +:+ replace_go old new O b.
Proof.
  intros old. induction a as [|d a IH]; intros Ha.
  - rewrite !app_nil_l.
    assert (∃ e old', old = String e old') as (e & old' & Hold).
    { subst old. destruct p; simpl; eauto. }
    assert (startswith old (old +:+ b) = true) as Hs by apply startswith_app.
    rewrite Hold in Hs |- *. rewrite app_cons in Hs |- *.
    cbn [replace_go]. rewrite Hs.
    replace (String.length (String e old') - 1)%nat with (String.length old')
      by (simpl; lia).
    by rewrite replace_go_skip.
  - rewrite app_cons in Ha. apply contains_cons_false in Ha as [Hs Ha].
    rewrite !app_cons. cbn [replace_go].
    destruct (startswith old (String d (a +:+ old +:+ b))) eqn:E.
    + exfalso. rewrite <- app_cons in E, Hs.
      assert (String d a +:+ old +:+ b = (String d a +:+ p) +:+ String c b) as Heq.
      { subst old. by rewrite !app_assoc. }
      rewrite Heq in E. apply startswith_short in E; [congruence|].
      subst old. rewrite !length_app. simpl. lia.
    + by rewrite IH.
Qed.

Lemma token_snoc (key : string) : token key = token_open key +:+ "_".
Proof. unfold token, token_open. by rewrite !app_assoc. Qed.

Lemma replace_token (key val s : string) :
  replace (token key) val s = replace_go (token key) val O s.
Proof. done. Qed.

End ReplaceFacts.

(** ** The template renderer (claim C8) *)

Lemma substitute_app (content : string) (r1 r2 : list (string * yval)) :
  substitute content (r1 ++ r2)
  = match substitute content r1 with
    | Ok mid => substitute mid r2
    | Raise e => Raise e
    end.
Proof.
  revert content. induction r1 as [|[key v] r1 IH]; intros content; [done|].
  simpl. destruct v; done.
Qed.

Lemma substitute_all_text (content : string) (replacements : list (string * yval)) :
  all_text replacements → ∃ out, substitute content replacements = Ok out.
Proof.
  revert content. induction replacements as [|[key v] rest IH]; intros content Ht.
  - by exists content.
  - apply Forall_cons in Ht as [[val Hv] Ht]. simpl in Hv. subst v. simpl. by apply IH.
Qed.

Lemma substitute_absent (content : string) (replacements : list (string * yval)) :
  all_text replacements →
  (∀ key, key ∈ replacements.*1 → Str.contains (token key) content = false) →
  substitute content replacements = Ok content.
Proof.
  induction replacements as [|[key v] rest IH]; intros Ht Habs; [done|].
  apply Forall_cons in Ht as [[val Hv] Ht]. simpl in Hv. subst v. cbn [substitute].
  rewrite ReplaceFacts.replace_token, ReplaceFacts.replace_go_absent.
  - apply IH; [done|]. intros k Hk. apply Habs. simpl. by right.
  - apply Habs. simpl. left.
Qed.

(** Reading in text mode changes nothing in a text without carriage
    return. *)
Lemma universal_newlines_id (s : string) :
  Str.contains (String "013" "") s = false → Str.universal_newlines s = s.
Proof.
  induction s as [|c s IH]; [done|]. intros Hs.
  apply ReplaceFacts.contains_cons_false in Hs as [Hc Hs].
  cbn [Str.universal_newlines]. simpl in Hc.
  destruct (decide (c = "013"%char)) as [->|Hne].
  - by rewrite decide_True in Hc.
  - by rewrite IH.
Qed.

(** C8, as amended. For a template that exists and replacements that are
    all texts, [render_template] reads the template in text mode (its line
    breaks are read as line feeds, and a template without carriage return
    is read as it is stored) and writes to the destination the text [out]
    that the entries produce from the text read, one after the other, in
    the order of the mapping: each entry works on the text the entries
    before it produced, so the token of a later entry is replaced also
    where an earlier replacement text brought it in.  One entry replaces
    its token as [str.replace] does: where the token does not occur the
    text is left as it is; otherwise the text before the first occurrence
    is kept, the replacement text stands in place of the token, and the
    search goes on behind the token, without reading the replacement
    text.  A template in which the token of no entry occurs is written
    out as it was read, tokens of other names included. *)
Theorem render_template_sequential (template_path dest_path stored : string)
    (replacements : list (string * yval)) (st : state) :
  fs st !! template_path = Some stored →
  all_text replacements →
  let content := Str.universal_newlines stored in
  ∃ out, substitute content replacements = Ok out
    ∧ render_template template_path dest_path replacements st
      = (Ok (), {| fs := <[dest_path := out]> (fs st);
                   stdout := stdout st; stderr := stderr st |})
    ∧ (∀ r1 key val r2, replacements = r1 ++ (key, YStr val) :: r2 →
         ∃ before, substitute content r1 = Ok before
           ∧ substitute (Str.replace (token key) val before) r2 = Ok out)
    ∧ (∀ key val s, Str.contains (token key) s = false →
         Str.replace (token key) val s = s)
    ∧ (∀ key val a b, Str.contains (token key) (a +:+ token_open key) = false →
         Str.replace (token key) val (a +:+ token key +:+ b)
         = a +:+ val +:+ Str.replace (token key) val b)
    ∧ ((∀ key, key ∈ replacements.*1 → Str.contains (token key) content = false) →
         out = content)
    ∧ (Str.contains (String "013" "") stored = false → content = stored).
Proof.
  intros Hf Ht content. destruct (substitute_all_text content _ Ht) as [out Hout].
  exists out. split_and!.
  - done.
  - unfold render_template, mbind, M_bind, read_text. rewrite Hf. fold content.
    rewrite Hout. done.
  - intros r1 key val r2 ->. rewrite substitute_app in Hout.
    destruct (substitute content r1) as [before|e]; [|done]. by exists before.
  - intros key val s Hs. rewrite ReplaceFacts.replace_token.
    by apply ReplaceFacts.replace_go_absent.
  - intros key val a b Ha. rewrite !ReplaceFacts.replace_token.
    rewrite ReplaceFacts.token_snoc in *.
    by apply (ReplaceFacts.replace_go_first (token_open key) "_").
  - intros Habs. rewrite substitute_absent in Hout by done. congruence.
  - apply universal_newlines_id.
Qed.

(** ** Rendering twice (claim C9) *)

Lemma pjoin_last (a b : string) (c : ascii) :
  Str.last b = Some c → Str.last (pjoin a b) = Some c.
Proof.
  intros Hb. unfold pjoin. destruct (Str.startswith "/" b); [done|].
  destruct b as [|d b]; [done|].
  rewrite <- StrFacts.app_assoc. by rewrite StrFacts.last_app_cons.
Qed.

Lemma last_suffix (x : string) (d : ascii) (suffix : string) :
  Str.last (x +:+ String d suffix) = Str.last (String d suffix).
Proof. apply StrFacts.last_app_cons. Qed.

Lemma last_ne (p q : string) : Str.last p ≠ Str.last q → p ≠ q.
Proof. congruence. Qed.

Section render_twice.
Variable ROOT : string.
Variable svc : service.

Let T1 := pjoin (TEMPLATE_DIR ROOT) "nginx.conf.tmpl".
Let T2 := pjoin (TEMPLATE_DIR ROOT) "systemd.service.tmpl".
Let D1 := nginx_conf ROOT svc.
Let D2 := systemd_unit ROOT svc.

Lemma template_last : Str.last T1 = Some "l"%char ∧ Str.last T2 = Some "l"%char.
Proof. split; by apply pjoin_last. Qed.

Lemma nginx_conf_last : Str.last D1 = Some "f"%char.
Proof. apply pjoin_last. by rewrite last_suffix. Qed.

Lemma systemd_unit_last : Str.last D2 = Some "e"%char.
Proof. apply pjoin_last. by rewrite last_suffix. Qed.

(** The outputs are no templates, and differ from each other. *)
Lemma paths_apart : T1 ≠ D1 ∧ T1 ≠ D2 ∧ T2 ≠ D1 ∧ T2 ≠ D2 ∧ D1 ≠ D2.
Proof.
  destruct template_last as [H1 H2].
  pose proof nginx_conf_last as H3. pose proof systemd_unit_last as H4.
  split_and!; apply last_ne; congruence.
Qed.

Lemma nginx_replacements_text : all_text (nginx_replacements svc).
Proof.
  unfold nginx_replacements.
  destruct (build_nginx_blocks _ _ _) as [[root_directive location_root] fallback_location].
  unfold build_server_blocks. repeat constructor; simpl; eauto.
Qed.

(** [render_service] in terms of the files it starts from. *)
Lemma render_service_unfold (st : state) :
  render_service ROOT svc st
  = match fs st !! T1 with
    | None => (Raise FileNotFoundError, st)
    | Some c1 =>
        match substitute (Str.universal_newlines c1) (nginx_replacements svc) with
        | Raise e => (Raise e, st)
        | Ok o1 =>
            let st1 := {| fs := <[D1 := o1]> (fs st);
                          stdout := stdout st; stderr := stderr st |} in
            match fs st !! T2 with
            | None => (Raise FileNotFoundError, st1)
            | Some c2 =>
                match substitute (Str.universal_newlines c2) (systemd_replacements svc) with
                | Raise e => (Raise e, st1)
                | Ok o2 =>
                    (Ok (), {| fs := <[D2 := o2]> (<[D1 := o1]> (fs st));
                               stdout := stdout st; stderr := stderr st |})
                end
            end
        end
    end.
Proof.
  destruct paths_apart as (_ & _ & H21 & _ & _).
  unfold render_service, render_template, mbind, M_bind, read_text, write_text, raise.
  fold T1 T2 D1 D2.
  generalize (nginx_replacements svc), (systemd_replacements svc). intros R1 R2.
  destruct (fs st !! T1) as [c1|]; [|done].
  destruct (substitute _ R1) as [o1|e]; [|done]. simpl.
  rewrite lookup_insert_ne by done.
  destruct (fs st !! T2) as [c2|]; [|done].
  by destruct (substitute _ R2) as [o2|e].
Qed.

End render_twice.

(** C9. Rendering a descriptor is repeatable.  Rendering it a second
    time, on the state the first rendering left, ends in the same way and
    leaves every file, the two outputs included, and both streams as they
    were.  And from any two states whose two templates have the same
    content, rendering the descriptor ends in the same way and leaves the
    same content in the nginx file and in the unit file. *)
Theorem render_service_repeatable (ROOT : string) (service : service) (st : state) :
  (render_service ROOT service (render_service ROOT service st).2
   = ((render_service ROOT service st).1, (render_service ROOT service st).2))
  ∧ (∀ st',
       fs st' !! pjoin (TEMPLATE_DIR ROOT) "nginx.conf.tmpl"
         = fs st !! pjoin (TEMPLATE_DIR ROOT) "nginx.conf.tmpl" →
       fs st' !! pjoin (TEMPLATE_DIR ROOT) "systemd.service.tmpl"
         = fs st !! pjoin (TEMPLATE_DIR ROOT) "systemd.service.tmpl" →
       (render_service ROOT service st').1 = (render_service ROOT service st).1
       ∧ ((render_service ROOT service st).1 = Ok () →
            fs (render_service ROOT service st').2 !! nginx_conf ROOT service
              = fs (render_service ROOT service st).2 !! nginx_conf ROOT service
            ∧ fs (render_service ROOT service st').2 !! systemd_unit ROOT service
              = fs (render_service ROOT service st).2 !! systemd_unit ROOT service)).
Proof.
  destruct (paths_apart ROOT service) as (H11 & H12 & H21 & H22 & Hd).
  assert (∀ st0, render_service ROOT service st0 = _) as Hun
    by exact (render_service_unfold ROOT service).
  revert Hun.
  generalize (nginx_replacements service), (systemd_replacements service).
  intros R1 R2 Hun.
  split.
  - rewrite (Hun st).
    destruct (fs st !! _) as [c1|] eqn:E1.
    2: { simpl. rewrite Hun. by rewrite E1. }
    destruct (substitute _ R1) as [o1|e] eqn:S1.
    2: { simpl. rewrite Hun. by rewrite E1, S1. }
    cbv zeta.
    destruct (fs st !! pjoin (TEMPLATE_DIR ROOT) "systemd.service.tmpl") as [c2|] eqn:E2.
    2: { simpl. rewrite Hun. simpl.
         rewrite !lookup_insert_ne by done. rewrite E1, S1, E2.
         by rewrite insert_insert_eq. }
    destruct (substitute _ R2) as [o2|e] eqn:S2.
    2: { simpl. rewrite Hun. simpl.
         rewrite !lookup_insert_ne by done. rewrite E1, S1, E2, S2.
         by rewrite insert_insert_eq. }
    simpl. rewrite Hun. simpl.
    rewrite !lookup_insert_ne by done. rewrite E1, S1, E2, S2.
    do 2 f_equal.
    rewrite (insert_id _ (nginx_conf ROOT service) o1).
    + apply insert_insert_eq.
    + rewrite lookup_insert_ne by congruence. apply lookup_insert_eq.
  - intros st' Ht1 Ht2.
    rewrite (Hun st), (Hun st').
    rewrite Ht1, Ht2.
    destruct (fs st !! _) as [c1|]; [|done].
    destruct (substitute _ R1) as [o1|e]; [|done]. cbv zeta.
    destruct (fs st !! pjoin (TEMPLATE_DIR ROOT) "systemd.service.tmpl") as [c2|]; [|done].
    destruct (substitute _ R2) as [o2|e]; [|done]. simpl.
    split; [done|]. intros _.
    rewrite !lookup_insert_eq.
    rewrite !(lookup_insert_ne _ (systemd_unit ROOT service) (nginx_conf ROOT service))
      by congruence.
    by rewrite !lookup_insert_eq.
Qed.

(** ** The exit status (claim C5) *)

Lemma substitute_raises (content : string) (replacements : list (string * yval)) (e : exn) :
  substitute content replacements = Raise e → e = TypeError.
Proof.
  revert content. induction replacements as [|[key v] rest IH]; intros content; [done|].
  simpl. destruct v; try (by intros [= <-]). apply IH.
Qed.

Lemma render_service_raises (ROOT : string) (s : service) (st st' : state) (e : exn) :
  render_service ROOT s st = (Raise e, st') → uncaught e.
Proof.
  rewrite render_service_unfold.
  destruct (fs st !! _) as [c1|]; [|by intros [= <- _] msg].
  destruct (substitute (Str.universal_newlines c1) _) as [o1|e1] eqn:S1.
  2: { intros [= <- _] msg. by rewrite (substitute_raises _ _ _ S1). }
  cbv zeta.
  destruct (fs st !! _) as [c2|]; [|by intros [= <- _] msg].
  destruct (substitute (Str.universal_newlines c2) _) as [o2|e2] eqn:S2; [done|].
  intros [= <- _] msg. by rewrite (substitute_raises _ _ _ S2).
Qed.

Lemma parse_mapping_lenient_raises (path_name : string) (data : list (string * yval))
    (printed : list string) (e : exn) :
  parse_mapping path_name data false = (printed, Raise e) → uncaught e.
Proof.
  unfold parse_mapping.
  destruct (parse_locations _ _ _) as [locations warnings].
  unfold start_cmd_lower.
  destruct (Py.or _ _); try (by intros [= _ <-] msg).
  by destruct (missing_of _).
Qed.

Lemma parse_service_lenient_raises (safe_load : string → string + yval) (path : string)
    (st st' : state) (e : exn) :
  parse_service safe_load path false st = (Raise e, st') → uncaught e.
Proof.
  unfold parse_service, parse_loaded.
  destruct (match fs st !! path with Some _ => _ | None => _ end) as [exc|v]; [done|].
  destruct (Py.or v (YDict [])) as [| | | | |data]; try done.
  destruct (parse_mapping _ data false) as [printed r] eqn:E.
  intros [= -> _]. by apply parse_mapping_lenient_raises in E.
Qed.

Lemma render_all_lenient_raises (ROOT : string) (safe_load : string → string + yval)
    (svc_files : list string) (st st' : state) (e : exn) :
  render_all ROOT safe_load false svc_files st = (Raise e, st') → uncaught e.
Proof.
  revert st st'. induction svc_files as [|svc_file rest IH]; intros st st'; [done|].
  simpl. unfold mbind, M_bind.
  destruct (parse_service safe_load svc_file false st) as [[parsed|e0] st0] eqn:Hp.
  2: { intros [= <- _]. by apply parse_service_lenient_raises in Hp. }
  destruct parsed as [parsed|]; [|apply IH].
  destruct (render_service ROOT parsed st0) as [[[]|e1] st1] eqn:Hr.
  2: { intros [= <- _]. by apply render_service_raises in Hr. }
  unfold print, prints. 
  destruct (render_all ROOT safe_load false rest _) as [[rendered|e2] st2] eqn:Ha; [done|].
  intros [= <- _]. by apply IH in Ha.
Qed.

Lemma load_services_lenient (ROOT : string) (selected : option (list string)) (st : state) :
  strict_of selected = false →
  ∃ svc_files st', load_services ROOT selected st = (Ok svc_files, st').
Proof.
  intros Hs.
  assert (load_services ROOT selected st = load_services ROOT None st) as ->.
  { by destruct selected as [[|name rest]|]. }
  unfold load_services, mbind, M_bind, get_files.
  destruct (merge_sort _ _); eauto.
Qed.

(** Writing keeps the files there are; a successful rendering leaves the
    two files of the descriptor. *)
Lemma render_service_outputs (ROOT : string) (s : service) (st st' : state) :
  render_service ROOT s st = (Ok (), st') →
  is_Some (fs st' !! nginx_conf ROOT s)
  ∧ is_Some (fs st' !! systemd_unit ROOT s)
  ∧ (∀ p, is_Some (fs st !! p) → is_Some (fs st' !! p)).
Proof.
  rewrite render_service_unfold.
  destruct (fs st !! _) as [c1|]; [|done].
  destruct (substitute (Str.universal_newlines c1) _) as [o1|e1]; [|done]. cbv zeta.
  destruct (fs st !! _) as [c2|]; [|done].
  destruct (substitute (Str.universal_newlines c2) _) as [o2|e2]; [|done].
  intros [= <-]. simpl. split_and!.
  - destruct (decide (systemd_unit ROOT s = nginx_conf ROOT s)) as [->|].
    + rewrite lookup_insert_eq. eauto.
    + rewrite lookup_insert_ne, lookup_insert_eq by done. eauto.
  - rewrite lookup_insert_eq. eauto.
  - intros p Hp. rewrite !lookup_insert. repeat case_decide; eauto.
Qed.

Lemma render_all_outputs (ROOT : string) (safe_load : string → string + yval)
    (strict : bool) (svc_files : list string) (st st' : state) (rendered : list yval) :
  render_all ROOT safe_load strict svc_files st = (Ok rendered, st') →
  (∀ p, is_Some (fs st !! p) → is_Some (fs st' !! p))
  ∧ (∀ name, name ∈ rendered →
       is_Some (fs st' !! pjoin (NGINX_OUT ROOT) (Py.str name +:+ ".conf"))
       ∧ is_Some (fs st' !! pjoin (SYSTEMD_OUT ROOT) (Py.str name +:+ ".service"))).
Proof.
  revert st st' rendered.
  induction svc_files as [|svc_file rest IH]; intros st st' rendered.
  - intros [= <- <-]. split; [done|]. by intros name ?%elem_of_nil.
  - simpl. unfold mbind, M_bind.
    pose proof (parse_service_state safe_load svc_file strict st) as [Hfs _].
    destruct (parse_service safe_load svc_file strict st) as [[parsed|e0] st0]; [|done].
    simpl in Hfs.
    destruct parsed as [parsed|].
    { destruct (render_service ROOT parsed st0) as [[[]|e1] st1] eqn:Hr; [|done].
      apply render_service_outputs in Hr as (Hn & Hs & Hkeep).
      unfold print, prints.
      destruct (render_all ROOT safe_load strict rest _) as [[rendered'|e2] st2] eqn:Ha;
        [|done].
      intros [= <- <-]. apply IH in Ha as [Hkeep' Hout]. simpl in Hkeep'. split.
      - intros p Hp. apply Hkeep', Hkeep. by rewrite Hfs.
      - intros name [->|Hin]%elem_of_cons; [|by apply Hout].
        split; by apply Hkeep'. }
    intros Ha. apply IH in Ha as [Hkeep' Hout]. split; [|done].
    intros p Hp. apply Hkeep'. by rewrite Hfs.
Qed.

(** C5, as amended. The status [main] returns is 0.  Once the loop over
    the descriptors has completed, the run fails, with [SystemExit] and the
    message that nothing was rendered, exactly when it is strict and the
    list of rendered descriptors is empty; it returns 0 exactly when it is
    lenient or that list is not empty, so a lenient run that rendered
    nothing succeeds.  Every descriptor in the list has its nginx file and
    its unit file.  A lenient run never raises [SystemExit]; a strict run
    that returns 0 rendered at least one descriptor.  (A strict run raises
    [SystemExit] from [load_services] or [parse_service] before the loop
    completes, whatever was rendered until then.) *)
Theorem main_exit_status (ROOT : string) (safe_load : string → string + yval)
    (selected : option (list string)) (st : state) :
  let strict := strict_of selected in
  let r := (main ROOT safe_load selected st).1 in
  (∀ code, r = Ok code → code = 0)
  ∧ (strict = false → ∀ msg, r ≠ Raise (SystemExit msg))
  ∧ (∀ svc_files st1 rendered st2,
       load_services ROOT selected st = (Ok svc_files, st1) →
       render_all ROOT safe_load strict svc_files st1 = (Ok rendered, st2) →
       (r = Raise (SystemExit "No services rendered.") ↔ strict = true ∧ rendered = [])
       ∧ (r = Ok 0 ↔ strict = false ∨ rendered ≠ [])
       ∧ (∀ name, name ∈ rendered →
            is_Some (fs st2 !! pjoin (NGINX_OUT ROOT) (Py.str name +:+ ".conf"))
            ∧ is_Some (fs st2 !! pjoin (SYSTEMD_OUT ROOT) (Py.str name +:+ ".service"))))
  ∧ (strict = true → r = Ok 0 →
       ∃ svc_files st1 rendered st2,
         load_services ROOT selected st = (Ok svc_files, st1)
         ∧ render_all ROOT safe_load strict svc_files st1 = (Ok rendered, st2)
         ∧ rendered ≠ []).
Proof.
  intros strict r. subst r. unfold main. fold strict. unfold mbind, M_bind.
  split_and!.
  - intros code.
    destruct (load_services ROOT selected st) as [[svc_files|e] st1]; [|done].
    destruct (render_all ROOT safe_load strict svc_files st1) as [[rendered|e] st2]; [|done].
    destruct rendered; [destruct strict|]; simpl; congruence.
  - intros Hs msg.
    destruct (load_services_lenient ROOT selected st Hs) as (svc_files & st1 & ->).
    rewrite Hs.
    destruct (render_all ROOT safe_load false svc_files st1) as [[rendered|e] st2] eqn:Ha.
    + by destruct rendered.
    + simpl. intros [= ->]. apply render_all_lenient_raises in Ha. by apply (Ha msg).
  - intros svc_files st1 rendered st2 -> Ha. rewrite Ha. split_and!.
    + destruct rendered; [destruct strict|]; simpl; naive_solver.
    + destruct rendered; [destruct strict|]; simpl; naive_solver.
    + by apply render_all_outputs in Ha as [_ ?].
  - intros Hs.
    destruct (load_services ROOT selected st) as [[svc_files|e] st1]; [|done].
    destruct (render_all ROOT safe_load strict svc_files st1)
      as [[rendered|e] st2] eqn:Ha; [|done].
    rewrite Hs in Ha |- *. destruct rendered as [|name rendered]; [by simpl|].
    intros _. by exists svc_files, st1, (name :: rendered), st2.
Qed.

(** ** The plain segment of a descriptor served over TLS (claim C1) *)

(** [server_body] is only ever called with [include_tls=False], so its
    second alternative, the redirect, is never taken: the plain segment is
    the application body whatever the descriptor says. *)
Lemma http_block_is_app_body (s : service)
    (root_directive location_root fallback_location extra_locations : string) :
  (build_server_blocks s root_directive location_root fallback_location extra_locations).1
  = plain_app_body s location_root fallback_location extra_locations.
Proof. unfold build_server_blocks, server_body. simpl. by rewrite orb_true_r. Qed.

Lemma https_block_paths (s : service)
    (root_directive location_root fallback_location extra_locations : string) :
  ALLOW_PLAIN_HTTP s = false →
  let https_block :=
    (build_server_blocks s root_directive location_root fallback_location extra_locations).2 in
  Str.contains
    (Str.cat ["    ssl_certificate /etc/letsencrypt/live/"; Py.str (DOMAIN s);
              "/fullchain.pem;"]) https_block = true
  ∧ Str.contains
      (Str.cat ["    ssl_certificate_key /etc/letsencrypt/live/"; Py.str (DOMAIN s);
                "/privkey.pem;"]) https_block = true.
Proof.
  intros Ha. unfold build_server_blocks. rewrite Ha. cbn [negb snd]. unfold tls_body.
  split.
  - cat_slice 13%nat 3%nat.
  - cat_slice 17%nat 3%nat.
Qed.

(** C1, evaluated on the descriptor of the end-to-end scenario, which
    leaves [allow_plain_http] at its default.  The encrypted segment holds
    the two certificate paths under the domain, as the claim says.  The
    plain segment, however, holds the challenge passthrough followed by
    the main route with its proxy directive and the health stub, and no
    redirect: the redirect alternative of [server_body] is not reached. *)
Theorem tls_descriptor_plain_segment_serves_app :
  let s := Example.record_of Example.api in
  ALLOW_PLAIN_HTTP s = false
  ∧ ∃ http_block https_block,
      nginx_replacements s = [("HTTP_BLOCK", YStr http_block); ("HTTPS_BLOCK", YStr https_block)]
      ∧ Str.contains "location /.well-known/acme-challenge/" http_block = true
      ∧ Str.contains "return 301" http_block = false
      ∧ Str.contains "# Main location" http_block = true
      ∧ Str.contains "proxy_pass http://127.0.0.1:8080;" http_block = true
      ∧ Str.contains "# Health endpoint" http_block = true
      ∧ http_block ≠ plain_redirect_body s
      ∧ Str.contains "ssl_certificate /etc/letsencrypt/live/api.example.com/fullchain.pem;"
          https_block = true
      ∧ Str.contains "ssl_certificate_key /etc/letsencrypt/live/api.example.com/privkey.pem;"
          https_block = true.
Proof.
  intros s. split; [reflexivity|]. eexists _, _. split; [vm_compute; reflexivity|].
  split_and!; try (vm_compute; reflexivity). vm_compute. discriminate.
Qed.

(** ** The theorems at work on the example descriptors *)

(** C2 on a descriptor with a static root and on one without. *)
Lemma build_nginx_blocks_bifurcates_witness :
  (let s := Example.record_of Example.site in
   (build_nginx_blocks (STATIC_ROOT s) (UPSTREAM_HOST s) (UPSTREAM_PORT s)).2 ≠ "")
  ∧ (let s := Example.record_of Example.api in
     (build_nginx_blocks (STATIC_ROOT s) (UPSTREAM_HOST s) (UPSTREAM_PORT s)).2 = "").
Proof.
  split; intros s.
  - pose proof (build_nginx_blocks_bifurcates s) as H.
    destruct (build_nginx_blocks _ _ _) as [[root_directive location_root] fallback_location].
    destruct H as [H _]. by apply H.
  - pose proof (build_nginx_blocks_bifurcates s) as H.
    destruct (build_nginx_blocks _ _ _) as [[root_directive location_root] fallback_location].
    destruct H as [_ H]. by apply H.
Defined.

(** C3 on the end-to-end scenario, a start command that runs docker
    compose, and on the descriptor [api], whose command does not. *)
Lemma unit_fields_follow_start_cmd_witness :
  let s := Example.record_of Example.stack in
  let s' := Example.record_of Example.api in
  START_CMD s = YStr "docker compose -f compose.yml up"
  ∧ TYPE s = "oneshot" ∧ REMAIN_AFTER_EXIT s = "yes" ∧ RESTART s = "no"
  ∧ START_CMD s' = YStr "/usr/bin/api-server"
  ∧ TYPE s' = "simple" ∧ REMAIN_AFTER_EXIT s' = "no" ∧ RESTART s' = "always".
Proof.
  intros s s'.
  destruct (unit_fields_follow_start_cmd Example.yaml "/srv/orchestration/services/stack.yml"
              false Example.st0
              (parse_service Example.yaml "/srv/orchestration/services/stack.yml" false
                 Example.st0).2 s) as (cmd & Hcmd & Hyes & _).
  { apply injective_projections; [vm_compute; reflexivity|reflexivity]. }
  destruct (unit_fields_follow_start_cmd Example.yaml "/srv/orchestration/services/api.yml"
              false Example.st0
              (parse_service Example.yaml "/srv/orchestration/services/api.yml" false
                 Example.st0).2 s') as (cmd' & Hcmd' & _ & Hno & _).
  { apply injective_projections; [vm_compute; reflexivity|reflexivity]. }
  assert (cmd = "docker compose -f compose.yml up") as ->
    by (vm_compute in Hcmd; by injection Hcmd).
  assert (cmd' = "/usr/bin/api-server") as ->
    by (vm_compute in Hcmd'; by injection Hcmd').
  destruct Hyes as (H1 & H2 & H3).
  { exists "", "docker compose", " -f compose.yml up". by split; [|left]. }
  destruct Hno as (H4 & H5 & H6).
  { rewrite invokes_compose_iff. vm_compute. discriminate. }
  split_and!; [reflexivity|exact H1|exact H2|exact H3|reflexivity|exact H4|exact H5|exact H6].
Defined.

(** C4 on the descriptor without domain and working directory, lenient
    and strict. *)
Lemma parse_service_required_witness :
  let path := "/srv/orchestration/services/partial.yml" in
  let msg := "Skipping partial.yml: missing domain, working_dir" in
  ((parse_service Example.yaml path false Example.st1).1 = Ok None
   ∧ stderr (parse_service Example.yaml path false Example.st1).2 = [msg])
  ∧ (parse_service Example.yaml path true Example.st1).1 = Raise (SystemExit msg)
  ∧ (render_all Example.root Example.yaml true [path] Example.st1).1
    = Raise (SystemExit msg).
Proof.
  intros path msg.
  pose proof (parse_service_required Example.root Example.yaml path Example.partial_yml
                false Example.st1 (YDict Example.partial) Example.partial
                eq_refl eq_refl eq_refl eq_refl) as Hl.
  pose proof (parse_service_required Example.root Example.yaml path Example.partial_yml
                true Example.st1 (YDict Example.partial) Example.partial
                eq_refl eq_refl eq_refl eq_refl) as Hs.
  cbv zeta in Hl, Hs. revert Hl Hs.
  destruct (parse_service Example.yaml path false Example.st1) as [rl stl].
  destruct (parse_service Example.yaml path true Example.st1) as [rs sts].
  intros (_ & _ & _ & Hl & _) (_ & _ & _ & Hs & Hloop & _).
  assert (missing_of (required_of Example.partial) ≠ []) as Hm
    by (vm_compute; discriminate).
  destruct (Hl Hm) as [Hl1 Hl2]. destruct (Hs Hm) as [Hs1 _].
  split_and!.
  - exact Hl1.
  - exact Hl2.
  - exact Hs1.
  - by rewrite (Hloop Hm eq_refl []).
Defined.

(** C6 on a selection with repeated, empty and unknown names. *)
Lemma load_services_selection_witness :
  let selected := ["api"; ""; "nope"; "stack"; "api"; "zip"; "nope"] in
  uniq_loop ∅ selected = first_seen (filter (λ n, n ≠ "") selected)
  ∧ load_services Example.root (Some selected) Example.st0
    = (Raise (SystemExit "Service file(s) not found in /srv/orchestration/services: nope, zip"),
       Example.st0).
Proof.
  intros selected.
  destruct (load_services_selection Example.root selected Example.st0)
    as (H1 & _ & _ & _ & H5 & _); [done|by repeat constructor|].
  split; [exact H1|]. rewrite H5; [reflexivity|]. vm_compute. discriminate.
Defined.

(** C7 on the entry that disables proxying and on the entry without path:
    the text rendered for the entries holds the block of the former, with
    its three extra lines and no proxy directive. *)
Lemma disabled_proxy_and_missing_path_witness :
  let rules := (parse_locations (YList Example.entries) (YStr "127.0.0.1") (YInt 3000)).1 in
  let warnings := (parse_locations (YList Example.entries) (YStr "127.0.0.1") (YInt 3000)).2 in
  (∃ r before after, rules = before ++ r :: after
     ∧ path r = "/ws" ∧ proxy_pass r = ""
     ∧ render_custom_locations rules
       = render_custom_locations before
         +:+ Str.cat ["    location /ws {"; Str.nl;
                      "        return 404;"; Str.nl;
                      "        "; Str.nl;
                      "        deny all;"; Str.nl;
                      "    }"]
         +:+ Str.nl +:+ Str.nl
         +:+ render_custom_locations after)
  ∧ "Ignoring locations[2] (missing path)" ∈ warnings.
Proof.
  intros rules warnings.
  destruct (disabled_proxy_and_missing_path Example.entries (YStr "127.0.0.1") (YInt 3000))
    as (H1 & H2 & _ & _).
  split.
  - destruct (H1 Example.websocket)
      as (r & before & after & Hr & Hpath & Hp & Hextra & _ & Ht & _);
      [by left|done|done|].
    exists r, before, after. split; [exact Hr|]. split; [exact Hpath|]. split; [exact Hp|].
    unfold rules. rewrite Ht, Hpath, Hextra. reflexivity.
  - by destruct (H2 1%nat Example.pathless) as [_ H].
Defined.

(** C8 on the unit template and the replacements of a descriptor, and on
    a template stored with carriage returns, which is written with line
    feeds, the token of a name that is not in the mapping left as it is. *)
Lemma render_template_sequential_witness :
  let s := Example.record_of Example.stack in
  let cr := String "013"%char "" in
  let stored := Str.cat ["Type=__TYPE__"; cr; Str.nl; "User=__USER__"; cr] in
  let st := {| fs := {[ "/t" := stored ]}; stdout := []; stderr := [] |} in
  (∃ out, substitute Example.systemd_tmpl (systemd_replacements s) = Ok out
     ∧ render_template "/srv/orchestration/templates/systemd.service.tmpl"
         (systemd_unit Example.root s) (systemd_replacements s) Example.st0
       = (Ok (), {| fs := <[systemd_unit Example.root s := out]> (fs Example.st0);
                    stdout := []; stderr := [] |}))
  ∧ fs (render_template "/t" "/d" [("TYPE", YStr "simple")] st).2 !! "/d"
    = Some (Str.cat ["Type=simple"; Str.nl; "User=__USER__"; Str.nl]).
Proof.
  intros s cr stored st. split.
  - destruct (render_template_sequential "/srv/orchestration/templates/systemd.service.tmpl"
                (systemd_unit Example.root s) Example.systemd_tmpl (systemd_replacements s)
                Example.st0) as (out & H1 & H2 & _).
    + vm_compute. reflexivity.
    + unfold all_text. vm_compute.
      repeat first [apply List.Forall_nil|apply List.Forall_cons; [eexists; reflexivity|]].
    + exists out. split; [exact H1|exact H2].
  - destruct (render_template_sequential "/t" "/d" stored [("TYPE", YStr "simple")] st)
      as (out & H1 & H2 & _).
    + reflexivity.
    + repeat constructor. by eexists.
    + rewrite H2. cbn [fs snd]. rewrite lookup_insert_eq.
      vm_compute in H1. injection H1 as <-. reflexivity.
Defined.

(** C10 on an entry whose proxy target is null and whose prefix is
    stripped, and on an entry that has a path only. *)
Lemma falsy_proxy_pass_gets_default_witness :
  let entries := [YDict Example2.defaulted; YDict Example2.bare] in
  let rules := (parse_locations (YList entries) (YStr "127.0.0.1") (YInt 3000)).1 in
  (∃ r, r ∈ rules ∧ path r = "/v2" ∧ proxy_pass r = "http://127.0.0.1:3000/")
  ∧ (∃ r, r ∈ rules ∧ path r = "/api" ∧ proxy_pass r = "http://127.0.0.1:3000").
Proof.
  intros entries rules. split.
  - destruct (falsy_proxy_pass_gets_default entries (YStr "127.0.0.1") (YInt 3000)
                Example2.defaulted) as (r & Hr & Hp & Hd & _);
      [by left|reflexivity|discriminate|].
    exists r. split; [exact Hr|]. split; [exact Hp|]. by apply Hd.
  - destruct (falsy_proxy_pass_gets_default entries (YStr "127.0.0.1") (YInt 3000)
                Example2.bare) as (r & Hr & Hp & Hd & _);
      [by right; left|reflexivity|discriminate|].
    exists r. split; [exact Hr|]. split; [exact Hp|]. by apply Hd.
Defined.

(** C5 on a lenient run: it does not end in [SystemExit], and a status
    it returns is 0. *)
Lemma main_exit_status_witness :
  let run := main Example.root Example.yaml None Example.st1 in
  (∀ msg, run.1 ≠ Raise (SystemExit msg)) ∧ (∀ code, run.1 = Ok code → code = 0).
Proof.
  intros run.
  destruct (main_exit_status Example.root Example.yaml None Example.st1)
    as (H1 & H2 & _).
  split; [by apply H2|exact H1].
Defined.

(** C9 on a descriptor, from the store and from a state that holds the
    templates only. *)
Lemma render_service_repeatable_witness :
  let s := Example.record_of Example.stack in
  let bare := {| fs := Example.templates; stdout := []; stderr := [] |} in
  (render_service Example.root s (render_service Example.root s Example.st0).2).1 = Ok ()
  ∧ fs (render_service Example.root s bare).2 !! systemd_unit Example.root s
    = fs (render_service Example.root s Example.st0).2 !! systemd_unit Example.root s.
Proof.
  intros s bare.
  destruct (render_service_repeatable Example.root s Example.st0) as [H1 H2]. split.
  - rewrite H1. vm_compute. reflexivity.
  - destruct (H2 bare) as [_ H]; [vm_compute; reflexivity..|].
    apply H. vm_compute. reflexivity.
Defined.

(** ** Where the code departs from a claim *)

(** Against C4 as stated: the name of this descriptor is the quoted-empty
    text, which the claim counts as absent, yet [parse_service] returns a
    record, in lenient and in strict mode, with that text as its name. *)
Lemma quoted_empty_name_is_accepted :
  let path := "/srv/orchestration/services/quoted.yml" in
  missing_after_collapse Example.quoted = ["name"]
  ∧ ∃ s, (parse_service Example.yaml path false Example.st0).1 = Ok (Some s)
      ∧ (parse_service Example.yaml path true Example.st0).1 = Ok (Some s)
      ∧ NAME s = YStr (Str.dq +:+ Str.dq).
Proof.
  intros path. split; [vm_compute; reflexivity|].
  eexists. split_and!; vm_compute; reflexivity.
Qed.

(** Against C6 as stated: of the two names requested the second, the
    empty one, has no descriptor file, yet nothing is reported missing and
    the path of the first is returned. *)
Lemma empty_name_is_passed_over :
  let selected := ["api"; ""] in
  let run := load_services Example.root (Some selected) Example.st0 in
  fs Example.st0 !! pjoin (SERVICES_DIR Example.root) ("" +:+ ".yml") = None
  ∧ run.1 = Ok ["/srv/orchestration/services/api.yml"].
Proof. intros selected run. split; vm_compute; reflexivity. Qed.

(** Against C5 as stated: a lenient run over a store whose only descriptor
    is skipped renders nothing, and returns 0. *)
Lemma lenient_run_rendering_nothing_succeeds :
  let run := main Example.root Example.yaml None Example.st1 in
  let loaded := load_services Example.root None Example.st1 in
  strict_of None = false
  ∧ loaded.1 = Ok ["/srv/orchestration/services/partial.yml"]
  ∧ (render_all Example.root Example.yaml false
       ["/srv/orchestration/services/partial.yml"] loaded.2).1 = Ok []
  ∧ run.1 = Ok 0
  ∧ stdout run.2 = []
  ∧ stderr run.2 = ["Skipping partial.yml: missing domain, working_dir"]
  ∧ fs run.2 !! "/srv/orchestration/generated/nginx/partial.conf" = None
  ∧ fs run.2 !! "/srv/orchestration/generated/systemd/partial.service" = None.
Proof. intros run loaded. split_and!; vm_compute; reflexivity. Qed.

(** Against C8 as stated: the replacement text of the first entry holds
    the token of the second, and that token is substituted; one pass over
    the template would have left it. *)
Lemma later_entry_expands_earlier_text :
  let st := {| fs := {[ "/t" := "__A__" ]}; stdout := []; stderr := [] |} in
  let run := render_template "/t" "/d" [("A", YStr "__B__"); ("B", YStr "x")] st in
  run.1 = Ok ()
  ∧ fs run.2 !! "/d" = Some "x"
  ∧ single_pass "__A__" [("A", "__B__"); ("B", "x")] = "__B__".
Proof. intros st run. split_and!; vm_compute; reflexivity. Qed.

(** Against C10 as stated: a proxy target of one space is not the boolean
    false, and the rule has no proxy target all the same. *)
Lemma blank_proxy_pass_disables_proxying :
  Py.get "proxy_pass" Example.spaced = YStr " "
  ∧ (parse_locations (YList [YDict Example.spaced]) (YStr "127.0.0.1") (YInt 3000)).1
    = [{| path := "/raw"; proxy_pass := ""; extra := "" |}].
Proof. split; reflexivity. Qed.

(** * Further properties of render.py *)

(** ** Lemmas shared by the properties below *)


Lemma or_truthy (a b : yval) : Py.truthy b = true → Py.truthy (Py.or a b) = true.
Proof. unfold Py.or. by destruct (Py.truthy a) eqn:E. Qed.

(** The text of a truthy value is not empty. *)
Lemma str_truthy (v : yval) : Py.truthy v = true → Py.str v ≠ "".
Proof.
  intros Ht. destruct (is_text v) eqn:E.
  - destruct v; try done. simpl in *. by apply StrFacts.nonempty_true.
  - assert (solid_head (Py.str v)) as H.
    { apply StripFacts.str_solid; [done|]. intros s ->. done. }
    by destruct (Py.str v).
Qed.

(** ** load_services without a selection *)

Lemma glob_services_spec (ROOT : string) (files : gmap string string) (p : string) :
  p ∈ glob_services ROOT files ↔ is_Some (files !! p) ∧ is_service_file ROOT p = true.
Proof.
  unfold glob_services. rewrite list_elem_of_filter, list_elem_of_fmap. split.
  - intros [H ([p' c] & -> & Hin%elem_of_map_to_list)]. simpl in *. eauto.
  - intros [[c Hc] H]. split; [done|]. exists (p, c). split; [done|].
    by apply elem_of_map_to_list.
Qed.

Lemma glob_services_NoDup (ROOT : string) (files : gmap string string) :
  NoDup (glob_services ROOT files).
Proof. apply NoDup_filter, NoDup_fst_map_to_list. Qed.

Lemma is_service_file_name (ROOT p : string) :
  is_service_file ROOT p = true →
  ∃ name, p = SERVICES_DIR ROOT +:+ "/" +:+ name
    ∧ Str.contains "/" name = false ∧ Str.endswith ".yml" name = true.
Proof.
  unfold is_service_file.
  intros [[Hs Hc%negb_true_iff]%andb_true_iff He]%andb_true_iff.
  apply StrFacts.startswith_split in Hs as [name Hp].
  rewrite Hp in Hc, He. rewrite TextFacts.drop_app in Hc, He.
  exists name. by rewrite Hp, StrFacts.app_assoc.
Qed.

(** Without [--service] (and with an empty list of names) [load_services]
    never raises and leaves the files alone.  It returns the paths of the
    files that lie directly in the services directory and whose name ends
    in [.yml], each once, in ascending order of their text; when there is
    none it prints one line to stdout and returns the empty list. *)
Theorem load_services_without_selection (ROOT : string) (selected : option (list string))
    (st : state) :
  strict_of selected = false →
  ∃ svc_files,
    load_services ROOT selected st
    = (Ok svc_files,
       {| fs := fs st;
          stdout := stdout st
                    ++ (if decide (svc_files = [])
                        then ["No service files found in " +:+ SERVICES_DIR ROOT] else []);
          stderr := stderr st |})
    ∧ Sorted String.le svc_files
    ∧ NoDup svc_files
    ∧ (∀ p, p ∈ svc_files ↔ is_Some (fs st !! p) ∧ is_service_file ROOT p = true)
    ∧ (∀ p, p ∈ svc_files →
         ∃ name, p = SERVICES_DIR ROOT +:+ "/" +:+ name
           ∧ Str.contains "/" name = false ∧ Str.endswith ".yml" name = true).
Proof.
  intros Hs.
  assert (load_services ROOT selected st = load_services ROOT None st) as ->.
  { by destruct selected as [[|name rest]|]. }
  unfold load_services, mbind, M_bind, get_files.
  pose proof (Sorted_merge_sort String.le (glob_services ROOT (fs st))) as Hsorted.
  pose proof (merge_sort_Permutation String.le (glob_services ROOT (fs st))) as Hperm.
  set (l := merge_sort String.le (glob_services ROOT (fs st))) in *.
  assert (∀ p, p ∈ l ↔ is_Some (fs st !! p) ∧ is_service_file ROOT p = true) as Hin.
  { intros p. rewrite Hperm. apply glob_services_spec. }
  exists l. split_and!.
  - destruct l as [|p l'].
    + unfold print, prints, mret, M_ret. simpl. done.
    + unfold mret, M_ret. rewrite decide_False by done. rewrite app_nil_r. by destruct st.
  - done.
  - rewrite Hperm. apply glob_services_NoDup.
  - done.
  - intros p [_ Hp]%Hin. by apply is_service_file_name.
Qed.

(** ** parse_locations: one rule or one warning for every entry *)

Lemma parse_locations_loop_length (idx : nat) (entries : list yval) (dp : string) :
  (length (parse_locations_loop idx entries dp).1
   + length (parse_locations_loop idx entries dp).2 = length entries)%nat.
Proof.
  revert idx. induction entries as [|entry rest IH]; intros idx; [done|].
  simpl. specialize (IH (S idx)).
  destruct (parse_locations_loop (S idx) rest dp) as [normalized warnings].
  simpl in IH.
  destruct entry as [| | | | |kvs]; simpl; try lia.
  destruct (Py.truthy (Py.get "path" kvs)); simpl; lia.
Qed.

(** [parse_locations] accounts for every entry of a list: each becomes
    one rule or one warning, so their numbers add up to that of the
    entries.  A value that is no list gives no rule: nothing at all when
    it is falsy (absent, null, empty), and otherwise the one warning that
    it is not a list. *)
Theorem parse_locations_accounts_for_every_entry (raw_locations host port : yval) :
  let rules := (parse_locations raw_locations host port).1 in
  let warnings := (parse_locations raw_locations host port).2 in
  match raw_locations with
  | YList entries => (length rules + length warnings = length entries)%nat
  | _ =>
      rules = []
      ∧ warnings = (if Py.truthy raw_locations
                    then ["Ignoring locations because it is not a list"] else [])
  end.
Proof.
  destruct raw_locations as [|[|]|z|s|entries|kvs]; simpl; try done.
  - unfold parse_locations. simpl. by destruct (z =? 0).
  - unfold parse_locations. simpl. by destruct s.
  - unfold parse_locations. destruct entries as [|e rest]; [done|].
    cbn [Py.truthy negb]. apply parse_locations_loop_length.
  - unfold parse_locations. simpl. by destruct kvs.
Qed.

(** ** parse_locations: the rules are trimmed *)

Lemma normalize_entry_strip_prefix (kvs : list (string * yval)) (path : yval) (dp : string) :
  strip_prefix_of kvs = true →
  proxy_pass (normalize_entry kvs path dp) = ""
  ∨ Str.last (proxy_pass (normalize_entry kvs path dp)) = Some "/"%char.
Proof.
  unfold strip_prefix_of, normalize_entry. intros ->. simpl.
  set (target := match Py.get "proxy_pass" kvs with YBool false => "" | _ => _ end).
  destruct (Str.nonempty target) eqn:Hn; simpl.
  - unfold Str.endswith_char. case_bool_decide as Hl; simpl.
    + by right.
    + right. apply TextFacts.last_snoc.
  - left. by apply StrFacts.nonempty_false.
Qed.

(** Every rule [parse_locations] returns comes from an entry that is a
    mapping with a truthy path, and is trimmed: its path is the text of
    that path without white space around it, its extra text has no white
    space at the end, and when the entry asks to strip the prefix its
    proxy target, if it has one, ends in a slash. *)
Theorem parse_locations_rules_are_trimmed (entries : list yval) (host port : yval)
    (r : rule) :
  r ∈ (parse_locations (YList entries) host port).1 →
  ∃ kvs, YDict kvs ∈ entries
    ∧ Py.truthy (Py.get "path" kvs) = true
    ∧ path r = Str.strip (Py.str (Py.get "path" kvs))
    ∧ Str.strip (path r) = path r
    ∧ Str.rstrip (extra r) = extra r
    ∧ (strip_prefix_of kvs = true →
         proxy_pass r = "" ∨ Str.last (proxy_pass r) = Some "/"%char).
Proof.
  rewrite parse_locations_rules. intros (entry & Hin & Hr)%list_elem_of_omap.
  destruct entry as [| | | | |kvs]; try done. simpl in Hr.
  destruct (Py.truthy (Py.get "path" kvs)) eqn:Hp; [|done].
  injection Hr as <-. exists kvs. split_and!; try done.
  - simpl. apply TextFacts.strip_idemp.
  - simpl. apply TextFacts.rstrip_idemp.
  - apply normalize_entry_strip_prefix.
Qed.

(** ** parse_service on what is not a mapping *)

Lemma skipped_intro (strict : bool) (msg : string) (st : state) :
  skipped strict msg st
    ((skip strict [] msg).2,
     {| fs := fs st; stdout := stdout st; stderr := stderr st ++ (skip strict [] msg).1 |}).
Proof.
  unfold skipped, skip. destruct strict; simpl; [|done].
  rewrite app_nil_r. by destruct st.
Qed.

Lemma parse_service_skip (safe_load : string → string + yval) (path : string)
    (strict : bool) (st : state) (loaded : string + yval) (msg : string) :
  match fs st !! path with
  | Some text => safe_load text
  | None => inl ("[Errno 2] No such file or directory: " +:+ Py.repr_str path)
  end = loaded →
  parse_loaded path (Str.basename path) loaded strict = skip strict [] msg →
  skipped strict msg st (parse_service safe_load path strict st).
Proof.
  intros Hl Hp. unfold parse_service. rewrite Hl, Hp.
  pose proof (skipped_intro strict msg st) as H.
  by destruct (skip strict [] msg).
Qed.

(** What [parse_service] makes of a descriptor that gives no mapping.  A
    file that is not there or that YAML cannot read is reported as failed
    to parse, with the text of the exception; a document that is truthy
    but no mapping is reported with the name of its type; and a document
    that is falsy (an empty file, null, zero, an empty text or list) counts
    as an empty mapping, so it is skipped as missing all five required
    fields.  In each case the lenient call prints the message to stderr
    and returns the skip signal, the strict call raises [SystemExit] with
    it, and nothing else changes. *)
Theorem parse_service_without_mapping (safe_load : string → string + yval)
    (path : string) (strict : bool) (st : state) :
  let run := parse_service safe_load path strict st in
  (fs st !! path = None →
     skipped strict
       ("Failed to parse " +:+ path +:+ ": [Errno 2] No such file or directory: "
        +:+ Py.repr_str path) st run)
  ∧ (∀ text exc, fs st !! path = Some text → safe_load text = inl exc →
       skipped strict ("Failed to parse " +:+ path +:+ ": " +:+ exc) st run)
  ∧ (∀ text v, fs st !! path = Some text → safe_load text = inr v →
       Py.truthy v = true → (∀ data, v ≠ YDict data) →
       skipped strict ("Expected mapping in " +:+ path +:+ ", got " +:+ type_name v) st run)
  ∧ (∀ text v, fs st !! path = Some text → safe_load text = inr v →
       Py.truthy v = false →
       skipped strict
         ("Skipping " +:+ Str.basename path
          +:+ ": missing name, domain, upstream_port, start_cmd, working_dir") st run).
Proof.
  intros run. subst run. split_and!.
  - intros Hf. eapply parse_service_skip; [by rewrite Hf|]. reflexivity.
  - intros text exc Hf Hl. eapply parse_service_skip; [rewrite Hf; exact Hl|]. done.
  - intros text v Hf Hl Ht Hd. eapply parse_service_skip; [rewrite Hf; exact Hl|].
    unfold parse_loaded, Py.or. rewrite Ht.
    destruct v as [| | | | |data]; try done. by destruct (Hd data).
  - intros text v Hf Hl Ht. eapply parse_service_skip; [rewrite Hf; exact Hl|].
    unfold parse_loaded, Py.or. rewrite Ht. by destruct strict.
Qed.

(** ** The record parse_service returns *)

Lemma in_texts_app_l (v : yval) (l1 l2 : list string) :
  in_texts v (l1 ++ l2) = false → in_texts v l1 = false.
Proof.
  destruct v; try done. simpl. rewrite !bool_decide_eq_false, elem_of_app. tauto.
Qed.

(** Every field of a record in terms of the mapping it was read from. *)
Lemma parse_mapping_fields (path_name : string) (data : list (string * yval))
    (strict : bool) (printed : list string) (s : service) :
  parse_mapping path_name data strict = (printed, Ok (Some s)) →
  let stop_cmd := Py.or (_get data "stop_cmd" (YStr "")) (YStr "/bin/true") in
  let static_root := _get data "static_root" (YStr "") in
  let migrate_cmd := _get data "migrate_cmd" (YStr "") in
  UPSTREAM_HOST s = Py.or (_get data "upstream_host" (YStr "")) (YStr "127.0.0.1")
  ∧ USER s = Py.or (_get data "user" (YStr "")) (YStr "www-data")
  ∧ HEALTH_PATH s = Py.or (_get data "health_path" (YStr "")) (YStr "/health")
  ∧ STOP_CMD s
    = (if in_texts stop_cmd (quoted_empty ++ [""]) then YStr "/bin/true" else stop_cmd)
  ∧ STATIC_ROOT s
    = Py.or (if in_texts static_root quoted_empty then YStr "" else static_root) (YStr "")
  ∧ MIGRATE_CMD s
    = Py.or (if in_texts migrate_cmd quoted_empty then YStr "" else migrate_cmd) (YStr "")
  ∧ ALLOW_PLAIN_HTTP s = _normalize_bool (_get data "allow_plain_http" (YStr "")).
Proof.
  unfold parse_mapping.
  destruct (parse_locations _ _ _) as [locations warnings].
  destruct (start_cmd_lower _) as [lowered|e]; [|done].
  destruct (missing_of _) as [|k ks].
  - by intros [= <- <-].
  - unfold skip. by destruct strict.
Qed.

Lemma collapsed_invariant (v : yval) :
  let field := Py.or (if in_texts v quoted_empty then YStr "" else v) (YStr "") in
  in_texts field quoted_empty = false
  ∧ (Py.truthy field = false → field = YStr "").
Proof.
  simpl. destruct (in_texts v quoted_empty) eqn:E; [done|].
  unfold Py.or. destruct (Py.truthy v) eqn:Ht; [|done].
  split; [done|]. by rewrite Ht.
Qed.

(** A record [parse_service] returns is complete.  The name, the domain
    and the working directory are truthy, the start command is a
    non-empty text, and the port is a non-empty text; the upstream host,
    the user, the health path and the stop command are truthy, their
    defaults standing in where the descriptor gives nothing; and neither
    the stop command nor the static root nor the migrate command is one
    of the quoted-empty texts, the latter two being the empty text when
    they are not truthy. *)
Theorem parse_service_record_is_complete (safe_load : string → string + yval)
    (path : string) (strict : bool) (st st' : state) (s : service) :
  parse_service safe_load path strict st = (Ok (Some s), st') →
  Py.truthy (NAME s) = true
  ∧ Py.truthy (DOMAIN s) = true
  ∧ Py.truthy (WORKING_DIR s) = true
  ∧ (∃ cmd, START_CMD s = YStr cmd ∧ cmd ≠ "")
  ∧ UPSTREAM_PORT s ≠ ""
  ∧ Py.truthy (UPSTREAM_HOST s) = true
  ∧ Py.truthy (USER s) = true
  ∧ Py.truthy (HEALTH_PATH s) = true
  ∧ Py.truthy (STOP_CMD s) = true
  ∧ in_texts (STOP_CMD s) quoted_empty = false
  ∧ in_texts (STATIC_ROOT s) quoted_empty = false
  ∧ in_texts (MIGRATE_CMD s) quoted_empty = false
  ∧ (Py.truthy (STATIC_ROOT s) = false → STATIC_ROOT s = YStr "")
  ∧ (Py.truthy (MIGRATE_CMD s) = false → MIGRATE_CMD s = YStr "").
Proof.
  intros (data & printed & H & _)%parse_service_ok.
  pose proof (parse_mapping_fields _ _ _ _ _ H) as (Hh & Hu & Hp & Hstop & Hsr & Hm & _).
  apply parse_mapping_ok in H as (Hreq & (cmd & Hc & _) & Hn & Hd & Hport & Hsc & Hw & _).
  assert (∀ k v, (k, v) ∈ required_of data → Py.truthy v = true) as Ht.
  { intros k v Hin. by apply (proj1 (missing_of_nil _) Hreq (k, v)). }
  unfold required_of, required in Ht.
  pose proof (collapsed_invariant (_get data "static_root" (YStr ""))) as [Hs1 Hs2].
  pose proof (collapsed_invariant (_get data "migrate_cmd" (YStr ""))) as [Hm1 Hm2].
  rewrite Hn, Hd, Hw, Hsc, Hport, Hh, Hu, Hp, Hstop, Hsr, Hm.
  split_and!; try done.
  - apply (Ht "name"). left.
  - apply (Ht "domain"). right. left.
  - apply (Ht "working_dir"). do 4 right. left.
  - exists cmd. split; [done|]. apply StrFacts.nonempty_true.
    change (Py.truthy (YStr cmd) = true). rewrite <- Hc.
    apply (Ht "start_cmd"). do 3 right. left.
  - apply str_truthy. apply (Ht "upstream_port"). do 2 right. left.
  - by apply or_truthy.
  - by apply or_truthy.
  - by apply or_truthy.
  - destruct (in_texts _ (quoted_empty ++ [""])); [done|]. by apply or_truthy.
  - destruct (in_texts _ (quoted_empty ++ [""])) eqn:E; [done|].
    by apply in_texts_app_l in E.
Qed.

(** ** The defaults of parse_service *)

Lemma get_default_get (key : string) (default : yval) (data : list (string * yval)) :
  Py.get_default key default data = Py.get key data
  ∨ (Py.get_default key default data = default ∧ Py.get key data = YNull).
Proof.
  induction data as [|[k v] rest IH]; [by right|]. simpl.
  destruct (decide (k = key)); [by left|done].
Qed.

(** [_get(key) or default], read off the mapping: the value under the key
    when it is truthy, the default when the key is absent or its value is
    null or falsy. *)
Lemma _get_or (data : list (string * yval)) (key : string) (default : yval) :
  Py.or (_get data key (YStr "")) default
  = if Py.truthy (Py.get key data) then Py.get key data else default.
Proof.
  unfold _get, Py.or.
  destruct (get_default_get key (YStr "") data) as [->|[-> ->]]; [|done].
  destruct (Py.get key data) as [|[|]|z|s|l|kvs]; try done.
Qed.

Lemma _get_truthy (data : list (string * yval)) (key : string) :
  Py.truthy (_get data key (YStr "")) = Py.truthy (Py.get key data).
Proof.
  unfold _get.
  destruct (get_default_get key (YStr "") data) as [->|[-> ->]]; [|done].
  by destruct (Py.get key data).
Qed.

Lemma _get_in_texts (data : list (string * yval)) (key : string) (texts : list string) :
  "" ∉ texts →
  in_texts (_get data key (YStr "")) texts = in_texts (Py.get key data) texts.
Proof.
  intros Hn. unfold _get.
  destruct (get_default_get key (YStr "") data) as [->|[-> ->]].
  - destruct (Py.get key data); try done. simpl. by rewrite bool_decide_eq_false.
  - simpl. by rewrite bool_decide_eq_false.
Qed.

Lemma quoted_empty_nonempty : "" ∉ quoted_empty.
Proof. apply (bool_decide_eq_false_1 ("" ∈ quoted_empty)). vm_compute. reflexivity. Qed.

Lemma _get_keeps_truthy (data : list (string * yval)) (key : string) :
  Py.truthy (Py.get key data) = true → _get data key (YStr "") = Py.get key data.
Proof.
  unfold _get.
  destruct (get_default_get key (YStr "") data) as [->|[-> ->]]; [|done].
  by destruct (Py.get key data).
Qed.

(** The optional fields of a record [parse_service] returns for the
    mapping [data], with [d.get(key)] written [Py.get key data] (null for
    an absent key).  The upstream host, the user and the health path are
    the value of the descriptor when it is truthy, and otherwise
    [127.0.0.1], [www-data] and [/health].  The stop command is the value
    of the descriptor when it is truthy and not a quoted-empty text, and
    otherwise [/bin/true]; the static root and the migrate command are
    theirs on the same condition, and otherwise the empty text.  Plain
    HTTP is allowed only by the boolean true or by a text that is one of
    the four words, whatever its case: the number 1 does not allow it. *)
Theorem parse_service_defaults (safe_load : string → string + yval) (path text : string)
    (strict : bool) (st st' : state) (data : list (string * yval)) (s : service) :
  fs st !! path = Some text →
  safe_load text = inr (YDict data) →
  parse_service safe_load path strict st = (Ok (Some s), st') →
  let given := λ key, Py.truthy (Py.get key data) in
  let plain := λ key, given key && negb (in_texts (Py.get key data) quoted_empty) in
  UPSTREAM_HOST s
  = (if given "upstream_host" then Py.get "upstream_host" data else YStr "127.0.0.1")
  ∧ USER s = (if given "user" then Py.get "user" data else YStr "www-data")
  ∧ HEALTH_PATH s = (if given "health_path" then Py.get "health_path" data else YStr "/health")
  ∧ STOP_CMD s = (if plain "stop_cmd" then Py.get "stop_cmd" data else YStr "/bin/true")
  ∧ STATIC_ROOT s = (if plain "static_root" then Py.get "static_root" data else YStr "")
  ∧ MIGRATE_CMD s = (if plain "migrate_cmd" then Py.get "migrate_cmd" data else YStr "")
  ∧ ALLOW_PLAIN_HTTP s
    = match Py.get "allow_plain_http" data with
      | YBool b => b
      | YStr word => bool_decide (Str.lower word ∈ ["true"; "yes"; "1"; "on"])
      | _ => false
      end.
Proof.
  intros Hf Hl Hrun given plain.
  rewrite (parse_service_loaded _ _ _ _ _ Hf), Hl in Hrun.
  unfold parse_loaded in Hrun.
  assert (Py.or (YDict data) (YDict []) = YDict data) as Hor.
  { unfold Py.or. by destruct data. }
  rewrite Hor in Hrun.
  destruct (parse_mapping _ data strict) as [printed r] eqn:E.
  injection Hrun as -> _.
  apply parse_mapping_fields in E as (Hh & Hu & Hp & Hstop & Hsr & Hm & Ha).
  cbv zeta in *. rewrite !_get_or in *.
  assert (∀ key, Py.or (if in_texts (_get data key (YStr "")) quoted_empty then YStr ""
                        else _get data key (YStr "")) (YStr "")
                 = if plain key then Py.get key data else YStr "") as Hcollapse.
  { intros key. subst plain given. cbv beta.
    rewrite _get_in_texts by apply quoted_empty_nonempty.
    destruct (in_texts (Py.get key data) quoted_empty) eqn:Ein.
    - by rewrite andb_false_r.
    - rewrite andb_true_r. unfold Py.or. rewrite _get_truthy.
      destruct (Py.truthy (Py.get key data)) eqn:Ht; [|done].
      by apply _get_keeps_truthy. }
  split_and!; try done.
  - rewrite Hstop. subst plain given. cbv beta.
    destruct (Py.truthy (Py.get "stop_cmd" data)) eqn:Ht; [|done].
    destruct (Py.get "stop_cmd" data) as [|[|]|z|word|l|kvs]; try done.
    simpl. simpl in Ht. apply StrFacts.nonempty_true in Ht.
    unfold quoted_empty. simpl.
    repeat case_bool_decide; try done; set_solver.
  - by rewrite Hsr, Hcollapse.
  - by rewrite Hm, Hcollapse.
  - rewrite Ha. unfold _get.
    destruct (get_default_get "allow_plain_http" (YStr "") data) as [->|[-> ->]]; [|done].
    by destruct (Py.get "allow_plain_http" data).
Qed.

(** ** The two server blocks, for every descriptor *)

Lemma cat_cons (p : string) (pieces : list string) :
  Str.cat (p :: pieces) = p +:+ Str.cat pieces.
Proof. reflexivity. Qed.

(** The application body and the redirect body differ, whatever the
    fragments put into the former. *)
Lemma plain_bodies_differ (s : service) (location_root fallback_location extra_locations : string) :
  plain_app_body s location_root fallback_location extra_locations ≠ plain_redirect_body s.
Proof.
  unfold plain_app_body, plain_redirect_body. rewrite !StrFacts.cat_app.
  intros H%(inj (String.app _)). rewrite !cat_cons in H.
  apply (f_equal (λ t, Str.startswith "    # M" t)) in H.
  match type of H with
  | ?a = ?b =>
      assert (a = true) as Ha by reflexivity;
      assert (b = false) as Hb by reflexivity
  end.
  congruence.
Qed.

(** For every descriptor and every choice of fragments, the plain segment
    [build_server_blocks] returns is the application body, with the main
    route, the fallback route and the custom routes between the challenge
    passthrough and the health stub; it is never the redirect body.  The
    encrypted segment is empty exactly when plain HTTP is allowed, and
    otherwise carries the same main route, fallback route and custom
    routes. *)
Theorem plain_segment_never_redirects (s : service)
    (root_directive location_root fallback_location extra_locations : string) :
  let http_block :=
    (build_server_blocks s root_directive location_root fallback_location extra_locations).1 in
  let https_block :=
    (build_server_blocks s root_directive location_root fallback_location extra_locations).2 in
  let routes :=
    Str.cat ["    location / {"; Str.nl; location_root; Str.nl; "    }"; Str.nl; Str.nl;
             fallback_location; extra_locations; "    # Health endpoint"] in
  http_block = plain_app_body s location_root fallback_location extra_locations
  ∧ http_block ≠ plain_redirect_body s
  ∧ Str.contains routes http_block = true
  ∧ (https_block = "" ↔ ALLOW_PLAIN_HTTP s = true)
  ∧ (ALLOW_PLAIN_HTTP s = false → Str.contains routes https_block = true).
Proof.
  intros http_block https_block routes.
  assert (http_block = plain_app_body s location_root fallback_location extra_locations)
    as Hhttp.
  { subst http_block. unfold build_server_blocks, server_body. simpl.
    by rewrite orb_true_r. }
  split_and!.
  - done.
  - rewrite Hhttp. apply plain_bodies_differ.
  - rewrite Hhttp. unfold plain_app_body. subst routes.
    cat_slice 20%nat 10%nat.
  - subst https_block. unfold build_server_blocks. simpl.
    by destruct (ALLOW_PLAIN_HTTP s).
  - intros Ha. subst https_block routes. unfold build_server_blocks. rewrite Ha.
    cbn [negb snd]. unfold tls_body.
    cat_slice 61%nat 10%nat.
Qed.

(** ** The custom routes of several rules *)

(** [render_custom_locations] renders each rule on its own: the text for
    two lists of rules one after the other is the text for the first
    followed by the text for the second, the text for no rule is empty,
    and the text for one rule is its block, the lines joined by line
    feeds, followed by an empty line. *)
Theorem render_custom_locations_app (locations more : list rule) :
  render_custom_locations (locations ++ more)
  = render_custom_locations locations +:+ render_custom_locations more
  ∧ render_custom_locations [] = ""
  ∧ (∀ loc, render_custom_locations [loc]
            = Str.join Str.nl (location_lines loc) +:+ Str.nl +:+ Str.nl).
Proof.
  split_and!; [|done|done].
  by rewrite !render_custom_locations_cat, map_app, StrFacts.cat_app.
Qed.

(** ** What render_template changes *)

Lemma substitute_not_all_text (content : string) (replacements : list (string * yval)) :
  forallb (λ kv, is_text kv.2) replacements = false →
  substitute content replacements = Raise TypeError.
Proof.
  revert content. induction replacements as [|[key v] rest IH]; intros content; [done|].
  simpl. destruct v; simpl; try done. apply IH.
Qed.

Lemma substitute_all_text_b (content : string) (replacements : list (string * yval)) :
  forallb (λ kv, is_text kv.2) replacements = true →
  ∃ out, substitute content replacements = Ok out.
Proof.
  revert content. induction replacements as [|[key v] rest IH]; intros content; [by eexists|].
  simpl. destruct v; simpl; try done. apply IH.
Qed.

(** [render_template] writes the destination or nothing.  It touches
    neither stream and no file but the destination.  When the template is
    not there it raises [FileNotFoundError], when a replacement is not a
    text it raises [TypeError], and in both cases it leaves the state as
    it was, the destination included; otherwise it returns with the
    substituted text in the destination. *)
Theorem render_template_writes_dest_or_nothing (template_path dest_path : string)
    (replacements : list (string * yval)) (st : state) :
  let r := (render_template template_path dest_path replacements st).1 in
  let st' := (render_template template_path dest_path replacements st).2 in
  let texts := forallb (λ kv, is_text kv.2) replacements in
  stdout st' = stdout st
  ∧ stderr st' = stderr st
  ∧ (∀ p, p ≠ dest_path → fs st' !! p = fs st !! p)
  ∧ (fs st !! template_path = None → r = Raise FileNotFoundError ∧ st' = st)
  ∧ (is_Some (fs st !! template_path) → texts = false → r = Raise TypeError ∧ st' = st)
  ∧ (∀ content, fs st !! template_path = Some content → texts = true →
       ∃ out, substitute (Str.universal_newlines content) replacements = Ok out
         ∧ r = Ok () ∧ fs st' !! dest_path = Some out).
Proof.
  intros r st' texts. subst r st' texts.
  unfold render_template, mbind, M_bind, read_text, write_text, raise.
  destruct (fs st !! template_path) as [content|] eqn:Hf.
  - destruct (forallb _ replacements) eqn:Ht.
    + destruct (substitute_all_text_b (Str.universal_newlines content) _ Ht) as [out Hout].
      rewrite Hout. simpl.
      split_and!; try done.
      * intros p Hp. by rewrite lookup_insert_ne.
      * intros c [= <-] _. exists out. by rewrite lookup_insert_eq.
    + rewrite (substitute_not_all_text (Str.universal_newlines content) _ Ht). simpl.
      split_and!; done.
  - simpl. split_and!; done.
Qed.

(** ** A field that is not a text stops render_service half way *)

(** When both templates are there and one of the name, the working
    directory, the user, the start command and the stop command of a
    record is not a text (a name that YAML reads as a number, say),
    [render_service] writes the nginx file and then raises [TypeError]:
    the unit file is left as it was, and so is every other file. *)
Theorem render_service_needs_text_fields (ROOT : string) (s : service) (st : state)
    (c1 c2 : string) :
  fs st !! pjoin (TEMPLATE_DIR ROOT) "nginx.conf.tmpl" = Some c1 →
  fs st !! pjoin (TEMPLATE_DIR ROOT) "systemd.service.tmpl" = Some c2 →
  forallb is_text [NAME s; WORKING_DIR s; USER s; START_CMD s; STOP_CMD s] = false →
  ∃ conf, substitute (Str.universal_newlines c1) (nginx_replacements s) = Ok conf
    ∧ render_service ROOT s st
      = (Raise TypeError,
         {| fs := <[nginx_conf ROOT s := conf]> (fs st);
            stdout := stdout st; stderr := stderr st |})
    ∧ fs (render_service ROOT s st).2 !! systemd_unit ROOT s = fs st !! systemd_unit ROOT s.
Proof.
  intros H1 H2 Ht.
  destruct (substitute_all_text (Str.universal_newlines c1) _ (nginx_replacements_text s))
    as [conf Hconf].
  assert (substitute (Str.universal_newlines c2) (systemd_replacements s) = Raise TypeError)
    as Hunit.
  { apply substitute_not_all_text. unfold systemd_replacements. simpl in *.
    by rewrite !andb_true_r in *. }
  exists conf. split; [done|].
  rewrite render_service_unfold, H1, Hconf. cbv zeta. rewrite H2, Hunit.
  split; [done|]. simpl.
  destruct (paths_apart ROOT s) as (_ & _ & _ & _ & Hd).
  by rewrite lookup_insert_ne.
Qed.

(** ** What a run leaves alone *)

Lemma render_service_frame (ROOT : string) (s : service) (st : state) :
  stdout (render_service ROOT s st).2 = stdout st
  ∧ stderr (render_service ROOT s st).2 = stderr st
  ∧ (∀ p, p ≠ nginx_conf ROOT s → p ≠ systemd_unit ROOT s →
       fs (render_service ROOT s st).2 !! p = fs st !! p).
Proof.
  rewrite render_service_unfold.
  destruct (fs st !! _) as [c1|]; [|done].
  destruct (substitute (Str.universal_newlines c1) _) as [o1|e1]; [|done]. cbv zeta.
  destruct (fs st !! _) as [c2|].
  - destruct (substitute (Str.universal_newlines c2) _) as [o2|e2]; simpl; split_and!; try done.
    + intros p H1 H2. by rewrite !lookup_insert_ne.
    + intros p H1 H2. by rewrite !lookup_insert_ne.
  - simpl. split_and!; try done. intros p H1 H2. by rewrite !lookup_insert_ne.
Qed.

Lemma load_services_fs (ROOT : string) (selected : option (list string)) (st : state) :
  fs (load_services ROOT selected st).2 = fs st
  ∧ stderr (load_services ROOT selected st).2 = stderr st.
Proof.
  unfold load_services, mbind, M_bind, get_files.
  destruct selected as [[|name rest]|].
  - by destruct (merge_sort _ _).
  - destruct (resolve_loop _ _ _) as [missing services]. by destruct missing.
  - by destruct (merge_sort _ _).
Qed.

(** The loop of [main] changes no file but those whose path ends in the
    letter of [.conf] or of [.service]. *)
Lemma render_all_frame (ROOT : string) (safe_load : string → string + yval)
    (strict : bool) (svc_files : list string) (st : state) (p : string) :
  Str.last p ≠ Some "f"%char → Str.last p ≠ Some "e"%char →
  fs (render_all ROOT safe_load strict svc_files st).2 !! p = fs st !! p.
Proof.
  intros Hf He. revert st. induction svc_files as [|svc_file rest IH]; intros st; [done|].
  simpl. unfold mbind, M_bind.
  pose proof (parse_service_state safe_load svc_file strict st) as [Hfs _].
  destruct (parse_service safe_load svc_file strict st) as [[parsed|e0] st0];
    simpl in Hfs; [|simpl; by rewrite Hfs].
  destruct parsed as [parsed|]; [|by rewrite IH, Hfs].
  pose proof (render_service_frame ROOT parsed st0) as (_ & _ & Hframe).
  specialize (Hframe p).
  rewrite Hfs in Hframe.
  assert (fs (render_service ROOT parsed st0).2 !! p = fs st !! p) as Hp.
  { apply Hframe.
    - intros ->. apply Hf. apply nginx_conf_last.
    - intros ->. apply He. apply systemd_unit_last. }
  destruct (render_service ROOT parsed st0) as [[[]|e1] st1]; [|done].
  unfold print, prints. simpl in Hp. cbv beta iota.
  match goal with
  | |- context [render_all ROOT safe_load strict rest ?s] =>
      specialize (IH s);
      destruct (render_all ROOT safe_load strict rest s) as [[rendered|e2] st2]
  end; simpl in *; by rewrite IH.
Qed.

(** A run never changes its inputs.  Whatever [main] is asked to render
    and however it ends, every file whose path does not end in the letter
    [f] or [e] holds afterwards what it held before: the outputs end in
    [.conf] and [.service].  In particular every descriptor
    [<name>.yml] of the services directory and the two templates are left
    as they were. *)
Theorem main_keeps_descriptors_and_templates (ROOT : string)
    (safe_load : string → string + yval) (selected : option (list string)) (st : state) :
  let st' := (main ROOT safe_load selected st).2 in
  (∀ p, Str.last p ≠ Some "f"%char → Str.last p ≠ Some "e"%char →
     fs st' !! p = fs st !! p)
  ∧ (∀ name, fs st' !! pjoin (SERVICES_DIR ROOT) (name +:+ ".yml")
             = fs st !! pjoin (SERVICES_DIR ROOT) (name +:+ ".yml"))
  ∧ fs st' !! pjoin (TEMPLATE_DIR ROOT) "nginx.conf.tmpl"
    = fs st !! pjoin (TEMPLATE_DIR ROOT) "nginx.conf.tmpl"
  ∧ fs st' !! pjoin (TEMPLATE_DIR ROOT) "systemd.service.tmpl"
    = fs st !! pjoin (TEMPLATE_DIR ROOT) "systemd.service.tmpl".
Proof.
  intros st'.
  assert (∀ p, Str.last p ≠ Some "f"%char → Str.last p ≠ Some "e"%char →
               fs st' !! p = fs st !! p) as Hframe.
  { intros p Hf He. subst st'. unfold main, mbind, M_bind.
    pose proof (load_services_fs ROOT selected st) as [Hfs _].
    destruct (load_services ROOT selected st) as [[svc_files|e] st1];
      simpl in Hfs; [|simpl; by rewrite Hfs].
    pose proof (render_all_frame ROOT safe_load (strict_of selected) svc_files st1 p Hf He)
      as Hp.
    rewrite Hfs in Hp.
    destruct (render_all ROOT safe_load (strict_of selected) svc_files st1)
      as [[rendered|e] st2]; [|done].
    simpl in Hp. destruct rendered; [by destruct (strict_of selected)|done]. }
  split_and!; [done|..].
  - intros name.
    apply Hframe; by rewrite (pjoin_last _ _ "l"%char) by (by rewrite last_suffix).
  - apply Hframe; by rewrite (pjoin_last _ _ "l"%char).
  - apply Hframe; by rewrite (pjoin_last _ _ "l"%char).
Qed.

(** ** A strict run renders every descriptor it selects *)

Lemma parse_mapping_strict (path_name : string) (data : list (string * yval)) :
  (parse_mapping path_name data true).2 ≠ Ok None.
Proof.
  unfold parse_mapping.
  destruct (parse_locations _ _ _) as [locations warnings].
  destruct (start_cmd_lower _) as [lowered|e]; [|done].
  by destruct (missing_of _).
Qed.

Lemma parse_service_strict (safe_load : string → string + yval) (path : string)
    (st : state) :
  (parse_service safe_load path true st).1 ≠ Ok None.
Proof.
  unfold parse_service, parse_loaded.
  destruct (match fs st !! path with Some _ => _ | None => _ end) as [exc|v]; [done|].
  destruct (Py.or v (YDict [])) as [| | | | |data]; try done.
  pose proof (parse_mapping_strict (Str.basename path) data) as H.
  by destruct (parse_mapping _ data true).
Qed.

Lemma render_all_strict_length (ROOT : string) (safe_load : string → string + yval)
    (svc_files : list string) (st : state) (rendered : list yval) :
  (render_all ROOT safe_load true svc_files st).1 = Ok rendered →
  length rendered = length svc_files.
Proof.
  revert st rendered. induction svc_files as [|svc_file rest IH]; intros st rendered.
  - by intros [= <-].
  - simpl. unfold mbind, M_bind.
    pose proof (parse_service_strict safe_load svc_file st) as Hs.
    destruct (parse_service safe_load svc_file true st) as [[parsed|e0] st0]; [|done].
    destruct parsed as [parsed|]; [|done].
    destruct (render_service ROOT parsed st0) as [[[]|e1] st1]; [|done].
    unfold print, prints. cbv beta iota.
    match goal with
    | |- context [render_all ROOT safe_load true rest ?s] =>
        specialize (IH s);
        destruct (render_all ROOT safe_load true rest s) as [[rendered'|e2] st2]
    end; [|done].
    intros [= <-]. simpl. f_equal. by apply IH.
Qed.

Lemma load_services_selected (ROOT : string) (name : string) (rest : list string)
    (st : state) :
  let uniq := uniq_loop ∅ (name :: rest) in
  let path_of := λ n, pjoin (SERVICES_DIR ROOT) (n +:+ ".yml") in
  ∀ svc_files, (load_services ROOT (Some (name :: rest)) st).1 = Ok svc_files →
  load_services ROOT (Some (name :: rest)) st = (Ok svc_files, st)
  ∧ svc_files = map path_of uniq
  ∧ ∀ n, n ∈ uniq → is_Some (fs st !! path_of n).
Proof.
  intros uniq path_of svc_files.
  unfold load_services. fold uniq. unfold mbind, M_bind, get_files.
  rewrite resolve_loop_spec.
  destruct (filter _ uniq) as [|m ms] eqn:Hm; [|done].
  unfold mret, M_ret. simpl. intros [= <-].
  pose proof (filter_none_nil (λ n, fs st !! path_of n) uniq Hm) as Hall.
  subst path_of. cbv beta in *. rewrite Hall. split_and!; [done..|].
  intros n Hn. rewrite <- Hall in Hn. by apply list_elem_of_filter in Hn as [? _].
Qed.

(** A strict run that succeeds has rendered every descriptor it
    selected.  When [main], called with names without a slash, returns a
    status, the status is 0, the selection holds at least one non-empty
    name, the file [<name>.yml] of every such name exists in the services
    directory, and the loop rendered one descriptor for each of them,
    skipping none: in strict mode [parse_service] never returns the skip
    signal. *)
Theorem strict_run_renders_every_selected (ROOT : string)
    (safe_load : string → string + yval) (selected : list string) (st : state) (code : Z) :
  selected ≠ [] →
  Forall (λ n, Str.contains "/" n = false) selected →
  (main ROOT safe_load (Some selected) st).1 = Ok code →
  let uniq := uniq_loop ∅ selected in
  let path_of := descriptor_file ROOT in
  code = 0
  ∧ uniq ≠ []
  ∧ (∀ n, n ∈ uniq → is_Some (fs st !! path_of n))
  ∧ (∀ path st0, (parse_service safe_load path true st0).1 ≠ Ok None)
  ∧ ∃ rendered,
      (render_all ROOT safe_load true (map path_of uniq) st).1 = Ok rendered
      ∧ length rendered = length uniq.
Proof.
  intros Hsel Hplain Hmain uniq path_of.
  destruct selected as [|name rest]; [done|].
  pose proof (uniq_loop_Forall _ ∅ _ Hplain) as Hu. fold uniq in Hu.
  assert (map (λ n, pjoin (SERVICES_DIR ROOT) (n +:+ ".yml")) uniq = map path_of uniq)
    as Hpaths.
  { apply Forall_fmap_ext_1. eapply Forall_impl; [exact Hu|].
    intros n Hn. by apply descriptor_file_plain. }
  unfold main, mbind, M_bind in Hmain. cbn [strict_of] in Hmain.
  pose proof (load_services_selected ROOT name rest st) as Hload. cbv zeta in Hload.
  destruct (load_services ROOT (Some (name :: rest)) st) as [[svc_files|e] st1] eqn:El;
    [|done].
  destruct (Hload svc_files eq_refl) as ([= ->] & Hfiles & Hexist).
  fold uniq in Hfiles, Hexist. rewrite Hpaths in Hfiles.
  destruct (render_all ROOT safe_load true svc_files st) as [[rendered|e] st2] eqn:Ea;
    [|done].
  pose proof (render_all_strict_length ROOT safe_load svc_files st rendered) as Hlen.
  rewrite Ea in Hlen. specialize (Hlen eq_refl).
  rewrite Hfiles, length_map in Hlen.
  destruct rendered as [|r rendered]; [done|].
  simpl in Hmain. injection Hmain as <-.
  split_and!.
  - done.
  - intros Hu'. rewrite Hu' in Hlen. done.
  - intros n Hn. subst path_of. cbv beta.
    rewrite <- descriptor_file_plain by by eapply Forall_forall in Hu.
    by apply Hexist.
  - intros path st0. apply parse_service_strict.
  - exists (r :: rendered). by rewrite <- Hfiles, Ea.
Qed.

(** ** What a run reports *)

Lemma load_services_stdout (ROOT : string) (selected : option (list string)) (st : state) :
  stdout (load_services ROOT selected st).2
  = stdout st
    ++ match (load_services ROOT selected st).1 with
       | Ok [] =>
           if strict_of selected then []
           else ["No service files found in " +:+ SERVICES_DIR ROOT]
       | _ => []
       end.
Proof.
  unfold load_services, mbind, M_bind, get_files.
  destruct selected as [[|name rest]|].
  - destruct (merge_sort _ _); simpl; by rewrite ?app_nil_r.
  - destruct (resolve_loop _ _ _) as [missing services].
    destruct missing; simpl; [|by rewrite app_nil_r].
    destruct services; by rewrite app_nil_r.
  - destruct (merge_sort _ _); simpl; by rewrite ?app_nil_r.
Qed.

Lemma render_all_stdout (ROOT : string) (safe_load : string → string + yval)
    (strict : bool) (svc_files : list string) (st : state) (rendered : list yval) :
  (render_all ROOT safe_load strict svc_files st).1 = Ok rendered →
  stdout (render_all ROOT safe_load strict svc_files st).2
  = stdout st ++ map (rendered_line ROOT) rendered.
Proof.
  revert st rendered. induction svc_files as [|svc_file rest IH]; intros st rendered.
  - intros [= <-]. simpl. by rewrite app_nil_r.
  - simpl. unfold mbind, M_bind.
    pose proof (parse_service_state safe_load svc_file strict st) as [_ Hout].
    destruct (parse_service safe_load svc_file strict st) as [[parsed|e0] st0]; [|done].
    simpl in Hout. destruct parsed as [parsed|].
    2: { intros H. by rewrite (IH _ _ H), Hout. }
    pose proof (render_service_frame ROOT parsed st0) as (Hout' & _ & _).
    destruct (render_service ROOT parsed st0) as [[[]|e1] st1]; [|done].
    simpl in Hout'. unfold print, prints. cbv beta iota.
    match goal with
    | |- context [render_all ROOT safe_load strict rest ?s] =>
        specialize (IH s);
        destruct (render_all ROOT safe_load strict rest s) as [[rendered'|e2] st2]
    end; [|done].
    intros [= <-]. simpl in *. rewrite (IH _ eq_refl), Hout', Hout.
    by rewrite <- app_assoc.
Qed.

Lemma rendered_line_paths (ROOT : string) (name : yval) :
  Str.startswith "/" (Py.str name) = false →
  rendered_line ROOT name
  = "Rendered: " +:+ nginx_conf_path ROOT name
    +:+ " and " +:+ systemd_unit_path ROOT name.
Proof.
  intros Hn. unfold rendered_line, nginx_conf_path, systemd_unit_path, pjoin.
  assert (∀ suffix, Str.startswith "/" suffix = false →
                    Str.startswith "/" (Py.str name +:+ suffix) = false) as Hs.
  { intros suffix Hsuffix. by destruct (Py.str name). }
  rewrite !Hs by done. unfold Str.cat. simpl.
  by rewrite !StrFacts.app_assoc, StrFacts.app_nil_r.
Qed.

(** When [main] returns a status, what it has printed to stdout is: the
    line that no service file was found, if it ran without a selection
    and found none; one line for each rendered descriptor, in the order
    in which they were rendered; and the four lines of next steps, unless
    nothing was rendered.  The line for a descriptor names the two files
    written for it, provided the text of its name does not begin with a
    slash. *)
Theorem main_reports_what_it_rendered (ROOT : string) (safe_load : string → string + yval)
    (selected : option (list string)) (st : state) (code : Z) :
  (main ROOT safe_load selected st).1 = Ok code →
  ∃ svc_files rendered,
    (load_services ROOT selected st).1 = Ok svc_files
    ∧ (render_all ROOT safe_load (strict_of selected) svc_files
         (load_services ROOT selected st).2).1 = Ok rendered
    ∧ stdout (main ROOT safe_load selected st).2
      = stdout st
        ++ match svc_files with
           | [] =>
               if strict_of selected then []
               else ["No service files found in " +:+ SERVICES_DIR ROOT]
           | _ => []
           end
        ++ map (rendered_line ROOT) rendered
        ++ match rendered with [] => [] | _ => next_steps end
    ∧ (∀ name, name ∈ rendered → Str.startswith "/" (Py.str name) = false →
         rendered_line ROOT name
         = "Rendered: " +:+ nginx_conf_path ROOT name
           +:+ " and " +:+ systemd_unit_path ROOT name).
Proof.
  unfold main, mbind, M_bind.
  pose proof (load_services_stdout ROOT selected st) as Hload.
  destruct (load_services ROOT selected st) as [[svc_files|e] st1]; [|done].
  simpl in Hload. cbn [fst snd].
  pose proof (render_all_stdout ROOT safe_load (strict_of selected) svc_files st1) as Hall.
  destruct (render_all ROOT safe_load (strict_of selected) svc_files st1)
    as [[rendered|e] st2] eqn:Ea; [|done].
  specialize (Hall rendered eq_refl). simpl in Hall.
  intros Hcode. exists svc_files, rendered. split_and!; [done|by rewrite Ea| |].
  - rewrite (app_assoc (stdout st)), <- Hload, (app_assoc (stdout st1)), <- Hall.
    clear Hload Hall.
    destruct rendered as [|r rs].
    + destruct (strict_of selected); [done|]. simpl. by rewrite app_nil_r.
    + done.
  - intros name _. apply rendered_line_paths.
Qed.

(** ** Custom routes default to the upstream of the main route *)

Lemma _get_list (data : list (string * yval)) (entries : list yval) :
  Py.get "locations" data = YList entries →
  _get data "locations" (YList []) = YList entries.
Proof.
  intros H. unfold _get.
  destruct (get_default_get "locations" (YList []) data) as [->|[_ H']]; [by rewrite H|].
  congruence.
Qed.

(** The proxy directive of the main route, in the main-route body or,
    with a static root, in the fallback route. *)
Lemma build_nginx_blocks_upstream (static_root host : yval) (port : string) :
  let blocks := build_nginx_blocks static_root host port in
  Str.contains ("        proxy_pass http://" +:+ Py.str host +:+ ":" +:+ port +:+ ";")
    (if Py.truthy static_root then blocks.2 else blocks.1.2) = true.
Proof.
  unfold build_nginx_blocks. destruct (Py.truthy static_root); cbv zeta; cbn [fst snd].
  - eapply (StrFacts.contains_intro ("    location @app {" +:+ Str.nl)).
    str_norm. reflexivity.
  - eapply (StrFacts.contains_intro ""). str_norm. reflexivity.
Qed.

(** For a record [parse_service] returns, the target to which a custom
    route proxies by default is the upstream of the main route.  The
    main route (its body, or the fallback route when there is a static
    root) proxies to [http://<host>:<port>] with the host and the port of
    the record; and every entry of [locations] that is a mapping with a
    truthy path and with [proxy_pass] absent, null or otherwise falsy
    without being the boolean false has a rule in the record whose proxy
    target is that same text, or that text with a slash added. *)
Theorem custom_routes_default_to_the_upstream (safe_load : string → string + yval)
    (file text : string) (strict : bool) (st st' : state) (data : list (string * yval))
    (s : service) :
  fs st !! file = Some text →
  safe_load text = inr (YDict data) →
  parse_service safe_load file strict st = (Ok (Some s), st') →
  let upstream := "http://" +:+ Py.str (UPSTREAM_HOST s) +:+ ":" +:+ UPSTREAM_PORT s in
  let blocks := build_nginx_blocks (STATIC_ROOT s) (UPSTREAM_HOST s) (UPSTREAM_PORT s) in
  Str.contains ("        proxy_pass " +:+ upstream +:+ ";")
    (if Py.truthy (STATIC_ROOT s) then blocks.2 else blocks.1.2) = true
  ∧ (∀ entries kvs,
       Py.get "locations" data = YList entries →
       YDict kvs ∈ entries →
       Py.truthy (Py.get "path" kvs) = true →
       Py.truthy (Py.get "proxy_pass" kvs) = false →
       Py.get "proxy_pass" kvs ≠ YBool false →
       ∃ r, r ∈ LOCATIONS s
         ∧ path r = Str.strip (Py.str (Py.get "path" kvs))
         ∧ (proxy_pass r = upstream ∨ proxy_pass r = upstream +:+ "/")).
Proof.
  intros Hf Hl Hrun upstream blocks.
  rewrite (parse_service_loaded _ _ _ _ _ Hf), Hl in Hrun.
  unfold parse_loaded in Hrun.
  assert (Py.or (YDict data) (YDict []) = YDict data) as Hor.
  { unfold Py.or. by destruct data. }
  rewrite Hor in Hrun.
  destruct (parse_mapping _ data strict) as [printed r] eqn:E.
  injection Hrun as -> _.
  pose proof (parse_mapping_fields _ _ _ _ _ E) as (Hh & _).
  apply parse_mapping_ok in E as (_ & _ & _ & _ & Hport & _ & _ & Hloc).
  split.
  - subst upstream blocks.
    pose proof (build_nginx_blocks_upstream (STATIC_ROOT s) (UPSTREAM_HOST s)
                  (UPSTREAM_PORT s)) as H.
    cbv zeta in H. rewrite !StrFacts.app_assoc. exact H.
  - intros entries kvs Hentries Hin Hpath Hfalsy Hnf.
    rewrite (_get_list _ _ Hentries), <- Hh in Hloc.
    set (dp := default_proxy (UPSTREAM_HOST s) (_get data "upstream_port" (YStr ""))).
    assert (dp = upstream) as Hdp.
    { subst dp upstream. unfold default_proxy. by rewrite Hport. }
    exists (normalize_entry kvs (Py.get "path" kvs) dp). split_and!.
    + apply (f_equal fst) in Hloc. simpl in Hloc. rewrite Hloc, parse_locations_rules.
      apply list_elem_of_omap. exists (YDict kvs). split; [done|]. simpl. by rewrite Hpath.
    + done.
    + rewrite <- Hdp.
      destruct (normalize_entry_proxy_pass kvs (Py.get "path" kvs) dp) as [H|[_ H]];
        rewrite Hfalsy in H; [left|right]; rewrite H;
        by destruct (Py.get "proxy_pass" kvs) as [|[|]| | | |].
Qed.

(** * Properties of the deployment scripts *)

(** ** Lemmas on splitting at a code point and on the line reader *)

(** Reading in text mode does not change the lines of a text: a carriage
    return breaks a line as the line feed it is read as. *)
Lemma splitlines_universal_newlines (s : string) :
  Str.splitlines (Str.universal_newlines s) = Str.splitlines s.
Proof.
  unfold Str.splitlines. generalize "" as cur.
  remember (String.length s) as n eqn:Hn.
  assert (String.length s ≤ n)%nat as Hlen by lia. clear Hn.
  revert s Hlen. induction n as [|n IH]; intros s Hlen cur.
  { destruct s; [done|simpl in Hlen; lia]. }
  destruct s as [|c s]; [done|]. simpl in Hlen.
  cbn [Str.universal_newlines Str.splitlines_go].
  destruct (decide (c = "013"%char)) as [->|Hc].
  - cbn [Str.splitlines_go Str.isbreak]. rewrite LineFacts.after_break_lf. f_equal.
    apply IH. destruct s as [|d s]; [simpl; lia|]. simpl.
    destruct (decide (d = "010"%char)); simpl in *; lia.
  - cbn [Str.splitlines_go]. destruct (Str.isbreak c) eqn:Hb.
    + assert (∀ t, Str.after_break c t = t) as Hab.
      { intros [|d t]; [done|]. simpl. by rewrite decide_False. }
      rewrite !Hab. f_equal. apply IH. lia.
    + apply IH. lia.
Qed.

Module SplitFacts.
Import Str StrFacts Text.

Lemma split_at_None (c : ascii) (s : string) :
  split_at c s = None ↔ contains (String c "") s = false.
Proof.
  induction s as [|d s IH]; [done|]. simpl.
  destruct (decide (d = c)) as [->|Hd].
  - rewrite decide_True by done. by destruct s.
  - rewrite decide_False by congruence. simpl. rewrite <- IH.
    by destruct (split_at c s) as [[before after]|].
Qed.

Lemma split_at_Some (c : ascii) (s before after : string) :
  split_at c s = Some (before, after) →
  s = before +:+ String c after ∧ split_at c before = None.
Proof.
  revert before. induction s as [|d s IH]; intros before; [done|]. simpl.
  destruct (decide (d = c)) as [->|Hd].
  - by intros [= <- <-].
  - destruct (split_at c s) as [[b a]|]; [|done]. intros [= <- <-].
    destruct (IH b eq_refl) as [-> Hb]. split; [done|]. simpl.
    by rewrite decide_False, Hb.
Qed.

Lemma split_at_app (c : ascii) (before after : string) :
  split_at c before = None → split_at c (before +:+ String c after) = Some (before, after).
Proof.
  induction before as [|d b IH]; intros H.
  - simpl. by rewrite decide_True.
  - rewrite app_cons. simpl in *. destruct (decide (d = c)); [discriminate H|].
    destruct (split_at c b) as [[b' a']|]; [discriminate H|]. by rewrite IH.
Qed.

End SplitFacts.

Lemma last_value_cons (key : string) (kv : string * string) (rest : list (string * string)) :
  last_value key (kv :: rest)
  = match last_value key rest with
    | Some v => Some v
    | None => if decide (kv.1 = key) then Some kv.2 else None
    end.
Proof.
  unfold last_value. rewrite filter_cons.
  destruct (decide (kv.1 = key)) as [Hk|Hk]; [|by destruct (snd <$> last _)].
  destruct (filter _ rest) as [|kv' l]; [done|].
  change (last (kv :: kv' :: l)) with (last (kv' :: l)).
  destruct (last (kv' :: l)) eqn:E; [done|].
  by apply last_None in E.
Qed.

(** The loop as one pass over the entries the lines define. *)
Lemma read_lines_step (data : gmap string string) (raw : string) (rest : list string) :
  Proc.read_lines data (raw :: rest)
  = match entry_of raw with
    | Some (key, val) => Proc.read_lines (<[key := val]> data) rest
    | None => Proc.read_lines data rest
    end.
Proof.
  cbn [Proc.read_lines]. unfold entry_of, Text.split1. cbv zeta.
  destruct (negb (Str.nonempty (Str.strip raw)) || Str.startswith "#" (Str.strip raw))
    eqn:E; [done|]. cbn [orb].
  destruct (Text.split_at ":" (Str.strip raw)) as [[key val]|] eqn:Es.
  - assert (Str.contains ":" (Str.strip raw) = true) as ->; [|done].
    apply not_false_iff_true. intros Hc%SplitFacts.split_at_None. congruence.
  - apply SplitFacts.split_at_None in Es. by rewrite Es.
Qed.

Lemma read_lines_spec (lines : list string) (data : gmap string string) :
  ∃ data', Proc.read_lines data lines = Proc.Return data'
    ∧ ∀ key, data' !! key
             = match last_value key (omap entry_of lines) with
               | Some v => Some v
               | None => data !! key
               end.
Proof.
  revert data. induction lines as [|raw rest IH]; intros data.
  - by exists data.
  - rewrite read_lines_step. cbn [omap list_omap].
    destruct (entry_of raw) as [[k v]|].
    + destruct (IH (<[k := v]> data)) as (data' & -> & Hd). exists data'.
      split; [done|]. intros key. rewrite Hd, last_value_cons.
      destruct (last_value key (omap entry_of rest)); [done|]. simpl.
      destruct (decide (k = key)) as [->|Hk].
      * by rewrite lookup_insert_eq.
      * by rewrite lookup_insert_ne.
    + done.
Qed.

(** ** The line reader of deploy.py and sync_and_deploy.py *)

(** The loop that reads a descriptor line by line never raises, and the
    last line that defines a key wins: a key of the resulting dictionary
    has the value of the last entry for it, an entry being what a line
    gives whose stripped text is not empty, does not begin with [#] and
    holds a colon (the key before the first colon, the value after it,
    both stripped); a key no line defines keeps what it had. *)
Theorem read_lines_last_entry_wins (lines : list string) (data : gmap string string) :
  ∃ data', Proc.read_lines data lines = Proc.Return data'
    ∧ (∀ key, data' !! key
              = match last_value key (omap entry_of lines) with
                | Some v => Some v
                | None => data !! key
                end)
    ∧ (∀ key val, (key, val) ∈ omap entry_of lines →
         ∃ raw before after, raw ∈ lines
           ∧ Str.strip raw = before +:+ ":" +:+ after
           ∧ Str.contains ":" before = false
           ∧ Str.startswith "#" (Str.strip raw) = false
           ∧ key = Str.strip before ∧ val = Str.strip after).
Proof.
  destruct (read_lines_spec lines data) as (data' & Hr & Hd).
  exists data'. split_and!; [done..|].
  intros key val (raw & Hin & He)%list_elem_of_omap.
  unfold entry_of in He.
  destruct (negb _ || Str.startswith "#" (Str.strip raw)) eqn:E; [done|].
  apply orb_false_iff in E as [_ E].
  destruct (Text.split_at ":" (Str.strip raw)) as [[before after]|] eqn:Es; [|done].
  injection He as <- <-.
  apply SplitFacts.split_at_Some in Es as [Hs Hb].
  exists raw, before, after. split_and!; try done.
  by apply SplitFacts.split_at_None.
Qed.

(** ** Reading back a descriptor written as lines *)

Module WriteFacts.
Import Str StrFacts.

Lemma one_line_app (a b : string) : one_line (a +:+ b) = one_line a && one_line b.
Proof.
  induction a as [|c a IH]; [done|]. rewrite app_cons. simpl. rewrite IH.
  by rewrite andb_assoc.
Qed.

(** A text without line break followed by a line feed is one line of
    what it begins. *)
Lemma splitlines_go_one_line (l cur rest : string) :
  one_line l = true →
  splitlines_go cur (l +:+ String "010" rest)
  = (String.rev cur +:+ l) :: splitlines_go "" rest.
Proof.
  revert cur. induction l as [|c l IH]; intros cur H.
  - simpl. by rewrite LineFacts.after_break_lf, app_nil_r.
  - simpl in H. apply andb_true_iff in H as [Hc%negb_true_iff Hl].
    rewrite app_cons. simpl. rewrite Hc, (IH _ Hl), LineFacts.rev_cons.
    by rewrite app_assoc.
Qed.

Lemma splitlines_lines (lines : list string) :
  Forall (λ l, one_line l = true) lines →
  splitlines (cat (map (λ l, l +:+ nl) lines)) = lines.
Proof.
  unfold splitlines. induction 1 as [|l lines Hl _ IH]; [done|].
  cbn [map]. rewrite cat_cons, app_assoc.
  change (nl +:+ cat (map (λ l0, l0 +:+ nl) lines))
    with (String "010" (cat (map (λ l0, l0 +:+ nl) lines))).
  by rewrite (splitlines_go_one_line _ _ _ Hl), IH.
Qed.

Lemma rstrip_app (a b : string) : rstrip b ≠ "" → rstrip (a +:+ b) = a +:+ rstrip b.
Proof.
  intros Hb. induction a as [|c a IH]; [done|].
  rewrite !app_cons. simpl. rewrite IH.
  destruct (a +:+ rstrip b) eqn:E; [|done].
  destruct a; [|done]. by destruct (rstrip b).
Qed.

Lemma lstrip_length (s : string) : (String.length (lstrip s) ≤ String.length s)%nat.
Proof.
  induction s as [|c s IH]; [done|]. simpl. destruct (isspace c); simpl; lia.
Qed.

Lemma lstrip_head (c : ascii) (s : string) :
  lstrip (String c s) = String c s → isspace c = false.
Proof.
  simpl. destruct (isspace c); [|done]. intros H.
  pose proof (lstrip_length s) as Hl. rewrite H in Hl. simpl in Hl. lia.
Qed.

Lemma lstrip_app (k x : string) : k ≠ "" → lstrip k = k → lstrip (k +:+ x) = k +:+ x.
Proof.
  destruct k as [|c k]; [done|]. intros _ Hc%lstrip_head.
  rewrite app_cons. simpl. by rewrite Hc.
Qed.

Lemma startswith_char_app (c : ascii) (k x : string) :
  k ≠ "" → startswith (String c "") (k +:+ x) = startswith (String c "") k.
Proof. destruct k as [|d k]; [done|]. intros _. rewrite app_cons. simpl. by destruct (decide _). Qed.

End WriteFacts.

Lemma trimmed_spec (s : string) :
  trimmed s = true → Str.lstrip s = s ∧ Str.rstrip s = s.
Proof.
  unfold trimmed. intros [H1 H2]%andb_true_iff.
  by apply bool_decide_eq_true in H1, H2.
Qed.

(** A line written for a plain key and a plain value defines that key
    with that value. *)
Lemma entry_of_written (key val : string) :
  plain_key key = true → plain_value val = true →
  entry_of (key +:+ ": " +:+ val) = Some (key, val).
Proof.
  unfold plain_key, plain_value.
  intros [[[[_ Hk%trimmed_spec]%andb_true_iff Hne%StrFacts.nonempty_true]%andb_true_iff
             Hcolon%negb_true_iff]%andb_true_iff Hhash%negb_true_iff]%andb_true_iff.
  intros [_ Hv%trimmed_spec]%andb_true_iff.
  destruct Hk as [Hkl Hkr], Hv as [Hvl Hvr].
  assert (Text.split_at ":" key = None) as Hsplit by by apply SplitFacts.split_at_None.
  assert (Str.strip key = key) as Hstrip by (unfold Str.strip; by rewrite Hkr).
  unfold entry_of.
  destruct val as [|c val'] eqn:Eval.
  - assert (Str.strip (key +:+ ": " +:+ "") = key +:+ ":") as ->.
    { unfold Str.strip.
      rewrite (WriteFacts.rstrip_app key (": " +:+ "")) by done.
      by apply WriteFacts.lstrip_app. }
    rewrite WriteFacts.startswith_char_app, Hhash by done.
    assert (Str.nonempty (key +:+ ":") = true) as -> by by destruct key.
    simpl. rewrite (SplitFacts.split_at_app ":" key "") by done.
    by rewrite Hstrip.
  - rewrite <- Eval in *.
    assert (val ≠ "") as Hval by by rewrite Eval.
    assert (Str.rstrip val ≠ "") as Hr by by rewrite Hvr.
    assert (Str.strip (key +:+ ": " +:+ val) = key +:+ ": " +:+ val) as ->.
    { unfold Str.strip.
      rewrite <- (StrFacts.app_assoc key ": " val).
      rewrite (WriteFacts.rstrip_app (key +:+ ": ") val), Hvr by done.
      rewrite StrFacts.app_assoc. by apply WriteFacts.lstrip_app. }
    rewrite WriteFacts.startswith_char_app, Hhash by done.
    assert (Str.nonempty (key +:+ ": " +:+ val) = true) as -> by by destruct key.
    simpl. change (key +:+ ": " +:+ val) with (key +:+ String ":" (" " +:+ val)).
    rewrite (SplitFacts.split_at_app ":" key (" " +:+ val)) by done.
    rewrite Hstrip. do 2 f_equal. unfold Str.strip.
    rewrite (WriteFacts.rstrip_app " " val), Hvr by done. done.
Qed.

(** A descriptor written as one [key: value] line per entry, with plain
    keys and values, is read back as it was written: its lines define
    exactly the entries, in order, so the dictionary the reader builds
    maps every key to the value of its last entry, and holds no other
    key. *)
Theorem read_lines_reads_back_what_was_written (entries : list (string * string)) :
  Forall (λ kv, plain_key kv.1 = true ∧ plain_value kv.2 = true) entries →
  omap entry_of (Str.splitlines (write_lines entries)) = entries
  ∧ ∃ data,
      Proc.read_lines ∅ (Str.splitlines (write_lines entries)) = Proc.Return data
      ∧ ∀ key, data !! key = last_value key entries.
Proof.
  intros Hplain.
  assert (Str.splitlines (write_lines entries)
          = map (λ kv, kv.1 +:+ ": " +:+ kv.2) entries) as Hlines.
  { unfold write_lines.
    rewrite <- (WriteFacts.splitlines_lines (map (λ kv, kv.1 +:+ ": " +:+ kv.2) entries)).
    - f_equal. rewrite map_map. f_equal. apply map_ext. intros [k v]. simpl.
      by rewrite !StrFacts.app_assoc.
    - apply Forall_map. eapply Forall_impl; [exact Hplain|].
      intros [k v] [Hk Hv]. simpl in *. rewrite !WriteFacts.one_line_app.
      unfold plain_key, plain_value in *.
      apply andb_true_iff in Hv as [-> _].
      apply andb_true_iff in Hk as [[[[-> _]%andb_true_iff _]%andb_true_iff _]%andb_true_iff _].
      done. }
  assert (omap entry_of (Str.splitlines (write_lines entries)) = entries) as Hentries.
  { rewrite Hlines. clear Hlines. induction Hplain as [|[k v] rest [Hk Hv] _ IH]; [done|].
    cbn [map omap list_omap fst snd]. simpl in Hk, Hv.
    rewrite (entry_of_written k v Hk Hv).
    simpl. f_equal. apply IH. }
  split; [done|].
  destruct (read_lines_spec (Str.splitlines (write_lines entries)) ∅) as (data & Hr & Hd).
  exists data. split; [done|]. intros key. rewrite Hd, Hentries, lookup_empty.
  by destruct (last_value key entries).
Qed.

(** ** Lemmas on sequences of processes *)

Lemma run_plan_prefix (spawn : list Proc.process → Proc.process → Proc.started)
    (plan history : list Proc.process) :
  ∃ rest, plan = (run_plan spawn history plan).1 ++ rest.
Proof.
  revert history. induction plan as [|p plan IH]; intros history; [by exists []|].
  simpl. destruct (spawn history p) as [code|reason]; [|by eexists].
  destruct (code =? 0); [|by exists plan].
  destruct (IH (history ++ [p])) as [rest Hrest].
  destruct (run_plan spawn (history ++ [p]) plan) as [ran failure].
  exists rest. simpl in *. by rewrite <- Hrest.
Qed.

Lemma run_plan_complete (spawn : list Proc.process → Proc.process → Proc.started)
    (plan history : list Proc.process) :
  (run_plan spawn history plan).2 = None → (run_plan spawn history plan).1 = plan.
Proof.
  revert history. induction plan as [|p plan IH]; intros history; [done|].
  simpl. destruct (spawn history p) as [code|reason]; [|done].
  destruct (code =? 0); [|done].
  specialize (IH (history ++ [p])).
  destruct (run_plan spawn (history ++ [p]) plan) as [ran failure].
  simpl in *. intros H. by rewrite (IH H).
Qed.

(** Takes the next process of the goal apart: it exits with 0, exits
    with another code, or does not start. *)
Ltac next_process spawn :=
  match goal with
  | |- context [spawn ?history ?p] =>
      let code := fresh "code" in
      let reason := fresh "reason" in
      destruct (spawn history p) as [code|reason];
      [destruct (code =? 0)|]; simpl
  end.

(** ** deploy.py: reading the descriptor *)

Lemma clean_not_quoted (val : string) :
  Proc.is_quoted_empty (if Proc.is_quoted_empty val then "" else val) = false.
Proof.
  destruct (Proc.is_quoted_empty val) eqn:E; [vm_compute; reflexivity|exact E].
Qed.

Lemma deploy_parse_service_world (ROOT service_name : string) (w : Proc.world) :
  (Deploy.parse_service ROOT service_name w).2 = w.
Proof.
  unfold Deploy.parse_service, mbind, Proc.M_bind, Proc.get_files, Proc.read_text, Proc.raise.
  simpl. case_bool_decide as Hf; simpl; [|done].
  destruct Hf as [text Hf]. rewrite Hf.
  destruct (read_lines_spec (Str.splitlines text) ∅) as (data & -> & _).
  by destruct (Str.nonempty (Proc.get data "domain")).
Qed.

(** [deploy.py] reads its descriptor without changing anything.  For a
    name without a slash it raises [FileNotFoundError] with its own
    message exactly when the file [<name>.yml] is not in the services
    directory.  Otherwise the fields are those of the last line that
    defines each key: without a domain the call raises [ValueError]; with
    one it returns the domain,
    the migrate command, emptied when it is a quoted-empty text, and the
    health path, [/health] when none is given.  So a record it returns
    has a domain and a health path that are not empty, and a migrate
    command that is no quoted-empty text. *)
Theorem deploy_parse_service_outcomes (ROOT service_name : string) (w : Proc.world) :
  Str.contains "/" service_name = false →
  let svc_file := Deploy.SERVICES_DIR ROOT +:+ "/" +:+ service_name +:+ ".yml" in
  let r := (Deploy.parse_service ROOT service_name w).1 in
  (Deploy.parse_service ROOT service_name w).2 = w
  ∧ (Proc.files w !! svc_file = None
     ↔ r = Proc.Raise (Proc.FileNotFoundError ("Service file not found: " +:+ svc_file)))
  ∧ (∀ text, Proc.files w !! svc_file = Some text →
       let given := λ key, default "" (last_value key (omap entry_of (Str.splitlines text))) in
       if Str.nonempty (given "domain")
       then r = Proc.Return
                  {| Deploy.domain := given "domain";
                     Deploy.migrate_cmd :=
                       if Proc.is_quoted_empty (given "migrate_cmd") then ""
                       else given "migrate_cmd";
                     Deploy.health_path :=
                       if Str.nonempty (given "health_path") then given "health_path"
                       else "/health" |}
       else r = Proc.Raise
                  (Proc.ValueError ("Service " +:+ service_name +:+ " missing 'domain'")))
  ∧ (∀ svc, r = Proc.Return svc →
       Deploy.domain svc ≠ "" ∧ Deploy.health_path svc ≠ ""
       ∧ Proc.is_quoted_empty (Deploy.migrate_cmd svc) = false).
Proof.
  intros Hplain svc_file r. split; [apply deploy_parse_service_world|].
  subst svc_file.
  rewrite <- (pjoin_plain (Deploy.SERVICES_DIR ROOT) (service_name +:+ ".yml"))
    by by rewrite contains_char_app, Hplain.
  subst r. unfold Deploy.parse_service, mbind, Proc.M_bind, Proc.get_files,
    Proc.read_text, Proc.raise.
  simpl.
  destruct (Proc.files w !! pjoin (Deploy.SERVICES_DIR ROOT) (service_name +:+ ".yml"))
    as [text|] eqn:Hf.
  2: { rewrite bool_decide_false by (by intros [? ?]). simpl. split_and!; done. }
  rewrite bool_decide_true by eauto. simpl. rewrite Hf.
  destruct (read_lines_spec (Str.splitlines text) ∅) as (data & -> & Hd).
  assert (∀ key, Proc.get data key
                 = default "" (last_value key (omap entry_of (Str.splitlines text)))) as Hget.
  { intros key. unfold Proc.get. rewrite Hd, lookup_empty.
    by destruct (last_value key _). }
  rewrite !Hget.
  split_and!.
  - split; [done|]. by destruct (Str.nonempty _).
  - intros text' [= <-]. cbv beta zeta. by destruct (Str.nonempty _).
  - intros svc. destruct (Str.nonempty _) eqn:Hdom; [|done].
    simpl. intros [= <-]. simpl. split_and!.
    + by apply StrFacts.nonempty_true.
    + destruct (Str.nonempty (default "" (last_value "health_path" _))) eqn:Hh; [|done].
      by apply StrFacts.nonempty_true.
    + apply clean_not_quoted.
Qed.

(** ** deploy.py: the steps of a deployment *)


(** Without a descriptor [deploy.py] runs no process.  Called with other
    than one argument it prints its usage and returns 1; and when
    [parse_service] raises, for a missing file or a missing domain,
    [main] ends with that exception and has changed nothing. *)
Theorem deploy_needs_a_descriptor (ROOT : string)
    (spawn : list Proc.process → Proc.process → Proc.started)
    (argv : list string) (w : Proc.world) :
  let r := (Deploy.main ROOT spawn argv w).1 in
  let w' := (Deploy.main ROOT spawn argv w).2 in
  (length argv ≠ 2%nat →
     r = Proc.Return 1
     ∧ w' = {| Proc.files := Proc.files w;
               Proc.stdout := Proc.stdout w ++ ["Usage: deploy.py <service-name>"];
               Proc.stderr := Proc.stderr w; Proc.runs := Proc.runs w |})
  ∧ (∀ prog service_name e,
       argv = [prog; service_name] →
       (Deploy.parse_service ROOT service_name w).1 = Proc.Raise e →
       r = Proc.Raise e ∧ w' = w).
Proof.
  intros r w'. subst r w'. split.
  - intros Hlen. destruct argv as [|a [|b [|c rest]]]; try done.
  - intros prog service_name e -> Hparse.
    pose proof (deploy_parse_service_world ROOT service_name w) as Hw.
    unfold Deploy.main, mbind, Proc.M_bind.
    destruct (Deploy.parse_service ROOT service_name w) as [[svc|e'] w1]; [done|].
    simpl in *. by injection Hparse as ->.
Qed.

(** ** cert_ensure.py *)

(** [cert_ensure.py], called with a domain and an e-mail address, runs
    certbot for them, then the test of the nginx configuration, then the
    reload of nginx, each checked: it stops at the first that does not
    exit with 0 or cannot be started, raising its exception, so nginx is
    reloaded only after certbot and the test have succeeded; it returns
    0 exactly when all three exited with 0.  Called with other than two
    arguments it prints its usage, runs nothing and returns 1. *)
Theorem cert_ensure_runs_its_steps_in_order
    (spawn : list Proc.process → Proc.process → Proc.started)
    (argv : list string) (w : Proc.world) :
  let r := (CertEnsure.main spawn argv w).1 in
  let w' := (CertEnsure.main spawn argv w).2 in
  Proc.files w' = Proc.files w
  ∧ Proc.stderr w' = Proc.stderr w
  ∧ match argv with
    | [_; domain; email] =>
        let plan :=
          [argv_process ["certbot"; "--nginx"; "-d"; domain; "-m"; email; "--agree-tos";
                         "--redirect"; "--non-interactive"];
           argv_process ["nginx"; "-t"];
           argv_process ["systemctl"; "reload"; "nginx"]] in
        let ran := (run_plan spawn (Proc.runs w) plan).1 in
        let failure := (run_plan spawn (Proc.runs w) plan).2 in
        Proc.runs w' = Proc.runs w ++ ran
        ∧ (∃ rest, plan = ran ++ rest)
        ∧ match failure with
          | None => r = Proc.Return 0 ∧ ran = plan
          | Some e => r = Proc.Raise e
          end
    | _ =>
        r = Proc.Return 1
        ∧ Proc.runs w' = Proc.runs w
        ∧ Proc.stdout w' = Proc.stdout w ++ ["Usage: cert_ensure.py <domain> <email>"]
    end.
Proof.
  intros r w'. subst r w'.
  destruct argv as [|a [|domain [|email [|extra rest]]]]; try done.
  unfold CertEnsure.main, Proc.run, Proc.print, mbind, Proc.M_bind, mret, Proc.M_ret,
    argv_process.
  simpl.
  repeat next_process spawn;
    rewrite <- ?app_assoc; simpl;
    (split_and!; try done; try (by eexists); try (by rewrite app_nil_r)).
Qed.

(** ** one_click.py: the files of a selection *)

Lemma iter_service_files_present (ROOT : string) (selected : option (list string))
    (present : gmap string string) (svc_files : list string) :
  OneClick.iter_service_files ROOT selected present = Proc.Return svc_files →
  ∀ p, p ∈ svc_files → is_Some (present !! p).
Proof.
  unfold OneClick.iter_service_files.
  destruct selected as [[|name rest]|].
  - intros [= <-] p. rewrite merge_sort_Permutation. by intros [? _]%glob_services_spec.
  - rewrite resolve_loop_spec.
    destruct (filter _ (uniq_loop ∅ (name :: rest))) as [|m ms] eqn:Hm; [|done].
    intros [= <-] p (n & -> & Hn)%list_elem_of_fmap.
    by apply list_elem_of_filter in Hn as [? _].
  - intros [= <-] p. rewrite merge_sort_Permutation. by intros [? _]%glob_services_spec.
Qed.

(** [one_click.py] resolves a selection as [render.py] does.  Whatever
    the selection and the files, [iter_service_files] returns the paths
    [load_services] returns, in the same order, and raises exactly when
    [load_services] raises, with the same message, as
    [FileNotFoundError] instead of [SystemExit]; every path it returns
    is a file that is there. *)
Theorem iter_service_files_agrees_with_load_services (ROOT : string)
    (selected : option (list string)) (st : state) :
  match OneClick.iter_service_files ROOT selected (fs st) with
  | Proc.Return svc_files =>
      (load_services ROOT selected st).1 = Ok svc_files
      ∧ ∀ p, p ∈ svc_files → is_Some (fs st !! p)
  | Proc.Raise e =>
      ∃ msg, e = Proc.FileNotFoundError msg
        ∧ (load_services ROOT selected st).1 = Raise (SystemExit msg)
  end.
Proof.
  pose proof (iter_service_files_present ROOT selected (fs st)) as Hpresent.
  unfold OneClick.iter_service_files, load_services, mbind, M_bind, get_files in *.
  destruct selected as [[|name rest]|].
  - split; [by destruct (merge_sort _ _)|by apply Hpresent].
  - rewrite resolve_loop_spec in *.
    destruct (filter _ (uniq_loop ∅ (name :: rest))) as [|m ms] eqn:Hm.
    + split; [done|by apply Hpresent].
    + by eexists.
  - split; [by destruct (merge_sort _ _)|by apply Hpresent].
Qed.

(** ** one_click.py: the domains of a selection *)

Lemma first_domain_line (line : string) :
  Str.startswith "domain:" line = true →
  Text.split1 ":" line = ["domain"; Str.drop 7 line].
Proof. intros [t ->]%StrFacts.startswith_split. reflexivity. Qed.

Lemma first_domain_step (raw : string) (rest : list string) :
  OneClick.first_domain (raw :: rest)
  = if Str.startswith "domain:" (Str.strip raw)
    then Proc.Return (let d := Str.strip (Str.drop 7 (Str.strip raw)) in
                      if Str.nonempty d then Some d else None)
    else OneClick.first_domain rest.
Proof.
  cbn [OneClick.first_domain]. cbv zeta.
  destruct (Str.startswith "domain:" (Str.strip raw)) eqn:E; [|done].
  cbn [negb]. by rewrite (first_domain_line _ E).
Qed.

(** The inner loop never raises, and finds the value of the first line
    that begins with [domain:]. *)
Lemma first_domain_spec (lines : list string) :
  ∃ found, OneClick.first_domain lines = Proc.Return found
    ∧ ∀ d, found = Some d
           ↔ ∃ i raw, lines !! i = Some raw
               ∧ Str.startswith "domain:" (Str.strip raw) = true
               ∧ (∀ j raw', (j < i)%nat → lines !! j = Some raw' →
                    Str.startswith "domain:" (Str.strip raw') = false)
               ∧ d = Str.strip (Str.drop 7 (Str.strip raw)) ∧ d ≠ "".
Proof.
  induction lines as [|raw rest IH].
  - exists None. split; [done|]. intros d. split; [done|]. by intros (i & raw & ? & _).
  - rewrite first_domain_step.
    destruct (Str.startswith "domain:" (Str.strip raw)) eqn:E.
    + eexists. split; [done|]. intros d. cbv zeta. split.
      * intros Hd. exists 0%nat, raw. split_and!; [done|done|intros j raw' Hj; lia|..].
        -- destruct (Str.nonempty _); congruence.
        -- destruct (Str.nonempty _) eqn:En; [|congruence]. injection Hd as <-.
           by apply StrFacts.nonempty_true.
      * intros (i & raw' & Hi & Hs & Hbefore & -> & Hne).
        destruct i as [|i].
        -- injection Hi as <-. apply StrFacts.nonempty_true in Hne. by rewrite Hne.
        -- specialize (Hbefore 0%nat raw). rewrite Hbefore in E; [done|lia|done].
    + destruct IH as (found & -> & Hfound). exists found. split; [done|].
      intros d. rewrite Hfound. split.
      * intros (i & raw' & Hi & Hs & Hbefore & Hd & Hne). exists (S i), raw'.
        split_and!; try done. intros [|j] raw'' Hj Hl.
        -- by injection Hl as <-.
        -- apply (Hbefore j); [lia|done].
      * intros (i & raw' & Hi & Hs & Hbefore & Hd & Hne). destruct i as [|i].
        -- injection Hi as <-. congruence.
        -- exists i, raw'. split_and!; try done.
           intros j raw'' Hj Hl. apply (Hbefore (S j)); [lia|done].
Qed.

Lemma domains_of_spec (present : gmap string string) (svc_files : list string) :
  (∀ p, p ∈ svc_files → is_Some (present !! p)) →
  ∃ domains, OneClick.domains_of present svc_files = Proc.Return domains
    ∧ (length domains ≤ length svc_files)%nat
    ∧ Forall (λ d, d ≠ "" ∧ Str.strip d = d) domains.
Proof.
  induction svc_files as [|p rest IH]; intros Hpresent.
  - by exists [].
  - cbn [OneClick.domains_of].
    destruct (Hpresent p) as [text ->]; [left|].
    destruct (first_domain_spec (Str.splitlines text)) as (found & -> & Hfound).
    destruct IH as (domains & -> & Hlen & Hall).
    { intros q Hq. apply Hpresent. by right. }
    exists (option_list found ++ domains). split; [done|].
    destruct found as [d|]; simpl.
    + split; [lia|]. constructor; [|done].
      destruct (proj1 (Hfound d) eq_refl) as (i & raw & _ & _ & _ & -> & Hne).
      split; [done|]. apply TextFacts.strip_idemp.
    + split; [lia|done].
Qed.

(** [parse_domains] gives at most one domain for each file of the
    selection, in the order of the files: the value on the first line
    that, stripped, begins with [domain:], unless that value is empty;
    later such lines are not read.  Every domain it returns is a
    non-empty text without white space around it.  It raises only when
    [iter_service_files] does; the unpacking of the split never fails. *)
Theorem parse_domains_takes_the_first_domain_line (ROOT : string)
    (selected : option (list string)) (present : gmap string string) :
  (∀ lines, ∃ found,
     OneClick.first_domain lines = Proc.Return found
     ∧ ∀ d, found = Some d
            ↔ ∃ i raw, lines !! i = Some raw
                ∧ Str.startswith "domain:" (Str.strip raw) = true
                ∧ (∀ j raw', (j < i)%nat → lines !! j = Some raw' →
                     Str.startswith "domain:" (Str.strip raw') = false)
                ∧ d = Str.strip (Str.drop 7 (Str.strip raw)) ∧ d ≠ "")
  ∧ match OneClick.iter_service_files ROOT selected present with
    | Proc.Return svc_files =>
        ∃ domains,
          OneClick.parse_domains ROOT selected present = Proc.Return domains
          ∧ OneClick.domains_of present svc_files = Proc.Return domains
          ∧ (length domains ≤ length svc_files)%nat
          ∧ Forall (λ d, d ≠ "" ∧ Str.strip d = d) domains
    | Proc.Raise e => OneClick.parse_domains ROOT selected present = Proc.Raise e
    end.
Proof.
  split; [apply first_domain_spec|].
  unfold OneClick.parse_domains.
  pose proof (iter_service_files_present ROOT selected present) as Hpresent.
  destruct (OneClick.iter_service_files ROOT selected present) as [svc_files|e]; [|done].
  destruct (domains_of_spec present svc_files (Hpresent _ eq_refl))
    as (domains & Hd & Hlen & Hall).
  by exists domains.
Qed.

(** ** one_click.py: the generated files of a selection *)

Lemma check_rendered_spec (present : gmap string string) (paths : list string) :
  match OneClick.check_rendered present paths with
  | Proc.Return _ => ∀ p, p ∈ paths → is_Some (present !! p)
  | Proc.Raise e =>
      ∃ p, e = Proc.FileNotFoundError ("Rendered file missing: " +:+ p)
        ∧ p ∈ paths ∧ present !! p = None
  end.
Proof.
  induction paths as [|p rest IH]; simpl.
  - by intros p ?%elem_of_nil.
  - case_bool_decide as Hp; simpl.
    + destruct (OneClick.check_rendered present rest) as [[]|e].
      * intros q [->|Hq]%elem_of_cons; auto.
      * destruct IH as (q & -> & Hq & Hnone). exists q. split_and!; [done| |done]. by right.
    + exists p. split_and!; [done|left|]. by apply eq_None_not_Some.
Qed.

(** The check of the generated files, on the paths as [main] joins
    them. *)
Lemma selected_files_spec (ROOT : string)
    (safe_load : string → string + yval) (selected : list string) (st : state) :
  let uniq := uniq_loop ∅ selected in
  let path_of := λ n, pjoin (SERVICES_DIR ROOT) (n +:+ ".yml") in
  let expected := OneClick.nginx_files ROOT uniq ++ OneClick.systemd_files ROOT uniq in
  (∀ present,
     match OneClick.selected_files ROOT selected present with
     | Proc.Return found =>
         found = (OneClick.nginx_files ROOT uniq, OneClick.systemd_files ROOT uniq)
         ∧ ∀ p, p ∈ expected → is_Some (present !! p)
     | Proc.Raise e =>
         ∃ p, e = Proc.FileNotFoundError ("Rendered file missing: " +:+ p)
           ∧ p ∈ expected ∧ present !! p = None
     end)
  ∧ (∀ rendered,
       (render_all ROOT safe_load true (map path_of uniq) st).1 = Ok rendered →
       rendered = map YStr uniq →
       OneClick.selected_files ROOT selected
         (fs (render_all ROOT safe_load true (map path_of uniq) st).2)
       = Proc.Return (OneClick.nginx_files ROOT uniq, OneClick.systemd_files ROOT uniq)).
Proof.
  intros uniq path_of expected.
  assert (∀ present,
     match OneClick.selected_files ROOT selected present with
     | Proc.Return found =>
         found = (OneClick.nginx_files ROOT uniq, OneClick.systemd_files ROOT uniq)
         ∧ ∀ p, p ∈ expected → is_Some (present !! p)
     | Proc.Raise e =>
         ∃ p, e = Proc.FileNotFoundError ("Rendered file missing: " +:+ p)
           ∧ p ∈ expected ∧ present !! p = None
     end) as Hcheck.
  { intros present. unfold OneClick.selected_files. fold uniq. fold expected.
    pose proof (check_rendered_spec present expected) as H.
    by destruct (OneClick.check_rendered present expected) as [[]|e]. }
  split; [done|].
  intros rendered Hrun Hnames.
  destruct (render_all ROOT safe_load true (map path_of uniq) st) as [r st'] eqn:Ea.
  simpl in Hrun. subst r. simpl.
  apply render_all_outputs in Ea as [_ Hout].
  specialize (Hcheck (fs st')).
  destruct (OneClick.selected_files ROOT selected (fs st')) as [found|e].
  - by destruct Hcheck as [-> _].
  - exfalso. destruct Hcheck as (p & _ & Hp & Hnone).
    assert (is_Some (fs st' !! p)) as [? ?]; [|congruence].
    subst expected. apply elem_of_app in Hp as [Hp|Hp].
    + apply list_elem_of_fmap in Hp as (n & -> & Hn).
      destruct (Hout (YStr n)) as [H _]; [|exact H].
      rewrite Hnames. by apply list_elem_of_fmap_2.
    + apply list_elem_of_fmap in Hp as (n & -> & Hn).
      destruct (Hout (YStr n)) as [_ H]; [|exact H].
      rewrite Hnames. by apply list_elem_of_fmap_2.
Qed.

(** The generated files of names without a slash. *)
Lemma generated_files_plain (ROOT : string) (uniq : list string) :
  Forall (λ n, Str.contains "/" n = false) uniq →
  OneClick.nginx_files ROOT uniq
  = map (λ n, OneClick.GENERATED ROOT +:+ "/nginx/" +:+ n +:+ ".conf") uniq
  ∧ OneClick.systemd_files ROOT uniq
    = map (λ n, OneClick.GENERATED ROOT +:+ "/systemd/" +:+ n +:+ ".service") uniq.
Proof.
  intros Hu. unfold OneClick.nginx_files, OneClick.systemd_files.
  split; apply Forall_fmap_ext_1; (eapply Forall_impl; [exact Hu|]); intros n Hn; cbv beta.
  - rewrite (pjoin_plain _ (n +:+ ".conf")) by by rewrite contains_char_app, Hn.
    unfold pjoin. simpl. by rewrite !StrFacts.app_assoc.
  - rewrite (pjoin_plain _ (n +:+ ".service")) by by rewrite contains_char_app, Hn.
    unfold pjoin. simpl. by rewrite !StrFacts.app_assoc.
Qed.

(** For an explicit selection of names without a slash [one_click.py]
    looks for the generated files under the names of the selection:
    [nginx/<name>.conf] and [systemd/<name>.service] in the directory of
    generated files, for each distinct non-empty name.  It goes on exactly
    when all of them are there, and otherwise raises [FileNotFoundError]
    for one that is missing.  After a strict loop of [render.py] over the
    same selection the files are all there, provided every descriptor
    rendered is named after its file, since [render.py] names its outputs
    after the name in the descriptor. *)
Theorem one_click_finds_the_rendered_files (ROOT : string)
    (safe_load : string → string + yval) (selected : list string) (st : state) :
  Forall (λ n, Str.contains "/" n = false) selected →
  let uniq := uniq_loop ∅ selected in
  let nginx_files :=
    map (λ n, OneClick.GENERATED ROOT +:+ "/nginx/" +:+ n +:+ ".conf") uniq in
  let systemd_files :=
    map (λ n, OneClick.GENERATED ROOT +:+ "/systemd/" +:+ n +:+ ".service") uniq in
  let expected := nginx_files ++ systemd_files in
  (∀ present,
     match OneClick.selected_files ROOT selected present with
     | Proc.Return found =>
         found = (nginx_files, systemd_files)
         ∧ ∀ p, p ∈ expected → is_Some (present !! p)
     | Proc.Raise e =>
         ∃ p, e = Proc.FileNotFoundError ("Rendered file missing: " +:+ p)
           ∧ p ∈ expected ∧ present !! p = None
     end)
  ∧ (∀ rendered,
       (render_all ROOT safe_load true (map (descriptor_file ROOT) uniq) st).1
         = Ok rendered →
       rendered = map YStr uniq →
       OneClick.selected_files ROOT selected
         (fs (render_all ROOT safe_load true (map (descriptor_file ROOT) uniq) st).2)
       = Proc.Return (nginx_files, systemd_files)).
Proof.
  intros Hplain uniq nginx_files systemd_files expected.
  pose proof (uniq_loop_Forall _ ∅ _ Hplain) as Hu. fold uniq in Hu.
  destruct (generated_files_plain ROOT uniq Hu) as [Hn Hs].
  assert (map (λ n, pjoin (SERVICES_DIR ROOT) (n +:+ ".yml")) uniq
          = map (descriptor_file ROOT) uniq) as Hpaths.
  { apply Forall_fmap_ext_1. eapply Forall_impl; [exact Hu|].
    intros n Hp. by apply descriptor_file_plain. }
  subst expected nginx_files systemd_files. rewrite <- Hn, <- Hs, <- Hpaths.
  apply selected_files_spec.
Qed.

(** ** The readers agree on the domain *)

Lemma entry_of_domain_line (raw : string) :
  Str.startswith "domain:" (Str.strip raw) = true →
  entry_of raw = Some ("domain", Str.strip (Str.drop 7 (Str.strip raw))).
Proof.
  intros [t Ht]%StrFacts.startswith_split. unfold entry_of. rewrite Ht. reflexivity.
Qed.

(** The domain [one_click.py] requests a certificate for is a domain the
    other two scripts read.  The line [parse_domains] takes its value
    from is an entry for the key [domain] of the line-by-line reader of
    [deploy.py] and [sync_and_deploy.py]; so when the lines define the
    key [domain] once, the domain found by [one_click.py] is the one the
    dictionary of the reader holds. *)
Theorem line_readers_agree_on_the_domain (lines : list string) (d : string) :
  OneClick.first_domain lines = Proc.Return (Some d) →
  let domains := filter (λ kv, kv.1 = "domain") (omap entry_of lines) in
  ("domain", d) ∈ domains
  ∧ (length domains = 1%nat →
       ∃ data, Proc.read_lines ∅ lines = Proc.Return data
         ∧ Proc.get data "domain" = d).
Proof.
  intros Hfirst domains.
  destruct (first_domain_spec lines) as (found & Hf & Hfound).
  rewrite Hf in Hfirst. injection Hfirst as ->.
  destruct (proj1 (Hfound d) eq_refl) as (i & raw & Hi & Hs & _ & Hd & _).
  assert (("domain", d) ∈ domains) as Hin.
  { subst domains. apply list_elem_of_filter. split; [done|].
    apply list_elem_of_omap. exists raw. split; [by eapply list_elem_of_lookup_2|].
    rewrite Hd. by apply entry_of_domain_line. }
  split; [done|]. intros Hone.
  destruct (read_lines_spec lines ∅) as (data & Hr & Hdata).
  exists data. split; [done|]. unfold Proc.get. rewrite Hdata. unfold last_value.
  fold domains. destruct domains as [|kv [|kv' rest]]; try done.
  apply list_elem_of_singleton in Hin as <-. done.
Qed.

(** ** sync_and_deploy.py: reading a descriptor *)

Lemma sync_parse_service_world (path : string) (w : Proc.world) :
  (SyncAndDeploy.parse_service path w).2 = w.
Proof.
  unfold SyncAndDeploy.parse_service, mbind, Proc.M_bind, Proc.read_text, Proc.raise.
  destruct (Proc.files w !! path) as [text|]; [|done].
  destruct (read_lines_spec (Str.splitlines text) ∅) as (data & -> & _).
  by destruct (negb _ || negb _ || negb _).
Qed.

(** [sync_and_deploy.py] reads a descriptor without changing anything,
    the fields being those of the last line that defines each key.  It
    returns a record exactly when the name, the repository and the
    working directory are not empty, and otherwise the skip signal; the
    reference defaults to [main] and the health path to [/health]; the
    compose file and the build, start and migrate commands are emptied
    when they are quoted-empty texts.  The domain may be empty. *)
Theorem sync_parse_service_outcomes (path : string) (w : Proc.world) :
  let r := (SyncAndDeploy.parse_service path w).1 in
  (SyncAndDeploy.parse_service path w).2 = w
  ∧ (Proc.files w !! path = None →
       r = Proc.Raise (Proc.FileNotFoundError
                         ("[Errno 2] No such file or directory: " +:+ Py.repr_str path)))
  ∧ (∀ text, Proc.files w !! path = Some text →
       let given := λ key, default "" (last_value key (omap entry_of (Str.splitlines text))) in
       let clean := λ key, if Proc.is_quoted_empty (given key) then "" else given key in
       r = Proc.Return
             (if Str.nonempty (given "name") && Str.nonempty (given "repo_url")
                 && Str.nonempty (given "working_dir")
              then Some {| SyncAndDeploy.name := given "name";
                           SyncAndDeploy.domain := given "domain";
                           SyncAndDeploy.repo_url := given "repo_url";
                           SyncAndDeploy.repo_ref :=
                             if Str.nonempty (given "repo_ref") then given "repo_ref"
                             else "main";
                           SyncAndDeploy.working_dir := given "working_dir";
                           SyncAndDeploy.compose_file := clean "compose_file";
                           SyncAndDeploy.build_cmd := clean "build_cmd";
                           SyncAndDeploy.start_cmd := clean "start_cmd";
                           SyncAndDeploy.migrate_cmd := clean "migrate_cmd";
                           SyncAndDeploy.health_path :=
                             if Str.nonempty (given "health_path") then given "health_path"
                             else "/health" |}
              else None))
  ∧ (∀ svc, r = Proc.Return (Some svc) →
       SyncAndDeploy.name svc ≠ "" ∧ SyncAndDeploy.repo_url svc ≠ ""
       ∧ SyncAndDeploy.working_dir svc ≠ "" ∧ SyncAndDeploy.repo_ref svc ≠ ""
       ∧ SyncAndDeploy.health_path svc ≠ ""
       ∧ Proc.is_quoted_empty (SyncAndDeploy.compose_file svc) = false
       ∧ Proc.is_quoted_empty (SyncAndDeploy.build_cmd svc) = false
       ∧ Proc.is_quoted_empty (SyncAndDeploy.start_cmd svc) = false
       ∧ Proc.is_quoted_empty (SyncAndDeploy.migrate_cmd svc) = false).
Proof.
  intros r. split; [apply sync_parse_service_world|].
  subst r. unfold SyncAndDeploy.parse_service, mbind, Proc.M_bind, Proc.read_text, Proc.raise.
  destruct (Proc.files w !! path) as [text|] eqn:Hf; [|by split_and!].
  destruct (read_lines_spec (Str.splitlines text) ∅) as (data & -> & Hd).
  assert (∀ key, Proc.get data key
                 = default "" (last_value key (omap entry_of (Str.splitlines text)))) as Hget.
  { intros key. unfold Proc.get. rewrite Hd, lookup_empty.
    by destruct (last_value key _). }
  rewrite !Hget. unfold SyncAndDeploy._clean, SyncAndDeploy.or_default.
  split_and!.
  - done.
  - intros text' [= <-]. cbv beta zeta.
    destruct (Str.nonempty (default "" (last_value "name" _))); [|done].
    destruct (Str.nonempty (default "" (last_value "repo_url" _))); [|done].
    by destruct (Str.nonempty (default "" (last_value "working_dir" _))).
  - intros svc.
    destruct (Str.nonempty (default "" (last_value "name" _))) eqn:Hn; [|done].
    destruct (Str.nonempty (default "" (last_value "repo_url" _))) eqn:Hr; [|done].
    destruct (Str.nonempty (default "" (last_value "working_dir" _))) eqn:Hwd; [|done].
    simpl. intros [= <-]. simpl.
    split_and!; try (by apply StrFacts.nonempty_true); try apply clean_not_quoted.
    + destruct (Str.nonempty (default "" (last_value "repo_ref" _))) eqn:E; [|done].
      by apply StrFacts.nonempty_true.
    + destruct (Str.nonempty (default "" (last_value "health_path" _))) eqn:E; [|done].
      by apply StrFacts.nonempty_true.
Qed.

(** ** sync_and_deploy.py: main *)

Lemma sync_parse_service_reads (path : string) (w : Proc.world) :
  is_Some (Proc.files w !! path) →
  SyncAndDeploy.parse_service path w = (Proc.Return (record_at w path), w).
Proof.
  intros [text Hf]. unfold record_at.
  pose proof (sync_parse_service_world path w) as Hw.
  assert (∃ o, (SyncAndDeploy.parse_service path w).1 = Proc.Return o) as [o Ho].
  { unfold SyncAndDeploy.parse_service, mbind, Proc.M_bind, Proc.read_text, Proc.raise.
    rewrite Hf.
    destruct (read_lines_spec (Str.splitlines text) ∅) as (data & -> & _).
    destruct (negb _ || negb _ || negb _); by eexists. }
  rewrite Ho. destruct (SyncAndDeploy.parse_service path w) as [r w'].
  simpl in *. subst. by destruct o.
Qed.

Lemma record_at_missing (path : string) (w : Proc.world) :
  Proc.files w !! path = None → record_at w path = None.
Proof.
  intros Hf. unfold record_at, SyncAndDeploy.parse_service, mbind, Proc.M_bind, Proc.read_text.
  by rewrite Hf.
Qed.

Lemma resolve_spec (ROOT : string) (uniq : list string) (w : Proc.world) :
  Sync.resolve ROOT uniq w
  = (Proc.Return
       (filter (λ n, Proc.files w !! descriptor_path ROOT n = None) uniq,
        filter (λ n, is_Some (Proc.files w !! descriptor_path ROOT n)
                     ∧ record_at w (descriptor_path ROOT n) = None) uniq,
        omap (λ n, record_at w (descriptor_path ROOT n)) uniq), w).
Proof.
  induction uniq as [|n rest IH]; [done|].
  cbn [Sync.resolve]. unfold mbind, Proc.M_bind, Proc.get_files at 1.
  fold (descriptor_path ROOT n).
  destruct (Proc.files w !! descriptor_path ROOT n) as [text|] eqn:Hf.
  - rewrite bool_decide_true by eauto. cbn [negb].
    rewrite sync_parse_service_reads by (rewrite Hf; eauto).
    rewrite IH. rewrite filter_cons_False by (by rewrite Hf).
    cbn [omap list_omap].
    destruct (record_at w (descriptor_path ROOT n)) as [svc|] eqn:Hr.
    + rewrite filter_cons_False by (rewrite Hr; intros [_ ?]; done). done.
    + rewrite filter_cons_True by (rewrite Hf; eauto). done.
  - rewrite bool_decide_false by (intros [? ?]; done). cbn [negb].
    rewrite IH. rewrite filter_cons_True by done.
    rewrite filter_cons_False by (rewrite Hf; intros [[? ?] _]; done).
    cbn [omap list_omap]. by rewrite (record_at_missing _ _ Hf).
Qed.


Lemma filter_none {A : Type} (P : A → Prop) `{!∀ x, Decision (P x)} (l : list A) :
  Forall (λ x, ¬ P x) l → filter P l = [].
Proof. induction 1 as [|x l Hx _ IH]; [done|]. by rewrite filter_cons_False. Qed.

Arguments Sync.render_remote_script : simpl never.

Lemma sync_all_spec (spawn : list Proc.process → Proc.process → Proc.started)
    (ssh_host : string) (services : list SyncAndDeploy.service) (w : Proc.world) :
  let plan := map (ssh_process ssh_host) services in
  let ran := (run_plan spawn (Proc.runs w) plan).1 in
  let failure := (run_plan spawn (Proc.runs w) plan).2 in
  let r := Sync.sync_all spawn ssh_host services w in
  r.1 = match failure with None => Proc.Return tt | Some e => Proc.Raise e end
  ∧ Proc.files r.2 = Proc.files w
  ∧ Proc.stderr r.2 = Proc.stderr w
  ∧ Proc.runs r.2 = Proc.runs w ++ ran
  ∧ (failure = None →
       Proc.stdout r.2 = Proc.stdout w ++ map (syncing_line ssh_host) services).
Proof.
  revert w. induction services as [|svc rest IH]; intros w; cbv zeta.
  - simpl. by rewrite !app_nil_r.
  - cbn [Sync.sync_all map run_plan]. unfold mbind, Proc.M_bind, Proc.print, Proc.run.
    cbn [Proc.runs Proc.files Proc.stdout Proc.stderr andb].
    fold (ssh_process ssh_host svc). fold (syncing_line ssh_host svc).
    destruct (spawn (Proc.runs w) (ssh_process ssh_host svc)) as [code|reason];
      [|cbn [fst snd Proc.runs Proc.files Proc.stdout Proc.stderr];
        by rewrite app_nil_r].
    destruct (code =? 0); cbn [negb fst snd Proc.runs Proc.files Proc.stdout Proc.stderr];
      [|by split_and!].
    match goal with
    | |- context [Sync.sync_all spawn ssh_host rest ?w'] => specialize (IH w')
    end.
    cbv zeta in IH. cbn [Proc.runs Proc.files Proc.stdout Proc.stderr] in IH.
    destruct (run_plan spawn (Proc.runs w ++ [ssh_process ssh_host svc])
                (map (ssh_process ssh_host) rest)) as [ran failure].
    destruct IH as (Hr & Hf & He & Hruns & Ho). cbn [fst snd] in *.
    split_and!; [done|done|done|by rewrite Hruns, <- app_assoc|].
    intros Hnone. rewrite (Ho Hnone), <- app_assoc. done.
Qed.

Lemma sync_services_spec (spawn : list Proc.process → Proc.process → Proc.started)
    (ssh_host : string) (services : list SyncAndDeploy.service) (w : Proc.world) :
  let plan := map (ssh_process ssh_host) services in
  let ran := (run_plan spawn (Proc.runs w) plan).1 in
  let failure := (run_plan spawn (Proc.runs w) plan).2 in
  let r := Sync.sync_services spawn ssh_host services w in
  r.1 = match failure with None => Proc.Return 0 | Some e => Proc.Raise e end
  ∧ Proc.runs r.2 = Proc.runs w ++ ran
  ∧ (∃ rest, plan = ran ++ rest)
  ∧ Proc.files r.2 = Proc.files w
  ∧ Proc.stderr r.2 = Proc.stderr w
  ∧ (failure = None →
       ran = plan ∧ Proc.stdout r.2 = Proc.stdout w ++ sync_report ssh_host services).
Proof.
  cbv zeta.
  pose proof (run_plan_prefix spawn (map (ssh_process ssh_host) services) (Proc.runs w))
    as Hprefix.
  pose proof (run_plan_complete spawn (map (ssh_process ssh_host) services) (Proc.runs w))
    as Hcomplete.
  destruct services as [|svc rest].
  - simpl. split_and!; try done. by rewrite app_nil_r.
  - pose proof (sync_all_spec spawn ssh_host (svc :: rest) w) as H. cbv zeta in H.
    unfold Sync.sync_services, mbind, Proc.M_bind.
    destruct (Sync.sync_all spawn ssh_host (svc :: rest) w) as [[[]|e] w'];
      destruct (run_plan spawn (Proc.runs w) (map (ssh_process ssh_host) (svc :: rest)))
        as [ran [e'|]];
      cbn [fst snd] in *; destruct H as (Hr & Hf & He & Hruns & Ho);
      try discriminate Hr.
    + unfold Proc.print. cbn [fst snd Proc.runs Proc.files Proc.stdout Proc.stderr].
      split_and!; try done. intros _. split; [by apply Hcomplete|].
      rewrite (Ho eq_refl). unfold sync_report. by rewrite <- app_assoc.
    + injection Hr as <-. split_and!; done.
Qed.


(** With [--service], when every name given (empty names apart) has a
    descriptor that [sync_and_deploy.py] does not skip, it deploys
    exactly these services, each once, in the order the names are first
    given: one checked remote shell for each, stopping at the first that
    fails.  A selection of empty names only deploys nothing and returns
    0. *)
Theorem sync_deploys_a_complete_selection (ROOT : string)
    (spawn : list Proc.process → Proc.process → Proc.started)
    (ssh_host name : string) (names : list string) (w : Proc.world) :
  let uniq := uniq_loop ∅ (name :: names) in
  Forall (λ n, is_Some (record_at w (descriptor_path ROOT n))) uniq →
  let services := omap (λ n, record_at w (descriptor_path ROOT n)) uniq in
  let plan := map (ssh_process ssh_host) services in
  let ran := (run_plan spawn (Proc.runs w) plan).1 in
  let failure := (run_plan spawn (Proc.runs w) plan).2 in
  let r := (Sync.main ROOT spawn ssh_host (Some (name :: names)) w).1 in
  let w' := (Sync.main ROOT spawn ssh_host (Some (name :: names)) w).2 in
  length services = length uniq
  ∧ r = match failure with None => Proc.Return 0 | Some e => Proc.Raise e end
  ∧ Proc.runs w' = Proc.runs w ++ ran
  ∧ (∃ rest, plan = ran ++ rest)
  ∧ Proc.files w' = Proc.files w
  ∧ Proc.stderr w' = Proc.stderr w
  ∧ (failure = None →
       ran = plan ∧ Proc.stdout w' = Proc.stdout w ++ sync_report ssh_host services).
Proof.
  cbv zeta. intros Hall. split.
  { induction Hall as [|n rest [svc Hn] _ IH]; [done|].
    cbn [omap list_omap]. rewrite Hn. simpl. by rewrite IH. }
  unfold Sync.main, mbind, Proc.M_bind. rewrite resolve_spec.
  rewrite !filter_none.
  - apply sync_services_spec.
  - eapply Forall_impl; [exact Hall|]. intros n [svc Hn] [_ Hnone]. congruence.
  - eapply Forall_impl; [exact Hall|]. intros n [svc Hn] Hnone.
    rewrite (record_at_missing _ _ Hnone) in Hn. done.
Qed.

(** What [main] does when the loop over the names found one without
    file or with a skipped descriptor, on the paths as [main] joins
    them. *)
Lemma sync_main_refuses (ROOT : string)
    (spawn : list Proc.process → Proc.process → Proc.started)
    (ssh_host name : string) (names : list string) (w : Proc.world) :
  let uniq := uniq_loop ∅ (name :: names) in
  Exists (λ n, record_at w (descriptor_path ROOT n) = None) uniq →
  let missing_files := filter (λ n, Proc.files w !! descriptor_path ROOT n = None) uniq in
  let invalid :=
    filter (λ n, is_Some (Proc.files w !! descriptor_path ROOT n)
                 ∧ record_at w (descriptor_path ROOT n) = None) uniq in
  Sync.main ROOT spawn ssh_host (Some (name :: names)) w
  = (Proc.Return 1,
     {| Proc.files := Proc.files w;
        Proc.stdout := Proc.stdout w;
        Proc.stderr :=
          Proc.stderr w
          ++ match missing_files with
             | [] => []
             | _ => ["Service file(s) not found: " +:+ Str.join ", " missing_files]
             end
          ++ match invalid with
             | [] => []
             | _ => ["Invalid service definition(s) (missing name/repo_url/working_dir): "
                     +:+ Str.join ", " invalid]
             end
          ++ ["Available services: " +:+ Sync.available ROOT (Proc.files w)];
        Proc.runs := Proc.runs w |}).
Proof.
  cbv zeta. intros Hsome.
  unfold Sync.main, mbind, Proc.M_bind. rewrite resolve_spec.
  destruct (filter (λ n, Proc.files w !! descriptor_path ROOT n = None)
              (uniq_loop ∅ (name :: names))) as [|m ms] eqn:Hm;
    destruct (filter (λ n, is_Some (Proc.files w !! descriptor_path ROOT n)
                           ∧ record_at w (descriptor_path ROOT n) = None)
                (uniq_loop ∅ (name :: names))) as [|i is'] eqn:Hi;
    [exfalso| | |].
  { apply Exists_exists in Hsome as (n & Hin & Hn).
    destruct (Proc.files w !! descriptor_path ROOT n) as [text|] eqn:Hf.
    - apply (filter_nil_not_elem_of _ _ n Hi); [|done]. rewrite Hf. eauto.
    - by apply (filter_nil_not_elem_of _ _ n Hm). }
  all:
    unfold Proc.get_files, Proc.eprint, mret, Proc.M_ret;
    cbn [Proc.files Proc.stdout Proc.stderr Proc.runs app];
    by rewrite <- ?app_assoc.
Qed.

Lemma filter_ext_Forall {A : Type} (P Q : A → Prop) `{!∀ x, Decision (P x)}
    `{!∀ x, Decision (Q x)} (l : list A) :
  Forall (λ x, P x ↔ Q x) l → filter P l = filter Q l.
Proof.
  induction 1 as [|x l Hx _ IH]; [done|]. rewrite !filter_cons, IH.
  destruct (decide (P x)) as [HP|HP].
  - by rewrite decide_True by by apply Hx.
  - by rewrite decide_False by (intros HQ; by apply HP, Hx).
Qed.

(** With [--service] and names without a slash, each standing for the
    file [<name>.yml] directly in the services directory: one name
    without a descriptor file, or with a descriptor that is skipped, is
    enough for nothing to be deployed, the valid names of the selection
    included: no process is run and nothing is printed to stdout; stderr
    gets the names without file (if any), the names with a skipped
    descriptor (if any), both in the order first given, and the names
    available; the exit status is 1. *)
Theorem sync_refuses_an_incomplete_selection (ROOT : string)
    (spawn : list Proc.process → Proc.process → Proc.started)
    (ssh_host name : string) (names : list string) (w : Proc.world) :
  Forall (λ n, Str.contains "/" n = false) (name :: names) →
  let uniq := uniq_loop ∅ (name :: names) in
  Exists (λ n, record_at w (descriptor_file ROOT n) = None) uniq →
  let missing_files := filter (λ n, Proc.files w !! descriptor_file ROOT n = None) uniq in
  let invalid :=
    filter (λ n, is_Some (Proc.files w !! descriptor_file ROOT n)
                 ∧ record_at w (descriptor_file ROOT n) = None) uniq in
  Sync.main ROOT spawn ssh_host (Some (name :: names)) w
  = (Proc.Return 1,
     {| Proc.files := Proc.files w;
        Proc.stdout := Proc.stdout w;
        Proc.stderr :=
          Proc.stderr w
          ++ match missing_files with
             | [] => []
             | _ => ["Service file(s) not found: " +:+ Str.join ", " missing_files]
             end
          ++ match invalid with
             | [] => []
             | _ => ["Invalid service definition(s) (missing name/repo_url/working_dir): "
                     +:+ Str.join ", " invalid]
             end
          ++ ["Available services: " +:+ Sync.available ROOT (Proc.files w)];
        Proc.runs := Proc.runs w |}).
Proof.
  intros Hplain uniq Hsome missing_files invalid.
  pose proof (uniq_loop_Forall _ ∅ _ Hplain) as Hu. fold uniq in Hu.
  assert (Forall (λ n, descriptor_path ROOT n = descriptor_file ROOT n) uniq) as Hpaths.
  { eapply Forall_impl; [exact Hu|]. intros n Hn. by apply descriptor_file_plain. }
  subst missing_files invalid.
  rewrite <- (filter_ext_Forall
                (λ n, Proc.files w !! descriptor_path ROOT n = None)
                (λ n, Proc.files w !! descriptor_file ROOT n = None) uniq)
    by (eapply Forall_impl; [exact Hpaths|]; intros n Hn; cbv beta in *; by rewrite Hn).
  rewrite <- (filter_ext_Forall
                (λ n, is_Some (Proc.files w !! descriptor_path ROOT n)
                      ∧ record_at w (descriptor_path ROOT n) = None)
                (λ n, is_Some (Proc.files w !! descriptor_file ROOT n)
                      ∧ record_at w (descriptor_file ROOT n) = None) uniq)
    by (eapply Forall_impl; [exact Hpaths|]; intros n Hn; cbv beta in *; by rewrite Hn).
  apply sync_main_refuses.
  apply Exists_exists in Hsome as (n & Hin & Hn). apply Exists_exists. exists n.
  split; [done|]. eapply Forall_forall in Hpaths; [|exact Hin]. by rewrite Hpaths.
Qed.

(** ** Lemmas on reversed texts, names and stems *)

Module PathFacts.
Import Str StrFacts LineFacts.

Lemma rev_app (a b : string) : String.rev (a +:+ b) = String.rev b +:+ String.rev a.
Proof.
  induction a as [|c a IH]; [by rewrite app_nil_l, app_nil_r|].
  by rewrite app_cons, !rev_cons, IH, app_assoc.
Qed.

Lemma rev_involutive (s : string) : String.rev (String.rev s) = s.
Proof.
  induction s as [|c s IH]; [done|]. by rewrite rev_cons, rev_app, IH.
Qed.

Lemma rev_nonempty (s : string) : s ≠ "" → String.rev s ≠ "".
Proof. intros Hs Hr. apply Hs. by rewrite <- (rev_involutive s), Hr. Qed.

Lemma endswith_split (suffix s : string) :
  endswith suffix s = true → ∃ t, s = t +:+ suffix.
Proof.
  unfold endswith. intros [t Ht]%startswith_split. exists (String.rev t).
  by rewrite <- (rev_involutive s), Ht, rev_app, rev_involutive.
Qed.

Lemma endswith_app (suffix t : string) : endswith suffix (t +:+ suffix) = true.
Proof. unfold endswith. rewrite rev_app. apply startswith_app. Qed.

Lemma basename_go_plain (cur s : string) :
  contains "/" s = false → basename_go cur s = String.rev cur +:+ s.
Proof.
  revert cur. induction s as [|c s IH]; intros cur Hs; [by rewrite app_nil_r|].
  apply ReplaceFacts.contains_cons_false in Hs as [Hc Hs].
  cbn [basename_go]. simpl in Hc.
  destruct (decide (c = "/"%char)) as [->|Hne]; [done|].
  rewrite IH, rev_cons, app_assoc by done. done.
Qed.

Lemma basename_go_app (cur a s : string) :
  basename_go cur (a +:+ String "/" s) = basename_go "" s.
Proof.
  revert cur. induction a as [|c a IH]; intros cur; [done|].
  rewrite app_cons. cbn [basename_go]. by destruct (decide (c = "/"%char)).
Qed.

(** The name of a file that is directly in a directory. *)
Lemma basename_child (dir name : string) :
  contains "/" name = false → basename (dir +:+ "/" +:+ name) = name.
Proof.
  intros Hn. unfold basename.
  change (dir +:+ "/" +:+ name) with (dir +:+ String "/" name).
  by rewrite basename_go_app, basename_go_plain.
Qed.

(** The stem of a descriptor's file name is what stands before [.yml],
    unless that is nothing. *)
Lemma stem_yml (n : string) : n ≠ "" → PurePath.stem (n +:+ ".yml") = n.
Proof.
  intros Hn. unfold PurePath.stem. rewrite rev_app.
  change (String.rev ".yml" +:+ String.rev n) with ("lmy" +:+ String "." (String.rev n)).
  rewrite (SplitFacts.split_at_app "." "lmy" (String.rev n)) by done.
  cbn [nonempty andb]. apply rev_nonempty, nonempty_true in Hn. rewrite Hn.
  apply rev_involutive.
Qed.

(** [a / b] for a relative [b]. *)
Lemma pjoin_relative (a b : string) : startswith "/" b = false → pjoin a b = a +:+ "/" +:+ b.
Proof. unfold pjoin. by intros ->. Qed.

Lemma startswith_char_contains (c : ascii) (s t : string) :
  contains (String c "") s = false → s ≠ "" → startswith (String c "") (s +:+ t) = false.
Proof.
  destruct s as [|d s]; [done|]. intros Hc _.
  apply ReplaceFacts.contains_cons_false in Hc as [Hc _].
  rewrite app_cons. simpl in *. by destruct (decide (c = d)).
Qed.

End PathFacts.

Lemma is_service_file_child (ROOT fname : string) :
  Str.contains "/" fname = false → Str.endswith ".yml" fname = true →
  is_service_file ROOT (SERVICES_DIR ROOT +:+ "/" +:+ fname) = true.
Proof.
  intros Hc He. unfold is_service_file. cbv zeta.
  rewrite <- StrFacts.app_assoc.
  by rewrite StrFacts.startswith_app, TextFacts.drop_app, Hc, He.
Qed.

Lemma elem_of_stems (ROOT : string) (present : gmap string string) (name : string) :
  name ∈ Sync.stems ROOT present
  ↔ ∃ fname, is_Some (present !! (SERVICES_DIR ROOT +:+ "/" +:+ fname))
      ∧ Str.contains "/" fname = false ∧ Str.endswith ".yml" fname = true
      ∧ name = PurePath.stem fname.
Proof.
  unfold Sync.stems. rewrite merge_sort_Permutation, list_elem_of_fmap. split.
  - intros (p & -> & [Hp Hs]%glob_services_spec).
    apply is_service_file_name in Hs as (fname & -> & Hc & He).
    exists fname. by rewrite PathFacts.basename_child.
  - intros (fname & Hp & Hc & He & ->).
    exists (SERVICES_DIR ROOT +:+ "/" +:+ fname).
    rewrite PathFacts.basename_child by done. split; [done|].
    apply glob_services_spec. split; [done|]. by apply is_service_file_child.
Qed.

(** The names [sync_and_deploy.py] lists as available when it refuses a
    selection are the names that can be selected: a name is listed
    exactly when it is not empty, holds no slash, and has a descriptor
    file in the services directory.  The one exception is a file called
    [.yml]: it is listed under the name [.yml], which the script then
    looks up as [.yml.yml]. *)
Theorem available_names_are_the_selectable_ones (ROOT : string)
    (present : gmap string string) (name : string) :
  name ∈ Sync.stems ROOT present
  ↔ name ≠ "" ∧ Str.contains "/" name = false
    ∧ (is_Some (present !! descriptor_path ROOT name)
       ∨ name = ".yml" ∧ is_Some (present !! (SERVICES_DIR ROOT +:+ "/.yml"))).
Proof.
  rewrite elem_of_stems. unfold descriptor_path. split.
  - intros (fname & Hp & Hc & [n ->]%PathFacts.endswith_split & ->).
    destruct (decide (n = "")) as [->|Hn].
    + split_and!; [done|done|]. right. done.
    + rewrite (PathFacts.stem_yml n Hn).
      rewrite contains_char_app in Hc. apply orb_false_iff in Hc as [Hc _].
      split_and!; [done|done|]. left.
      by rewrite PathFacts.pjoin_relative by by apply PathFacts.startswith_char_contains.
  - intros (Hn & Hc & [Hp|[-> Hp]]).
    + exists (name +:+ ".yml").
      rewrite PathFacts.pjoin_relative in Hp by by apply PathFacts.startswith_char_contains.
      split_and!; [done| |apply PathFacts.endswith_app|by rewrite PathFacts.stem_yml].
      by rewrite contains_char_app, Hc.
    + exists ".yml". by split_and!.
Qed.

(** ** sync_and_deploy.py: the remote script *)

Lemma quote_nonempty (s : string) : Str.nonempty (Shlex.quote s) = true.
Proof.
  unfold Shlex.quote. destruct (Str.nonempty s) eqn:Hs; [|done].
  cbn [negb]. by destruct (Shlex.all_safe s).
Qed.

Lemma split_go_plain (c : ascii) (cur s : string) :
  Str.contains (String c "") s = false → PurePath.split_go c cur s = [String.rev cur +:+ s].
Proof.
  revert cur. induction s as [|d s IH]; intros cur Hs.
  - by rewrite StrFacts.app_nil_r.
  - apply ReplaceFacts.contains_cons_false in Hs as [Hd Hs].
    cbn [PurePath.split_go]. simpl in Hd.
    destruct (decide (d = c)) as [->|Hne]; [by rewrite decide_True in Hd|].
    rewrite IH, LineFacts.rev_cons, StrFacts.app_assoc by done. done.
Qed.

(** A path of one component has no parent to name. *)
Lemma parent_name_plain (s : string) :
  Str.contains "/" s = false → PurePath.parent_name s = "".
Proof.
  intros Hs. unfold PurePath.parent_name, PurePath.parts.
  rewrite (split_go_plain "/" "" s Hs). rewrite filter_cons, filter_nil.
  by destruct (decide _).
Qed.

(** For a compose file named without a directory, as in
    [compose_file: docker-compose.yml], the remote script takes no
    project name from it: right after its fixed head it inspects, and if
    need be creates, the network [_default], and then pulls the images
    of the compose file. *)
Theorem compose_file_without_directory_uses_network_default
    (svc : SyncAndDeploy.service) :
  Str.nonempty (SyncAndDeploy.compose_file svc) = true →
  Str.contains "/" (SyncAndDeploy.compose_file svc) = false →
  ∃ tail,
    Sync.render_remote_script svc
    = Str.join Str.nl
        (Sync.script_head (Shlex.quote (SyncAndDeploy.name svc))
           (Shlex.quote (SyncAndDeploy.working_dir svc))
           (Shlex.quote (SyncAndDeploy.repo_url svc))
           (Shlex.quote (SyncAndDeploy.repo_ref svc))
         ++ ["docker network inspect _default >/dev/null 2>&1 || docker network create _default";
             "docker compose -f " +:+ Shlex.quote (SyncAndDeploy.compose_file svc) +:+ " pull"]
         ++ tail).
Proof.
  intros Hne Hplain. unfold Sync.render_remote_script. cbv zeta.
  rewrite Hne, quote_nonempty, (parent_name_plain _ Hplain).
  eexists. reflexivity.
Qed.

(** * The further properties at work on examples *)

(** The services of the first store, found without a selection. *)
Lemma load_services_without_selection_witness :
  ∃ svc_files,
    (load_services Example.root None Example.st0).1 = Ok svc_files
    ∧ Sorted String.le svc_files ∧ NoDup svc_files.
Proof.
  destruct (load_services_without_selection Example.root None Example.st0 eq_refl)
    as (svc_files & H & Hsorted & Hnodup & _).
  exists svc_files. split_and!; [exact (f_equal fst H)|exact Hsorted|exact Hnodup].
Defined.

(** The rule of the entry that strips the prefix. *)
Lemma parse_locations_rules_are_trimmed_witness :
  let entries := [YDict Example2.stripped; YDict Example2.bare] in
  let r := {| path := "/v1/"; proxy_pass := "http://10.0.0.2:7000/"; extra := "gzip on;" |} in
  r ∈ (parse_locations (YList entries) (YStr "127.0.0.1") (YInt 9000)).1
  ∧ ∃ kvs, YDict kvs ∈ entries
      ∧ Py.truthy (Py.get "path" kvs) = true
      ∧ path r = Str.strip (Py.str (Py.get "path" kvs))
      ∧ Str.strip (path r) = path r
      ∧ Str.rstrip (extra r) = extra r
      ∧ (strip_prefix_of kvs = true →
           proxy_pass r = "" ∨ Str.last (proxy_pass r) = Some "/"%char).
Proof.
  intros entries r.
  assert (r ∈ (parse_locations (YList entries) (YStr "127.0.0.1") (YInt 9000)).1) as Hin.
  { vm_compute. left. }
  split; [exact Hin|].
  exact (parse_locations_rules_are_trimmed entries (YStr "127.0.0.1") (YInt 9000) r Hin).
Defined.

(** The record of the descriptor [shop]. *)
Lemma parse_service_record_is_complete_witness :
  let s := Example.record_of Example2.shop in
  Py.truthy (STOP_CMD s) = true ∧ in_texts (STOP_CMD s) quoted_empty = false
  ∧ UPSTREAM_PORT s ≠ "" ∧ STATIC_ROOT s = YStr "".
Proof.
  intros s.
  destruct (parse_service_record_is_complete Example2.yaml
              "/srv/orchestration/services/shop.yml" false Example2.st2
              (parse_service Example2.yaml "/srv/orchestration/services/shop.yml" false
                 Example2.st2).2 s)
    as (_ & _ & _ & _ & Hport & _ & _ & _ & Hstop & Hstop' & _ & _ & Hroot & _).
  { apply injective_projections; [vm_compute; reflexivity|reflexivity]. }
  split_and!; [exact Hstop|exact Hstop'|exact Hport|].
  apply Hroot. reflexivity.
Defined.

Lemma parse_service_defaults_witness :
  let s := Example.record_of Example2.shop in
  UPSTREAM_HOST s = YStr "127.0.0.1" ∧ USER s = YStr "shop"
  ∧ HEALTH_PATH s = YStr "/health" ∧ STOP_CMD s = YStr "/bin/true"
  ∧ STATIC_ROOT s = YStr "" ∧ MIGRATE_CMD s = YStr "" ∧ ALLOW_PLAIN_HTTP s = false.
Proof.
  intros s.
  refine (parse_service_defaults Example2.yaml "/srv/orchestration/services/shop.yml"
            Example2.shop_yml false Example2.st2
            (parse_service Example2.yaml "/srv/orchestration/services/shop.yml" false
               Example2.st2).2 Example2.shop s _ _ _).
  - vm_compute. reflexivity.
  - vm_compute. reflexivity.
  - apply injective_projections; [vm_compute; reflexivity|reflexivity].
Defined.

(** Rendering the descriptor whose name is a number. *)
Lemma render_service_needs_text_fields_witness :
  let s := Example.record_of Example2.numbered in
  NAME s = YInt 123
  ∧ (render_service Example.root s Example.st0).1 = Raise TypeError
  ∧ is_Some (fs (render_service Example.root s Example.st0).2 !! nginx_conf Example.root s)
  ∧ fs (render_service Example.root s Example.st0).2 !! systemd_unit Example.root s = None.
Proof.
  intros s.
  destruct (render_service_needs_text_fields Example.root s Example.st0
              Example.nginx_tmpl Example.systemd_tmpl) as (conf & _ & Hrun & Hunit).
  - vm_compute. reflexivity.
  - vm_compute. reflexivity.
  - reflexivity.
  - split_and!.
    + reflexivity.
    + by rewrite Hrun.
    + rewrite Hrun. simpl. rewrite lookup_insert_eq. by exists conf.
    + rewrite Hunit. vm_compute. reflexivity.
Defined.

(** A strict run over two names of the first store, one asked for
    twice. *)
Lemma strict_run_renders_every_selected_witness :
  let selected := ["stack"; ""; "api"; "stack"] in
  let path_of := descriptor_file Example.root in
  uniq_loop ∅ selected = ["stack"; "api"]
  ∧ ∃ rendered,
      (render_all Example.root Example.yaml true (map path_of (uniq_loop ∅ selected))
         Example.st0).1 = Ok rendered
      ∧ length rendered = length (uniq_loop ∅ selected).
Proof.
  intros selected path_of.
  split; [vm_compute; reflexivity|].
  destruct (strict_run_renders_every_selected Example.root Example.yaml selected
              Example.st0 0) as (_ & _ & _ & _ & H).
  - done.
  - by repeat constructor.
  - vm_compute. reflexivity.
  - exact H.
Defined.

(** A run without selection over the first store. *)
Lemma main_reports_what_it_rendered_witness :
  ∃ svc_files rendered,
    (load_services Example.root None Example.st0).1 = Ok svc_files
    ∧ (render_all Example.root Example.yaml false svc_files
         (load_services Example.root None Example.st0).2).1 = Ok rendered
    ∧ stdout (main Example.root Example.yaml None Example.st0).2
      = map (rendered_line Example.root) rendered
        ++ match rendered with [] => [] | _ => next_steps end.
Proof.
  destruct (main_reports_what_it_rendered Example.root Example.yaml None Example.st0 0)
    as (svc_files & rendered & Hl & Ha & Hout & _).
  - vm_compute. reflexivity.
  - exists svc_files, rendered. split_and!; [exact Hl|exact Ha|].
    rewrite Hout. assert (svc_files ≠ []) as Hne.
    { intros ->. vm_compute in Hl. discriminate Hl. }
    destruct svc_files as [|p l]; [destruct (Hne eq_refl)|reflexivity].
Defined.

(** The second location of [shop] names no target. *)
Lemma custom_routes_default_to_the_upstream_witness :
  let s := Example.record_of Example2.shop in
  ∃ r, r ∈ LOCATIONS s
    ∧ path r = "/api"
    ∧ (proxy_pass r = "http://127.0.0.1:9000" ∨ proxy_pass r = "http://127.0.0.1:9000/").
Proof.
  intros s.
  destruct (custom_routes_default_to_the_upstream Example2.yaml
              "/srv/orchestration/services/shop.yml" Example2.shop_yml false Example2.st2
              (parse_service Example2.yaml "/srv/orchestration/services/shop.yml" false
                 Example2.st2).2 Example2.shop s) as [_ H].
  - vm_compute. reflexivity.
  - vm_compute. reflexivity.
  - apply injective_projections; [vm_compute; reflexivity|reflexivity].
  - apply (H [YDict Example2.stripped; YDict Example2.bare] Example2.bare).
    + reflexivity.
    + right. left.
    + reflexivity.
    + reflexivity.
    + discriminate.
Defined.

(** A descriptor written from entries and read back. *)
Lemma read_lines_reads_back_what_was_written_witness :
  omap entry_of (Str.splitlines (write_lines Example3.entries)) = Example3.entries
  ∧ ∃ data,
      Proc.read_lines ∅ (Str.splitlines (write_lines Example3.entries)) = Proc.Return data
      ∧ data !! "domain" = Some "www.example.com" ∧ data !! "health_path" = Some ""
      ∧ data !! "user" = None.
Proof.
  destruct (read_lines_reads_back_what_was_written Example3.entries)
    as (Hentries & data & Hdata & Hlast).
  { repeat constructor. }
  split; [exact Hentries|]. exists data.
  split_and!; [exact Hdata|apply Hlast..].
Defined.

(** The descriptor [web] read by [deploy.py], and a name without file. *)
Lemma deploy_parse_service_outcomes_witness :
  (Deploy.parse_service Example.root "nope" Example3.w0).1
  = Proc.Raise (Proc.FileNotFoundError
                  "Service file not found: /srv/orchestration/services/nope.yml")
  ∧ (Deploy.parse_service Example.root "web" Example3.w0).1
    = Proc.Return {| Deploy.domain := "www.example.com"; Deploy.migrate_cmd := "";
                     Deploy.health_path := "/health" |}.
Proof.
  split.
  - destruct (deploy_parse_service_outcomes Example.root "nope" Example3.w0 eq_refl)
      as (_ & [Hmissing _] & _).
    apply Hmissing. vm_compute. reflexivity.
  - destruct (deploy_parse_service_outcomes Example.root "web" Example3.w0 eq_refl)
      as (_ & _ & Hread & _).
    specialize (Hread Example3.web_yml). cbv zeta in Hread.
    apply Hread. vm_compute. reflexivity.
Defined.


(** After a strict loop over [api], [one_click.py] finds its two files. *)
Lemma one_click_finds_the_rendered_files_witness :
  let rendered :=
    render_all Example.root Example.yaml true ["/srv/orchestration/services/api.yml"]
      Example.st0 in
  OneClick.selected_files Example.root ["api"; "api"] (fs rendered.2)
  = Proc.Return (["/srv/orchestration/generated/nginx/api.conf"],
                 ["/srv/orchestration/generated/systemd/api.service"]).
Proof.
  intros rendered.
  destruct (one_click_finds_the_rendered_files Example.root Example.yaml ["api"; "api"]
              Example.st0) as [_ Hfound]; [by repeat constructor|].
  apply (Hfound [YStr "api"]); vm_compute; reflexivity.
Defined.

(** The domain of the descriptor [api], for both readers. *)
Lemma line_readers_agree_on_the_domain_witness :
  ∃ data, Proc.read_lines ∅ (Str.splitlines Example.api_yml) = Proc.Return data
    ∧ Proc.get data "domain" = "api.example.com".
Proof.
  destruct (line_readers_agree_on_the_domain (Str.splitlines Example.api_yml)
              "api.example.com") as [_ Hdata].
  { vm_compute. reflexivity. }
  apply Hdata. vm_compute. reflexivity.
Defined.

(** Selecting [web], twice and with an empty name between. *)
Lemma sync_deploys_a_complete_selection_witness :
  let run :=
    Sync.main Example.root Example3.spawn "ops@host" (Some ["web"; ""; "web"]) Example3.w0 in
  run.1 = Proc.Return 0
  ∧ Proc.runs run.2 = [ssh_process "ops@host" Example3.web]
  ∧ Proc.stdout run.2 = ["[remote:ops@host] Syncing web ..."; "Done."].
Proof.
  intros run.
  destruct (sync_deploys_a_complete_selection Example.root Example3.spawn "ops@host"
              "web" [""; "web"] Example3.w0)
    as (_ & Hr & Hruns & _ & _ & _ & Hout).
  { replace (uniq_loop ∅ ["web"; ""; "web"]) with ["web"] by (vm_compute; reflexivity).
    constructor; [|constructor]. exists Example3.web. vm_compute. reflexivity. }
  split_and!; [exact Hr|exact Hruns|].
  apply Hout. reflexivity.
Defined.

(** Selecting [web] with [api], which names no repository, and [nope],
    which has no file. *)
Lemma sync_refuses_an_incomplete_selection_witness :
  Sync.main Example.root Example3.spawn "ops@host" (Some ["web"; "api"; "nope"]) Example3.w0
  = (Proc.Return 1,
     {| Proc.files := Proc.files Example3.w0; Proc.stdout := [];
        Proc.stderr :=
          ["Service file(s) not found: nope";
           "Invalid service definition(s) (missing name/repo_url/working_dir): api";
           "Available services: api, quoted, stack, web"];
        Proc.runs := [] |}).
Proof.
  refine (eq_trans
            (sync_refuses_an_incomplete_selection Example.root Example3.spawn "ops@host"
               "web" ["api"; "nope"] Example3.w0 _ _) _).
  - by repeat constructor.
  - replace (uniq_loop ∅ ["web"; "api"; "nope"]) with ["web"; "api"; "nope"]
      by (vm_compute; reflexivity).
    apply Exists_cons_tl, Exists_cons_hd. vm_compute. reflexivity.
  - vm_compute. reflexivity.
Defined.

(** The script for [web], whose compose file is named without a
    directory. *)
Lemma compose_file_without_directory_uses_network_default_witness :
  Str.contains
    (Str.cat ["use_fallback=1"; Str.nl;
              "docker network inspect _default >/dev/null 2>&1 || docker network create _default";
              Str.nl; "docker compose -f docker-compose.yml pull"; Str.nl])
    (Sync.render_remote_script Example3.web) = true.
Proof.
  destruct (compose_file_without_directory_uses_network_default Example3.web)
    as [tail Hscript]; [reflexivity|reflexivity|].
  vm_compute. reflexivity.
Defined.
